(** * pyld: an incremental build engine for C projects

    A shallow embedding of [pyld.py] and the properties of its staleness
    check, dependency walk, command synthesis and clean operation.

    Conventions of the embedding:
    - the registries [_targets] and [_external_dependencies] are finite maps
      keyed by name;
    - a modification time is an integer; only its order and its sign are
      ever inspected by the program;
    - the file system is a finite map from paths to modification times,
      together with the current time;
    - a run of the program produces a trace of the lines it prints and of
      the argument lists it hands to [subprocess.run];
    - recursion through the registry is bounded by a fuel argument that
      stands for the depth of the call stack. *)

From Stdlib Require Import ZArith List String Ascii Bool Lia.
From stdpp Require Import gmap strings list fin_maps pretty.
Import ListNotations.

Local Open Scope string_scope.
Local Open Scope list_scope.
Local Open Scope Z_scope.

(** ** Global data *)

Definition _object_ext : string := ".o".
Definition _dynamic_ext : string := ".so".
Definition _static_ext : string := ".a".

Module Color.
Inductive t := reset | grey | red | green | yellow | white.
End Color.

(** The dictionary [_color_codes], read at the six keys it has. *)
Definition _color_codes (c : Color.t) : nat :=
  match c with
  | Color.reset => 0
  | Color.grey => 90
  | Color.red => 91
  | Color.green => 92
  | Color.yellow => 93
  | Color.white => 97
  end%nat.

Definition esc : string := String (ascii_of_nat 27) EmptyString.
Definition tab : string := String (ascii_of_nat 9) EmptyString.

Definition _color_str (c : Color.t) : string :=
  esc +:+ "[" +:+ pretty (_color_codes c) +:+ "m".

(** ** Utility functions *)

(** [str.split(sep)] for a separator of one character. *)
Fixpoint split (sep : ascii) (s : string) : list string :=
  match s with
  | EmptyString => [EmptyString]
  | String c s' =>
      if Ascii.eqb c sep then EmptyString :: split sep s'
      else match split sep s' with
           | [] => [String c EmptyString]
           | w :: ws => String c w :: ws
           end
  end.

Definition dot : ascii := "."%char.

Definition _strip_extension (path : string) : string :=
  List.hd EmptyString (split dot path).

Definition _get_extension (path : string) : string :=
  List.last (split dot path) EmptyString.

Definition _change_extension (path ext : string) : string :=
  _strip_extension path +:+ ext.

Module TargetType.
Inductive t := EXECUTABLE | STATIC_LIB | DYNAMIC_LIB.
End TargetType.

Module ExtDepType.
Inductive t := STATIC_LIB | DYNAMIC_LIB | SYSTEM_LIB.
End ExtDepType.

Definition _target_type_to_extension (type : TargetType.t) : string :=
  match type with
  | TargetType.EXECUTABLE => ""
  | TargetType.STATIC_LIB => _static_ext
  | TargetType.DYNAMIC_LIB => _dynamic_ext
  end.

Definition _cmp_timestamp (t1 t2 : Z) : bool :=
  (t1 <? 0) || (t1 >? t2).

Fixpoint repeat_str (s : string) (n : nat) : string :=
  match n with
  | O => EmptyString
  | S n' => s +:+ repeat_str s n'
  end.

Definition _output_str (msg : string) (indent : nat) (color : Color.t) : string :=
  repeat_str tab indent +:+ _color_str color +:+ msg +:+ _color_str Color.reset.

(** [" ".join(args)] *)
Fixpoint join (sep : string) (args : list string) : string :=
  match args with
  | [] => EmptyString
  | [a] => a
  | a :: rest => a +:+ sep +:+ join sep rest
  end.

(** ** Entities *)

Module ExtDep.
Record t := mk {
  name : string;
  type : ExtDepType.t;
  path : string
}.
End ExtDep.

Module Target.
Record t := mk {
  name : string;
  type : TargetType.t;
  output_dir : string;
  deps : list string;
  sources : list string;
  flags : list string;
  incdirs : list string
}.
End Target.

(** The module-level state the build consults. *)
Record Globals := {
  c_compiler : string;
  _targets : gmap string Target.t;
  _external_dependencies : gmap string ExtDep.t;
  _do_print_commands : bool
}.

Definition get_out_path (self : Target.t) : string :=
  if (0 <? String.length (Target.output_dir self))%nat
  then Target.output_dir self +:+ "/" +:+ Target.name self
         +:+ _target_type_to_extension (Target.type self)
  else Target.name self +:+ _target_type_to_extension (Target.type self).

(** ** File system and traces *)

Record FS := {
  files : gmap string Z;
  now : Z
}.

Inductive event :=
| Print (line : string)
| Run (args : list string).

(** The outcome of a computation: a value, an exception that escaped, or
    the call stack exhausted; each with the file system and the trace at
    that point. *)
Inductive result (A : Type) : Type :=
| Done (a : A) (fs : FS) (tr : list event)
| Fatal (fs : FS) (tr : list event)
| OutOfFuel (fs : FS) (tr : list event).
Arguments Done {A} a fs tr.
Arguments Fatal {A} fs tr.
Arguments OutOfFuel {A} fs tr.

Definition M (A : Type) : Type := FS -> result A.

Definition after {A} (tr1 : list event) (r : result A) : result A :=
  match r with
  | Done a fs tr2 => Done a fs (tr1 ++ tr2)
  | Fatal fs tr2 => Fatal fs (tr1 ++ tr2)
  | OutOfFuel fs tr2 => OutOfFuel fs (tr1 ++ tr2)
  end.

Definition ret {A} (a : A) : M A := fun fs => Done a fs [].

Definition bind {A B} (m : M A) (k : A -> M B) : M B := fun fs =>
  match m fs with
  | Done a fs1 tr1 => after tr1 (k a fs1)
  | Fatal fs1 tr1 => Fatal fs1 tr1
  | OutOfFuel fs1 tr1 => OutOfFuel fs1 tr1
  end.

Declare Scope build_scope.
Delimit Scope build_scope with build.
Notation "x <- m ;; k" := (bind m (fun x => k))
  (at level 100, m at next level, right associativity) : build_scope.
Notation "m ;;; k" := (bind m (fun _ => k))
  (at level 100, right associativity) : build_scope.
Local Open Scope build_scope.

Definition print (line : string) : M unit := fun fs => Done tt fs [Print line].

(** [_error]: the assertion fails (and so does the formatting of its
    message); either way an exception leaves the function and nothing is
    printed. *)
Definition _error {A} : M A := fun fs => Fatal fs [].

Definition out_of_fuel {A} : M A := fun fs => OutOfFuel fs [].

(** [os.path.exists] and [os.path.getmtime], as functions of the file
    system. *)
Definition path_exists (fs : FS) (path : string) : bool :=
  bool_decide (is_Some (files fs !! path)).

Definition getmtime (fs : FS) (path : string) : Z :=
  default 0 (files fs !! path).

Definition opt_mod_time (fs : FS) (path : string) : Z :=
  if path_exists fs path then getmtime fs path else -1.

Definition os_path_exists (path : string) : M bool := fun fs =>
  Done (path_exists fs path) fs [].

Definition _get_opt_mod_time (path : string) : M Z := fun fs =>
  Done (opt_mod_time fs path) fs [].

Definition events {A} (r : result A) : list event :=
  match r with
  | Done _ _ tr => tr
  | Fatal _ tr => tr
  | OutOfFuel _ tr => tr
  end.

(** The argument lists handed to the executor, in order. *)
Fixpoint commands (tr : list event) : list (list string) :=
  match tr with
  | [] => []
  | Run args :: tr' => args :: commands tr'
  | Print _ :: tr' => commands tr'
  end.

(** ** The engine *)

Section Engine.

(** What running a command does to the file system: the executor is an
    external collaborator, and the engine is parametric in it. *)
Variable spawn : list string -> FS -> FS.
Variable G : Globals.

Definition subprocess_run (args : list string) : M unit := fun fs =>
  Done tt (spawn args fs) [Run args].

Definition _print_commands (indent : nat) (args : list string) : M unit :=
  if _do_print_commands G
  then print (_output_str (join " " args) indent Color.grey)
  else ret tt.

Definition run (self : Target.t) (args : list string) : M unit :=
  subprocess_run (("./" +:+ get_out_path self) :: args).

Definition rm_args (self : Target.t) : list string :=
  ["rm"; "-f"; get_out_path self]
    ++ map (fun s => _change_extension s _object_ext) (Target.sources self).

Fixpoint clean_dependencies (rec : Target.t -> M unit) (names : list string)
  : M unit :=
  match names with
  | [] => ret tt
  | dep_name :: rest =>
      (match _targets G !! dep_name with
       | Some dep => rec dep
       | None => ret tt
       end) ;;;
      clean_dependencies rec rest
  end.

Fixpoint clean (fuel : nat) (self : Target.t) : M unit :=
  match fuel with
  | O => out_of_fuel
  | S fuel' =>
      print ("Cleaning target " +:+ Target.name self) ;;;
      _print_commands 0 (rm_args self) ;;;
      subprocess_run (rm_args self) ;;;
      clean_dependencies (clean fuel') (Target.deps self)
  end.

(** *** Update dependencies *)

Fixpoint update_dependencies (rec : Target.t -> bool -> Z -> nat -> M bool)
    (force : bool) (target_timestamp : Z) (indent : nat)
    (names : list string) (rebuild : bool) : M bool :=
  match names with
  | [] => ret rebuild
  | dep_name :: rest =>
      rebuild' <-
        match _targets G !! dep_name with
        | Some dep =>
            print (_output_str ("Checking dependency " +:+ dep_name +:+ "...")
                     indent Color.reset) ;;;
            dep_rebuild <- rec dep force target_timestamp (S indent) ;;
            ret (rebuild || dep_rebuild)
        | None =>
            match _external_dependencies G !! dep_name with
            | Some _ => ret rebuild
            | None => _error
            end
        end ;;
      update_dependencies rec force target_timestamp indent rest rebuild'
  end.

(** *** Update object files *)

Definition compile_args (self : Target.t) (source : string) : list string :=
  [c_compiler G]
    ++ (match Target.type self with
        | TargetType.DYNAMIC_LIB => ["-fPIC"]
        | _ => []
        end)
    ++ ["-c"; source]
    ++ Target.flags self
    ++ map (fun I => "-I" +:+ I) (Target.incdirs self)
    ++ ["-o"; _change_extension source _object_ext].

Definition update_object_file (self : Target.t) (force : bool)
    (target_timestamp : Z) (indent : nat) (source : string)
    (rebuild : bool) : M bool :=
  let obj := _change_extension source _object_ext in
  src_exists <- os_path_exists source ;;
  (if negb src_exists then _error else ret tt) ;;;
  src_time <- _get_opt_mod_time source ;;
  obj_exists <- os_path_exists obj ;;
  if _cmp_timestamp src_time target_timestamp || negb obj_exists || force
  then
    print (_output_str ("Compiling source file " +:+ source)
             indent Color.reset) ;;;
    _print_commands indent (compile_args self source) ;;;
    subprocess_run (compile_args self source) ;;;
    ret true
  else
    print (_output_str ("Source file " +:+ source +:+ " is up to date")
             indent Color.reset) ;;;
    ret rebuild.

Fixpoint update_object_files (self : Target.t) (force : bool)
    (target_timestamp : Z) (indent : nat) (srcs : list string)
    (rebuild : bool) : M bool :=
  match srcs with
  | [] => ret rebuild
  | source :: rest =>
      rebuild' <- update_object_file self force target_timestamp indent
                    source rebuild ;;
      update_object_files self force target_timestamp indent rest rebuild'
  end.

(** *** Archive / link *)

(** One round of the loop that folds the dependencies into the object
    list and the link flags; [None] is a call of [_error]. *)
Definition link_dependency (dep_name : string)
    (acc : list string * list string) : option (list string * list string) :=
  let '(objs, links) := acc in
  match _targets G !! dep_name with
  | Some dep =>
      match Target.type dep with
      | TargetType.EXECUTABLE => None
      | TargetType.STATIC_LIB => Some (objs ++ [get_out_path dep], links)
      | TargetType.DYNAMIC_LIB => None
      end
  | None =>
      match _external_dependencies G !! dep_name with
      | Some dep =>
          match ExtDep.type dep with
          | ExtDepType.STATIC_LIB =>
              Some (objs ++ [ExtDep.path dep +:+ "/" +:+ ExtDep.name dep
                               +:+ _static_ext], links)
          | ExtDepType.SYSTEM_LIB =>
              Some (objs, links ++ ["-l" +:+ ExtDep.name dep])
          | ExtDepType.DYNAMIC_LIB => None
          end
      | None => None
      end
  end.

Fixpoint link_dependencies (names : list string)
    (acc : list string * list string) : option (list string * list string) :=
  match names with
  | [] => Some acc
  | dep_name :: rest =>
      match link_dependency dep_name acc with
      | Some acc' => link_dependencies rest acc'
      | None => None
      end
  end.

Definition own_objects (self : Target.t) : list string :=
  map (fun s => _change_extension s ".o") (Target.sources self).

Definition link_args (self : Target.t) (objs links : list string)
  : list string :=
  let args := [c_compiler G] ++ Target.flags self ++ objs in
  match Target.type self with
  | TargetType.EXECUTABLE => args ++ ["-o"; get_out_path self] ++ links
  | TargetType.STATIC_LIB => ["ar"; "rcs"; get_out_path self] ++ objs
  | TargetType.DYNAMIC_LIB =>
      args ++ ["-shared"; "-o"; "-fPIC"; get_out_path self]
  end.

Definition build_target (self : Target.t) (indent : nat) : M unit :=
  print (_output_str ("Building target " +:+ Target.name self +:+ "...")
           indent Color.reset) ;;;
  match link_dependencies (Target.deps self) (own_objects self, []) with
  | None => _error
  | Some (objs, links) =>
      _print_commands indent (link_args self objs links) ;;;
      subprocess_run (link_args self objs links) ;;;
      print (_output_str "Completed!" indent Color.green)
  end.

Definition finish (self : Target.t) (force : bool) (indent : nat)
    (rebuild : bool) : M bool :=
  (if rebuild || force
   then build_target self indent
   else print (_output_str ("Target " +:+ Target.name self
                              +:+ " is up to date") indent Color.reset)) ;;;
  ret rebuild.

(** *** Build target if not up to date; returns [true] if rebuilt *)

Fixpoint _opt_build (fuel : nat) (self : Target.t) (force : bool)
    (timestamp : Z) (indent : nat) : M bool :=
  match fuel with
  | O => out_of_fuel
  | S fuel' =>
      target_timestamp <- _get_opt_mod_time (get_out_path self) ;;
      let rebuild := target_timestamp <? 0 in
      rebuild <- update_dependencies (_opt_build fuel') force
                   target_timestamp indent (Target.deps self) rebuild ;;
      rebuild <- update_object_files self force target_timestamp indent
                   (Target.sources self) rebuild ;;
      finish self force indent rebuild
  end.

(** [build]: the report of the elapsed wall-clock time is not part of
    the model. *)
Definition build (fuel : nat) (self : Target.t) (force : bool) : M bool :=
  timestamp <- _get_opt_mod_time (get_out_path self) ;;
  _opt_build fuel self force timestamp 0.

End Engine.

(** ** An ideal toolchain

    A reference executor in which every command succeeds and takes one
    tick of the clock: [rm -f] removes the paths it is given, [ar rcs]
    writes the archive named by its third argument, and any other command
    writes the operand of its last [-o] option. *)

Definition touch (p : string) (fs : FS) : FS :=
  {| files := <[p := now fs]> (files fs); now := now fs + 1 |}.

Definition tick (fs : FS) : FS :=
  {| files := files fs; now := now fs + 1 |}.

Definition unlink (paths : list string) (fs : FS) : FS :=
  {| files := foldr delete (files fs) paths; now := now fs + 1 |}.

(** The operand of the last [-o] that has one. *)
Fixpoint output_operand (args : list string) : option string :=
  match args with
  | [] => None
  | a :: rest =>
      match output_operand rest with
      | Some p => Some p
      | None => if String.eqb a "-o" then List.hd_error rest else None
      end
  end.

Definition ideal_spawn (args : list string) (fs : FS) : FS :=
  match args with
  | prog :: rest =>
      if String.eqb prog "rm" then unlink (List.tl rest) fs
      else if String.eqb prog "ar" then
        match rest with
        | _ :: archive :: _ => touch archive fs
        | _ => tick fs
        end
      else match output_operand rest with
           | Some p => touch p fs
           | None => tick fs
           end
  | [] => tick fs
  end.

(** The line [_print_commands] writes, if command echo is on. *)
Definition echo (G : Globals) (indent : nat) (args : list string) : list event :=
  if _do_print_commands G
  then [Print (_output_str (join " " args) indent Color.grey)]
  else [].

Definition compiling_line (source : string) (indent : nat) : event :=
  Print (_output_str ("Compiling source file " +:+ source) indent Color.reset).

Definition source_up_to_date_line (source : string) (indent : nat) : event :=
  Print (_output_str ("Source file " +:+ source +:+ " is up to date")
           indent Color.reset).

Definition checking_line (dep_name : string) (indent : nat) : event :=
  Print (_output_str ("Checking dependency " +:+ dep_name +:+ "...")
           indent Color.reset).

Definition building_line (self : Target.t) (indent : nat) : event :=
  Print (_output_str ("Building target " +:+ Target.name self +:+ "...")
           indent Color.reset).

Definition completed_line (indent : nat) : event :=
  Print (_output_str "Completed!" indent Color.green).

Definition up_to_date_line (self : Target.t) (indent : nat) : event :=
  Print (_output_str ("Target " +:+ Target.name self +:+ " is up to date")
           indent Color.reset).

(** ** What the dependencies contribute to a link line *)

(** The object-list entries one dependency name stands for. *)
Definition dep_objects (G : Globals) (dep_name : string) : list string :=
  match _targets G !! dep_name with
  | Some dep =>
      match Target.type dep with
      | TargetType.STATIC_LIB => [get_out_path dep]
      | _ => []
      end
  | None =>
      match _external_dependencies G !! dep_name with
      | Some dep =>
          match ExtDep.type dep with
          | ExtDepType.STATIC_LIB =>
              [ExtDep.path dep +:+ "/" +:+ ExtDep.name dep +:+ _static_ext]
          | _ => []
          end
      | None => []
      end
  end.

(** The link flags one dependency name stands for. *)
Definition dep_links (G : Globals) (dep_name : string) : list string :=
  match _targets G !! dep_name with
  | Some _ => []
  | None =>
      match _external_dependencies G !! dep_name with
      | Some dep =>
          match ExtDep.type dep with
          | ExtDepType.SYSTEM_LIB => ["-l" +:+ ExtDep.name dep]
          | _ => []
          end
      | None => []
      end
  end.

(** ** Extensions *)

(** The path with its extension, the part from the last dot on, replaced;
    a path without a dot has no extension and gets the new one appended. *)
Definition replace_extension (path ext : string) : string :=
  match split dot path with
  | [whole] => whole +:+ ext
  | parts => join "." (removelast parts) +:+ ext
  end.

(** ** Observations on a run *)

(** Some dependency among [names], built in turn starting from [fs] by
    [rec], is a registered target whose build returns [true]. *)
Inductive dep_rebuilt (G : Globals) (rec : Target.t -> M bool)
  : list string -> FS -> Prop :=
| dep_rebuilt_here dep_name rest dep fs fs' tr :
    _targets G !! dep_name = Some dep ->
    rec dep fs = Done true fs' tr ->
    dep_rebuilt G rec (dep_name :: rest) fs
| dep_rebuilt_after_target dep_name rest dep fs r fs' tr :
    _targets G !! dep_name = Some dep ->
    rec dep fs = Done r fs' tr ->
    dep_rebuilt G rec rest fs' ->
    dep_rebuilt G rec (dep_name :: rest) fs
| dep_rebuilt_after_other dep_name rest fs :
    _targets G !! dep_name = None ->
    dep_rebuilt G rec rest fs ->
    dep_rebuilt G rec (dep_name :: rest) fs.

(** Some source among [srcs] has its compile command in the trace. *)
Definition source_recompiled (G : Globals) (self : Target.t)
    (srcs : list string) (tr : list event) : Prop :=
  exists s, In s srcs /\ In (Run (compile_args G self s)) tr.

(** The file system after the commands of a trace have run, in order. *)
Definition replay (spawn : list string -> FS -> FS) (tr : list event)
    (fs : FS) : FS :=
  fold_left (fun fs0 args => spawn args fs0) (commands tr) fs.

(** A computation changes the file system through its commands only. *)
Definition traced {A} (spawn : list string -> FS -> FS) (m : M A) : Prop :=
  forall fs,
    match m fs with
    | Done _ fs' tr => fs' = replay spawn tr fs
    | Fatal fs' tr => fs' = replay spawn tr fs
    | OutOfFuel fs' tr => fs' = replay spawn tr fs
    end.

(** Running [args] never brings [path] into existence. *)
Definition keeps_missing (spawn : list string -> FS -> FS) (path : string)
    (args : list string) : Prop :=
  forall fs, path_exists fs path = false ->
             path_exists (spawn args fs) path = false.

(** The outcome is not the exhaustion of the call stack. *)
Definition fueled {A} (r : result A) : Prop :=
  match r with
  | OutOfFuel _ _ => False
  | _ => True
  end.

(** ** The dependency graph *)

(** The graph below [self] is at most [n] targets deep: a call stack of
    depth [n] is enough to walk it. *)
Fixpoint depth_within (G : Globals) (n : nat) (self : Target.t) : bool :=
  match n with
  | O => false
  | S n' =>
      forallb (fun dep_name =>
                 match _targets G !! dep_name with
                 | Some dep => depth_within G n' dep
                 | None => true
                 end) (Target.deps self)
  end.

(** [self], or a registered target it depends on through any number of
    dependency names, declares the source [s]. *)
Inductive needs (G : Globals) (s : string) : Target.t -> Prop :=
| needs_own self :
    In s (Target.sources self) -> needs G s self
| needs_dep self dep_name dep :
    In dep_name (Target.deps self) ->
    _targets G !! dep_name = Some dep ->
    needs G s dep ->
    needs G s self.

(** The removal commands of a clean of [self], in order: its own, then
    those of each dependency that is a registered target. *)
Fixpoint clean_commands (G : Globals) (fuel : nat) (self : Target.t)
  : list (list string) :=
  match fuel with
  | O => []
  | S fuel' =>
      rm_args self
        :: flat_map (fun dep_name =>
                       match _targets G !! dep_name with
                       | Some dep => clean_commands G fuel' dep
                       | None => []
                       end) (Target.deps self)
  end.

Definition with_external_dependencies (G : Globals)
    (exts : gmap string ExtDep.t) : Globals :=
  {| c_compiler := c_compiler G;
     _targets := _targets G;
     _external_dependencies := exts;
     _do_print_commands := _do_print_commands G |}.

(** ** Idempotence *)

(** The targets a build of [root] can visit: [root] and what is registered. *)
Definition in_graph (G : Globals) (root d : Target.t) : Prop :=
  d = root \/ exists k, _targets G !! k = Some d.

(** The toolchain does its job on the commands of [d]: compiling a source
    writes its object, and the archive/link command writes the output of
    [d], at the current time. *)
Definition toolchain_ok (spawn : list string -> FS -> FS) (G : Globals)
    (d : Target.t) : Prop :=
  (forall s fs,
      In s (Target.sources d) ->
      spawn (compile_args G d s) fs = touch (_change_extension s _object_ext) fs)
  /\ (forall objs links fs,
        link_dependencies G (Target.deps d) (own_objects d, []) = Some (objs, links) ->
        spawn (link_args G d objs links) fs = touch (get_out_path d) fs).

(** The paths the commands of [d] write. *)
Definition written (d : Target.t) : list string :=
  get_out_path d
    :: map (fun s => _change_extension s _object_ext) (Target.sources d).

Definition is_source (G : Globals) (root : Target.t) (p : string) : Prop :=
  exists d, in_graph G root d /\ In p (Target.sources d).

(** No source of the graph is an object or an output of the graph. *)
Definition sources_apart (G : Globals) (root : Target.t) : Prop :=
  forall d p, in_graph G root d -> In p (written d) -> ~ is_source G root p.

(** The clock is past the epoch and every recorded modification time lies
    between the epoch and now. *)
Definition sane (fs : FS) : Prop :=
  0 <= now fs /\ forall p t, files fs !! p = Some t -> 0 <= t <= now fs.

(** From [fs] to [fs'] files stay, modification times do not go back, and
    the protected paths are untouched. *)
Definition grows (protected : string -> Prop) (fs fs' : FS) : Prop :=
  (forall p t, files fs !! p = Some t ->
               exists t', files fs' !! p = Some t' /\ t <= t')
  /\ (forall p, protected p -> files fs' !! p = files fs !! p).

(** [d] and everything below it, down to depth [n], is built and current:
    the output exists, no source is newer than it, every object exists. *)
Fixpoint settled (G : Globals) (n : nat) (d : Target.t) (fs : FS) : Prop :=
  match n with
  | O => False
  | S n' =>
      (exists t_out,
          files fs !! get_out_path d = Some t_out
          /\ forall s, In s (Target.sources d) ->
                exists ts, files fs !! s = Some ts /\ ts <= t_out
                           /\ path_exists fs (_change_extension s _object_ext) = true)
      /\ forall dep_name, In dep_name (Target.deps d) ->
            match _targets G !! dep_name with
            | Some dep => settled G n' dep fs
            | None => is_Some (_external_dependencies G !! dep_name)
            end
  end.

(** What a build prints when there is nothing to do. *)
Fixpoint up_to_date_report (G : Globals) (fuel : nat) (self : Target.t)
    (indent : nat) : list event :=
  match fuel with
  | O => []
  | S fuel' =>
      flat_map (fun dep_name =>
                  match _targets G !! dep_name with
                  | Some dep =>
                      checking_line dep_name indent
                        :: up_to_date_report G fuel' dep (S indent)
                  | None => []
                  end) (Target.deps self)
      ++ map (fun s => source_up_to_date_line s indent) (Target.sources self)
      ++ [up_to_date_line self indent]
  end.

(** The nodes a walk from [self] at [indent] visits with [fuel] frames of
    stack, each with the indentation it is reported at. *)
Inductive visited (G : Globals)
  : nat -> Target.t -> nat -> Target.t -> nat -> Prop :=
| visited_self fuel self indent :
    visited G (S fuel) self indent self indent
| visited_dep fuel self indent dep_name dep d i :
    In dep_name (Target.deps self) ->
    _targets G !! dep_name = Some dep ->
    visited G fuel dep (S indent) d i ->
    visited G (S fuel) self indent d i.

(** ** Link lines as the specification words them *)

(** [<compiler> <flags...> <objects...> -shared -fPIC -o <output>] *)
Definition intended_dynamic_link_args (G : Globals) (self : Target.t)
    (objs : list string) : list string :=
  [c_compiler G] ++ Target.flags self ++ objs
    ++ ["-shared"; "-fPIC"; "-o"; get_out_path self].

Definition with_flags (self : Target.t) (flags : list string) : Target.t :=
  Target.mk (Target.name self) (Target.type self) (Target.output_dir self)
    (Target.deps self) (Target.sources self) flags (Target.incdirs self).

(** ** Concrete projects used in the examples *)

Module Examples.

Definition gcc_globals (targets : gmap string Target.t)
    (exts : gmap string ExtDep.t) : Globals :=
  {| c_compiler := "gcc";
     _targets := targets;
     _external_dependencies := exts;
     _do_print_commands := false |}.

Definition util : Target.t :=
  Target.mk "util" TargetType.STATIC_LIB "" [] ["util.c"] [] [].

Definition app : Target.t :=
  Target.mk "app" TargetType.EXECUTABLE "" ["util"; "m"] ["main.c"]
    ["-O2"] ["inc"].

Definition libm : ExtDep.t := ExtDep.mk "m" ExtDepType.SYSTEM_LIB "".

Definition project : Globals :=
  gcc_globals (<["util" := util]> (<["app" := app]> ∅)) (<["m" := libm]> ∅).

Definition plugin : Target.t :=
  Target.mk "plugin" TargetType.DYNAMIC_LIB "" [] ["plugin.c"] [] [].

Definition plugin_project : Globals :=
  gcc_globals (<["plugin" := plugin]> ∅) ∅.

Definition dotted : Target.t :=
  Target.mk "tool" TargetType.EXECUTABLE "" [] ["./main.c"] [] [].

Definition fresh_checkout (paths : list string) : FS :=
  {| files := list_to_map (map (fun p => (p, 1)) paths); now := 10 |}.

(** An executable with no sources of its own, in front of [util]. *)
Definition front : Target.t :=
  Target.mk "front" TargetType.EXECUTABLE "" ["util"] [] [] [].

Definition front_project : Globals :=
  gcc_globals (<["util" := util]> (<["front" := front]> ∅)) ∅.

(** [util] is built and current; [front] has never been linked. *)
Definition util_built : FS :=
  {| files := <["util.c" := 5]> (<["util.o" := 6]> (<["util.a" := 10]> ∅));
     now := 20 |}.

(** A group target with no sources, already archived. *)
Definition bundle : Target.t :=
  Target.mk "bundle" TargetType.STATIC_LIB "" ["m"] [] [] [].

Definition bundle_project : Globals :=
  gcc_globals (<["bundle" := bundle]> ∅) (<["m" := libm]> ∅).

Definition bundle_built : FS :=
  {| files := <["bundle.a" := 7]> ∅; now := 20 |}.

(** Two sources, the second of which is not on disk. *)
Definition pair : Target.t :=
  Target.mk "pair" TargetType.EXECUTABLE "" [] ["a.c"; "b.c"] [] [].

Definition pair_project : Globals :=
  gcc_globals (<["pair" := pair]> ∅) ∅.

(** One executable, one source. *)
Definition tool : Target.t :=
  Target.mk "tool" TargetType.EXECUTABLE "" [] ["main.c"] [] [].

Definition tool_project : Globals :=
  gcc_globals (<["tool" := tool]> ∅) ∅.

(** [main.c] carries a modification time that is still ahead of the clock. *)
Definition future_source : FS :=
  {| files := <["main.c" := 50]> ∅; now := 10 |}.

End Examples.

(** ** Paths *)

Fixpoint has_dot (s : string) : bool :=
  match s with
  | EmptyString => false
  | String c s' => Ascii.eqb c dot || has_dot s'
  end.

(** ** Dependencies at link time *)

(** A dependency name the link walk accepts: a registered StaticLib target,
    or, when no target has the name, an external StaticLib or SystemLib. *)
Definition linkable (G : Globals) (dep_name : string) : bool :=
  match _targets G !! dep_name with
  | Some dep =>
      match Target.type dep with
      | TargetType.STATIC_LIB => true
      | _ => false
      end
  | None =>
      match _external_dependencies G !! dep_name with
      | Some dep =>
          match ExtDep.type dep with
          | ExtDepType.DYNAMIC_LIB => false
          | _ => true
          end
      | None => false
      end
  end.

(** Two registries of external dependencies that differ only at names a
    target is registered under. *)
Definition agree_off_targets (G : Globals)
    (exts exts' : gmap string ExtDep.t) : Prop :=
  forall dep_name,
    _targets G !! dep_name = None -> exts !! dep_name = exts' !! dep_name.

(** ** What a build recompiles *)

(** The commands of a forced build: those of every dependency that is a
    registered target, in declared order, then one compile command per
    source, then the archive/link command. *)
Fixpoint forced_commands (G : Globals) (fuel : nat) (self : Target.t)
  : list (list string) :=
  match fuel with
  | O => []
  | S fuel' =>
      flat_map (fun dep_name =>
                  match _targets G !! dep_name with
                  | Some dep => forced_commands G fuel' dep
                  | None => []
                  end) (Target.deps self)
      ++ map (compile_args G self) (Target.sources self)
      ++ match link_dependencies G (Target.deps self) (own_objects self, []) with
         | Some (objs, links) => [link_args G self objs links]
         | None => []
         end
  end.

(** The test of the loop over the sources, without [force]. *)
Definition stale_source (fs : FS) (T : Z) (s : string) : bool :=
  _cmp_timestamp (opt_mod_time fs s) T
  || negb (path_exists fs (_change_extension s _object_ext)).

(** ** Paths through the graph *)

(** [b] can be reached from [a] through one or more dependency names that
    resolve to registered targets. *)
Inductive reaches (G : Globals) : Target.t -> Target.t -> Prop :=
| reaches_dep a dep_name b :
    In dep_name (Target.deps a) ->
    _targets G !! dep_name = Some b ->
    reaches G a b
| reaches_trans a dep_name b c :
    In dep_name (Target.deps a) ->
    _targets G !! dep_name = Some b ->
    reaches G b c ->
    reaches G a c.


Module MoreExamples.

(** Two targets that depend on each other. *)
Definition ping : Target.t :=
  Target.mk "ping" TargetType.STATIC_LIB "" ["m"; "pong"] [] [] [].

Definition pong : Target.t :=
  Target.mk "pong" TargetType.STATIC_LIB "" ["ping"] [] [] [].

Definition ping_pong : Globals :=
  Examples.gcc_globals (<["ping" := ping]> (<["pong" := pong]> ∅))
    (<["m" := Examples.libm]> ∅).



(** Three sources, of which only [b.c] was edited after the last build. *)
Definition trio : Target.t :=
  Target.mk "trio" TargetType.EXECUTABLE "" [] ["a.c"; "b.c"; "c.c"] [] [].

Definition trio_project : Globals :=
  Examples.gcc_globals (<["trio" := trio]> ∅) ∅.

Definition b_edited : FS :=
  {| files := list_to_map
                [("a.c", 1); ("a.o", 2); ("b.c", 8); ("b.o", 2);
                 ("c.c", 1); ("c.o", 2); ("trio", 5)];
     now := 10 |}.


(** [util] is also the name of an external dynamic library. *)
Definition shadowed_exts : gmap string ExtDep.t :=
  <["util" := ExtDep.mk "util" ExtDepType.DYNAMIC_LIB "/usr/lib"]>
    (<["m" := Examples.libm]> ∅).

Definition plain_exts : gmap string ExtDep.t := <["m" := Examples.libm]> ∅.

(** An executable whose second dependency is registered nowhere. *)
Definition orphan : Target.t :=
  Target.mk "orphan" TargetType.EXECUTABLE "" ["util"; "nowhere"; "m"]
    ["orphan.c"] [] [].

(** An executable that lists another executable as a dependency. *)
Definition runner : Target.t :=
  Target.mk "runner" TargetType.EXECUTABLE "" ["app"] ["runner.c"] [] [].

(** Everything of [project] and of [runner] is built and current. *)
Definition all_built : FS :=
  {| files := list_to_map
                [("util.c", 1); ("util.o", 2); ("util.a", 3);
                 ("main.c", 1); ("main.o", 2); ("app", 3);
                 ("runner.c", 1); ("runner.o", 2); ("runner", 3)];
     now := 10 |}.

(** [app] was deleted; its object and its library are current. *)
Definition output_deleted : FS :=
  {| files := list_to_map
                [("util.c", 1); ("util.o", 2); ("util.a", 3);
                 ("main.c", 1); ("main.o", 2)];
     now := 10 |}.

End MoreExamples.

(** ** Declaring targets

    Targets are objects that the accessors update in place and that the
    registry refers to.  The store holds the objects, a handle is the
    position of an object in the store, and the registry of targets maps a
    name to a handle. *)

Record Setup := {
  store : list Target.t;
  target_names : gmap string nat;
  extdep_names : gmap string ExtDep.t
}.

(** [Target.__init__]: a fresh object, registered under its name. *)
Definition Target_init (name : string) (type : TargetType.t) (st : Setup)
  : nat * Setup :=
  (length (store st),
   {| store := store st ++ [Target.mk name type "" [] [] [] []];
      target_names := <[name := length (store st)]> (target_names st);
      extdep_names := extdep_names st |}).

(** [ExtDep.__init__] *)
Definition ExtDep_init (name : string) (type : ExtDepType.t) (path : string)
    (st : Setup) : ExtDep.t * Setup :=
  (ExtDep.mk name type path,
   {| store := store st;
      target_names := target_names st;
      extdep_names := <[name := ExtDep.mk name type path]> (extdep_names st) |}).

Definition update_target (f : Target.t -> Target.t) (self : nat) (st : Setup)
  : Setup :=
  {| store := alter f self (store st);
     target_names := target_names st;
     extdep_names := extdep_names st |}.

Definition extend_deps (deps : list string) (t : Target.t) : Target.t :=
  Target.mk (Target.name t) (Target.type t) (Target.output_dir t)
    (Target.deps t ++ deps) (Target.sources t) (Target.flags t)
    (Target.incdirs t).

Definition extend_sources (sources : list string) (t : Target.t) : Target.t :=
  Target.mk (Target.name t) (Target.type t) (Target.output_dir t)
    (Target.deps t) (Target.sources t ++ sources) (Target.flags t)
    (Target.incdirs t).

Definition extend_incdirs (dirs : list string) (t : Target.t) : Target.t :=
  Target.mk (Target.name t) (Target.type t) (Target.output_dir t)
    (Target.deps t) (Target.sources t) (Target.flags t)
    (Target.incdirs t ++ dirs).

Definition add_dependencies (self : nat) (deps : list string) : Setup -> Setup :=
  update_target (extend_deps deps) self.

Definition add_source_files (self : nat) (sources : list string)
  : Setup -> Setup :=
  update_target (extend_sources sources) self.

Definition add_include_directories (self : nat) (dirs : list string)
  : Setup -> Setup :=
  update_target (extend_incdirs dirs) self.

(** [_targets] as the build reads it: each name with the object its handle
    refers to, in the state the object is in. *)
Definition registered_targets (st : Setup) : gmap string Target.t :=
  omap (fun h => store st !! h) (target_names st).

Definition globals_of (st : Setup) (compiler : string) (echo_on : bool)
  : Globals :=
  {| c_compiler := compiler;
     _targets := registered_targets st;
     _external_dependencies := extdep_names st;
     _do_print_commands := echo_on |}.

(** Every registered handle refers to an object of the store. *)
Definition handles_valid (st : Setup) : Prop :=
  forall k h, target_names st !! k = Some h -> (h < length (store st))%nat.

Definition no_setup : Setup :=
  {| store := []; target_names := ∅; extdep_names := ∅ |}.

(** ** Reasoning about outcomes *)

Lemma after_nil {A} (r : result A) : after [] r = r.
Proof. destruct r; reflexivity. Qed.

Lemma after_after {A} (tr1 tr2 : list event) (r : result A) :
  after tr1 (after tr2 r) = after (tr1 ++ tr2) r.
Proof. destruct r; simpl; rewrite ?app_assoc; reflexivity. Qed.

Lemma events_after {A} (tr : list event) (r : result A) :
  events (after tr r) = tr ++ events r.
Proof. destruct r; reflexivity. Qed.

Lemma bind_assoc {A B C} (m : M A) (k : A -> M B) (h : B -> M C) fs :
  bind (bind m k) h fs = bind m (fun a => bind (k a) h) fs.
Proof.
  unfold bind. destruct (m fs) as [a fs1 tr1| |]; simpl; try reflexivity.
  destruct (k a fs1) as [b fs2 tr2| |]; simpl;
    rewrite ?after_after, ?app_assoc; reflexivity.
Qed.

Lemma bind_Done {A B} (m : M A) (k : A -> M B) fs b fs' tr :
  bind m k fs = Done b fs' tr ->
  exists a fs1 tr1 tr2,
    m fs = Done a fs1 tr1 /\ k a fs1 = Done b fs' tr2 /\ tr = tr1 ++ tr2.
Proof.
  unfold bind. destruct (m fs) as [a fs1 tr1| |]; try discriminate.
  destruct (k a fs1) as [b' fs2 tr2| |] eqn:E; simpl; try discriminate.
  intros [= <- <- <-]. eauto 10.
Qed.

Lemma bind_ext {A B} (m : M A) (k k' : A -> M B) fs :
  (forall a fs1, k a fs1 = k' a fs1) -> bind m k fs = bind m k' fs.
Proof. intros H. unfold bind. destruct (m fs); try reflexivity. rewrite H. reflexivity. Qed.

Lemma bind_ext_run {A B} (m : M A) (k k' : A -> M B) fs :
  (forall a fs1 tr1, m fs = Done a fs1 tr1 -> k a fs1 = k' a fs1) ->
  bind m k fs = bind m k' fs.
Proof.
  intros H. unfold bind. destruct (m fs) as [a fs1 tr1| |]; try reflexivity.
  rewrite (H a fs1 tr1 eq_refl). reflexivity.
Qed.

Lemma commands_app (tr1 tr2 : list event) :
  commands (tr1 ++ tr2) = commands tr1 ++ commands tr2.
Proof.
  induction tr1 as [|[line|args] tr1 IH]; simpl; rewrite ?IH; reflexivity.
Qed.

Lemma in_commands (args : list string) (tr : list event) :
  In args (commands tr) <-> In (Run args) tr.
Proof.
  induction tr as [|[line|a] tr IH]; simpl.
  - tauto.
  - rewrite IH. split; [tauto | intros [H|H]; [discriminate | assumption]].
  - rewrite IH. split; intros [H|H]; auto; left; congruence.
Qed.

Lemma commands_echo G indent args : commands (echo G indent args) = [].
Proof. unfold echo. destruct (_do_print_commands G); reflexivity. Qed.

Lemma _print_commands_run G indent args fs :
  _print_commands G indent args fs = Done tt fs (echo G indent args).
Proof.
  unfold _print_commands, echo. destruct (_do_print_commands G); reflexivity.
Qed.

(** The archive/link step, spelled out. *)
Lemma build_target_run spawn G self indent fs :
  build_target spawn G self indent fs =
  match link_dependencies G (Target.deps self) (own_objects self, []) with
  | None => Fatal fs [building_line self indent]
  | Some (objs, links) =>
      Done tt (spawn (link_args G self objs links) fs)
        (building_line self indent
           :: echo G indent (link_args G self objs links)
           ++ [Run (link_args G self objs links); completed_line indent])
  end.
Proof.
  unfold build_target, bind, print; simpl.
  destruct (link_dependencies G (Target.deps self) (own_objects self, []))
    as [[objs links]|]; simpl; [|reflexivity].
  rewrite _print_commands_run. simpl.
  unfold subprocess_run; simpl. reflexivity.
Qed.

Lemma build_target_commands spawn G self indent fs objs links :
  link_dependencies G (Target.deps self) (own_objects self, []) = Some (objs, links) ->
  commands (events (build_target spawn G self indent fs)) = [link_args G self objs links].
Proof.
  intros H. rewrite build_target_run, H. simpl.
  rewrite commands_app, commands_echo. reflexivity.
Qed.

Lemma link_dependency_Some G dep_name objs links objs' links' :
  link_dependency G dep_name (objs, links) = Some (objs', links') ->
  objs' = objs ++ dep_objects G dep_name /\ links' = links ++ dep_links G dep_name.
Proof.
  unfold link_dependency, dep_objects, dep_links.
  destruct (_targets G !! dep_name) as [dep|].
  - destruct (Target.type dep); intros H; inversion H; subst;
      rewrite ?app_nil_r; auto.
  - destruct (_external_dependencies G !! dep_name) as [dep|]; [|discriminate].
    destruct (ExtDep.type dep); intros H; inversion H; subst;
      rewrite ?app_nil_r; auto.
Qed.

Lemma link_dependencies_Some G names : forall objs links objs' links',
  link_dependencies G names (objs, links) = Some (objs', links') ->
  objs' = objs ++ flat_map (dep_objects G) names
  /\ links' = links ++ flat_map (dep_links G) names.
Proof.
  induction names as [|n names IH]; intros objs links objs' links';
    cbn [link_dependencies flat_map].
  - intros [= <- <-]. rewrite !app_nil_r. auto.
  - destruct (link_dependency G n (objs, links)) as [[o1 l1]|] eqn:E;
      [|discriminate].
    intros H. apply link_dependency_Some in E as [-> ->].
    apply IH in H as [-> ->]. rewrite <- !app_assoc. auto.
Qed.

Lemma _change_extension_one_dot path ext :
  (List.length (split dot path) <= 2)%nat ->
  _change_extension path ext = replace_extension path ext.
Proof.
  unfold _change_extension, _strip_extension, replace_extension.
  destruct (split dot path) as [|a [|b [|c rest]]]; simpl; intros H;
    try reflexivity; lia.
Qed.

(** One round of the loop over the sources, spelled out. *)
Lemma update_object_file_run spawn G self force T indent source rebuild fs :
  update_object_file spawn G self force T indent source rebuild fs =
  if negb (path_exists fs source) then Fatal fs []
  else if _cmp_timestamp (opt_mod_time fs source) T
          || negb (path_exists fs (_change_extension source _object_ext))
          || force
       then Done true (spawn (compile_args G self source) fs)
              (compiling_line source indent
                 :: echo G indent (compile_args G self source)
                 ++ [Run (compile_args G self source)])
       else Done rebuild fs [source_up_to_date_line source indent].
Proof.
  unfold update_object_file, bind, os_path_exists, _get_opt_mod_time.
  destruct (path_exists fs source); cbn [negb after]; [|reflexivity].
  unfold ret at 1. cbn [after app].
  destruct (_cmp_timestamp (opt_mod_time fs source) T
            || negb (path_exists fs (_change_extension source _object_ext))
            || force).
  - unfold print, subprocess_run, ret. rewrite _print_commands_run.
    cbn [after app]. reflexivity.
  - reflexivity.
Qed.

Lemma path_exists_Some fs path t :
  files fs !! path = Some t -> path_exists fs path = true.
Proof. intros H. unfold path_exists. apply bool_decide_eq_true_2. eauto. Qed.

Lemma path_exists_None fs path :
  files fs !! path = None -> path_exists fs path = false.
Proof.
  intros H. unfold path_exists. apply bool_decide_eq_false_2.
  rewrite H. intros [x Hx]. discriminate.
Qed.

Lemma opt_mod_time_Some fs path t :
  files fs !! path = Some t -> opt_mod_time fs path = t.
Proof.
  intros H. unfold opt_mod_time, getmtime.
  rewrite (path_exists_Some _ _ _ H), H. reflexivity.
Qed.

Lemma opt_mod_time_None fs path :
  files fs !! path = None -> opt_mod_time fs path = -1.
Proof. intros H. unfold opt_mod_time. rewrite (path_exists_None _ _ H). reflexivity. Qed.

(** ** Command synthesis *)

Lemma link_args_shape G self objs links :
  link_args G self objs links =
  match Target.type self with
  | TargetType.EXECUTABLE =>
      [c_compiler G] ++ Target.flags self ++ objs
        ++ ["-o"; get_out_path self] ++ links
  | TargetType.STATIC_LIB => ["ar"; "rcs"; get_out_path self] ++ objs
  | TargetType.DYNAMIC_LIB =>
      [c_compiler G] ++ Target.flags self ++ objs
        ++ ["-shared"; "-o"; "-fPIC"; get_out_path self]
  end.
Proof.
  unfold link_args. destruct (Target.type self); cbn [app];
    rewrite <- ?app_assoc; reflexivity.
Qed.

(** C1. For a DynamicLib target the link step issues
    [<compiler> <flags...> <objects...> -shared -o -fPIC <output>]: every
    object is on the line, but [-o] is followed by [-fPIC] and not by the
    output path, so the line is never the intended
    [<compiler> <flags...> <objects...> -shared -fPIC -o <output>]. *)
Theorem C1_dynamic_lib_link_line spawn G self indent fs objs links :
  Target.type self = TargetType.DYNAMIC_LIB ->
  link_dependencies G (Target.deps self) (own_objects self, []) = Some (objs, links) ->
  commands (events (build_target spawn G self indent fs)) =
    [[c_compiler G] ++ Target.flags self ++ objs
       ++ ["-shared"; "-o"; "-fPIC"; get_out_path self]]
  /\ objs = own_objects self ++ flat_map (dep_objects G) (Target.deps self)
  /\ commands (events (build_target spawn G self indent fs)) <>
       [intended_dynamic_link_args G self objs].
Proof.
  intros Hty Hlink.
  rewrite (build_target_commands _ _ _ _ _ _ _ Hlink).
  rewrite link_args_shape, Hty. unfold intended_dynamic_link_args.
  split; [reflexivity|]. split.
  - apply link_dependencies_Some in Hlink as [-> _]. reflexivity.
  - intros [= H]. apply app_inv_head in H. apply app_inv_head in H.
    discriminate H.
Qed.

Lemma C1_dynamic_lib_link_line_witness :
  commands (events (build_target ideal_spawn Examples.plugin_project
                      Examples.plugin 0 (Examples.fresh_checkout ["plugin.c"]))) =
    [["gcc"; "plugin.o"; "-shared"; "-o"; "-fPIC"; "plugin.so"]]
  /\ commands (events (build_target ideal_spawn Examples.plugin_project
                      Examples.plugin 0 (Examples.fresh_checkout ["plugin.c"]))) <>
       [["gcc"; "plugin.o"; "-shared"; "-fPIC"; "-o"; "plugin.so"]].
Proof.
  destruct (C1_dynamic_lib_link_line ideal_spawn Examples.plugin_project
              Examples.plugin 0 (Examples.fresh_checkout ["plugin.c"])
              ["plugin.o"] [] eq_refl eq_refl) as (H1 & _ & H2).
  split; [exact H1 | exact H2].
Defined.

(** C5. A stale source is compiled with
    [<compiler> [-fPIC] -c <source> <flags...> -I<incdir>... -o <object>],
    where the object path is what [_change_extension] makes of the source
    path.  That is the source path cut at its FIRST dot: for [./main.c] the
    object is [.o], not [./main.o], the path with its extension replaced. *)
Theorem C5_compile_command :
  (forall spawn G self force T indent source rebuild fs t,
      files fs !! source = Some t ->
      _cmp_timestamp t T
        || negb (bool_decide (is_Some (files fs !! _change_extension source _object_ext)))
        || force = true ->
      commands (events (update_object_file spawn G self force T indent source rebuild fs)) =
        [[c_compiler G]
           ++ (match Target.type self with
               | TargetType.DYNAMIC_LIB => ["-fPIC"]
               | _ => []
               end)
           ++ ["-c"; source] ++ Target.flags self
           ++ map (fun I => "-I" +:+ I) (Target.incdirs self)
           ++ ["-o"; _change_extension source _object_ext]])
  /\ _change_extension "./main.c" _object_ext = ".o"
  /\ replace_extension "./main.c" _object_ext = "./main.o"
  /\ commands (events (update_object_file ideal_spawn
                         (Examples.gcc_globals ∅ ∅) Examples.dotted false (-1) 0
                         "./main.c" true (Examples.fresh_checkout ["./main.c"]))) =
       [["gcc"; "-c"; "./main.c"; "-o"; ".o"]].
Proof.
  split; [|repeat split; vm_compute; reflexivity].
  intros spawn G self force T indent source rebuild fs t Hsrc Hstale.
  rewrite update_object_file_run.
  rewrite (path_exists_Some _ _ _ Hsrc), (opt_mod_time_Some _ _ _ Hsrc).
  cbn [negb]. unfold path_exists. rewrite Hstale. cbn [events].
  change (compiling_line source indent :: ?l) with ([compiling_line source indent] ++ l).
  rewrite !commands_app, commands_echo. reflexivity.
Qed.

Lemma C5_compile_command_witness :
  commands (events (update_object_file ideal_spawn Examples.project
                      Examples.app false (-1) 0 "main.c" false
                      (Examples.fresh_checkout ["main.c"]))) =
    [["gcc"; "-c"; "main.c"; "-O2"; "-Iinc"; "-o"; "main.o"]].
Proof.
  destruct C5_compile_command as [H _].
  exact (H ideal_spawn Examples.project Examples.app false (-1) 0%nat "main.c"
           false (Examples.fresh_checkout ["main.c"]) 1 eq_refl eq_refl).
Defined.

(** C7. For an Executable [B] whose link step runs, the link line is
    [<compiler> <flags...> <objects...> -o <output> <link-flags...>], where
    the object list is [B]'s own objects followed by what the dependencies
    contribute in declared order; a dependency that resolves to a registered
    StaticLib target contributes its output path, after everything the
    dependencies declared before it contribute. *)
Theorem C7_static_lib_propagation spawn G B indent fs objs links :
  Target.type B = TargetType.EXECUTABLE ->
  link_dependencies G (Target.deps B) (own_objects B, []) = Some (objs, links) ->
  commands (events (build_target spawn G B indent fs)) =
    [[c_compiler G] ++ Target.flags B ++ objs ++ ["-o"; get_out_path B] ++ links]
  /\ objs = own_objects B ++ flat_map (dep_objects G) (Target.deps B)
  /\ forall before dep_name later dep,
       Target.deps B = before ++ dep_name :: later ->
       _targets G !! dep_name = Some dep ->
       Target.type dep = TargetType.STATIC_LIB
       /\ objs = own_objects B ++ flat_map (dep_objects G) before
                  ++ get_out_path dep :: flat_map (dep_objects G) later.
Proof.
  intros Hty Hlink.
  rewrite (build_target_commands _ _ _ _ _ _ _ Hlink).
  rewrite link_args_shape, Hty. split; [reflexivity|].
  pose proof (link_dependencies_Some _ _ _ _ _ _ Hlink) as [Hobjs _].
  split; [exact Hobjs|].
  intros before dep_name later dep Hdeps Hdep.
  assert (Hst : Target.type dep = TargetType.STATIC_LIB).
  { clear Hobjs. revert Hlink. rewrite Hdeps. clear Hdeps.
    generalize (own_objects B, @nil string).
    induction before as [|b before IH]; intros acc; cbn [app link_dependencies].
    - unfold link_dependency. destruct acc as [o l]. rewrite Hdep.
      destruct (Target.type dep); try discriminate. reflexivity.
    - destruct (link_dependency G b acc); [apply IH | discriminate]. }
  split; [exact Hst|].
  rewrite Hobjs, Hdeps, flat_map_app. cbn [flat_map].
  unfold dep_objects at 2. rewrite Hdep, Hst. reflexivity.
Qed.

Lemma C7_static_lib_propagation_witness :
  commands (events (build_target ideal_spawn Examples.project Examples.app 0
                      (Examples.fresh_checkout ["main.c"]))) =
    [["gcc"; "-O2"; "main.o"; "util.a"; "-o"; "app"; "-lm"]].
Proof.
  destruct (C7_static_lib_propagation ideal_spawn Examples.project Examples.app
              0 (Examples.fresh_checkout ["main.c"]) ["main.o"; "util.a"] ["-lm"]
              eq_refl eq_refl) as [H _].
  exact H.
Defined.

(** C8. For a StaticLib target whose link step runs, the command is exactly
    [ar rcs <output> <objects...>]; the target's flags and the link flags
    gathered from its dependencies have no influence on it. *)
Theorem C8_static_lib_archive_command spawn G self indent fs objs links :
  Target.type self = TargetType.STATIC_LIB ->
  link_dependencies G (Target.deps self) (own_objects self, []) = Some (objs, links) ->
  commands (events (build_target spawn G self indent fs)) =
    [["ar"; "rcs"; get_out_path self] ++ objs]
  /\ objs = own_objects self ++ flat_map (dep_objects G) (Target.deps self)
  /\ forall flags' links' indent' fs',
       commands (events (build_target spawn G (with_flags self flags') indent' fs')) =
         [["ar"; "rcs"; get_out_path self] ++ objs]
       /\ link_args G (with_flags self flags') objs links' =
            ["ar"; "rcs"; get_out_path self] ++ objs.
Proof.
  intros Hty Hlink.
  rewrite (build_target_commands _ _ _ _ _ _ _ Hlink).
  rewrite link_args_shape, Hty. split; [reflexivity|].
  split; [apply link_dependencies_Some in Hlink as [-> _]; reflexivity|].
  intros flags' links' indent' fs'.
  assert (Hlink' : link_dependencies G (Target.deps (with_flags self flags'))
                     (own_objects (with_flags self flags'), []) = Some (objs, links))
    by exact Hlink.
  rewrite (build_target_commands _ _ _ _ _ _ _ Hlink').
  rewrite !link_args_shape. cbn [with_flags Target.type]. rewrite Hty.
  split; reflexivity.
Qed.

Lemma C8_static_lib_archive_command_witness :
  commands (events (build_target ideal_spawn Examples.project Examples.util 1
                      (Examples.fresh_checkout ["util.c"]))) =
    [["ar"; "rcs"; "util.a"; "util.o"]].
Proof.
  destruct (C8_static_lib_archive_command ideal_spawn Examples.project
              Examples.util 1 (Examples.fresh_checkout ["util.c"]) ["util.o"] []
              eq_refl eq_refl) as [H _].
  exact H.
Defined.

(** ** Clean *)

Section Clean.

Variable spawn : list string -> FS -> FS.
Variable G : Globals.

Lemma clean_dependencies_run (rec : Target.t -> M unit)
    (cmds : Target.t -> list (list string)) (names : list string) :
  (forall dep_name dep fs,
      In dep_name names -> _targets G !! dep_name = Some dep ->
      exists fs' tr, rec dep fs = Done tt fs' tr /\ commands tr = cmds dep) ->
  forall fs, exists fs' tr,
    clean_dependencies G rec names fs = Done tt fs' tr
    /\ commands tr =
         flat_map (fun dep_name =>
                     match _targets G !! dep_name with
                     | Some dep => cmds dep
                     | None => []
                     end) names.
Proof.
  induction names as [|n names IH]; intros Hrec fs.
  - exists fs, []. split; reflexivity.
  - cbn [clean_dependencies flat_map]. unfold bind.
    assert (Hhead : exists fs1 tr1,
               match _targets G !! n with
               | Some dep => rec dep
               | None => ret tt
               end fs = Done tt fs1 tr1
               /\ commands tr1 = match _targets G !! n with
                                 | Some dep => cmds dep
                                 | None => []
                                 end).
    { destruct (_targets G !! n) as [dep|] eqn:E.
      - apply (Hrec n dep fs); [left; reflexivity | exact E].
      - exists fs, []. split; reflexivity. }
    destruct Hhead as (fs1 & tr1 & -> & Htr1).
    destruct (IH (fun m dep fs0 Hin => Hrec m dep fs0 (or_intror Hin)) fs1)
      as (fs2 & tr2 & -> & Htr2).
    exists fs2, (tr1 ++ tr2). split; [reflexivity|].
    rewrite commands_app, Htr1, Htr2. reflexivity.
Qed.

Lemma clean_run fuel : forall self fs,
  depth_within G fuel self = true ->
  exists fs' tr,
    clean spawn G fuel self fs = Done tt fs' tr
    /\ commands tr = clean_commands G fuel self.
Proof.
  induction fuel as [|fuel IH]; intros self fs Hdepth; [discriminate|].
  cbn [clean clean_commands]. unfold bind at 1, print at 1. cbn [after].
  unfold bind at 1. rewrite _print_commands_run. cbn [after].
  unfold bind at 1, subprocess_run at 1. cbn [after].
  destruct (clean_dependencies_run (clean spawn G fuel) (clean_commands G fuel)
              (Target.deps self)) with (fs := spawn (rm_args self) fs)
    as (fs' & tr & Hrun & Htr).
  { intros dep_name dep fs0 Hin Hdep. apply IH.
    cbn [depth_within] in Hdepth. rewrite forallb_forall in Hdepth.
    specialize (Hdepth dep_name Hin). rewrite Hdep in Hdepth. exact Hdepth. }
  rewrite Hrun. cbn [after]. eexists _, _. split; [reflexivity|].
  rewrite !commands_app, commands_echo, Htr. reflexivity.
Qed.

Lemma clean_commands_owned fuel : forall self c,
  In c (clean_commands G fuel self) ->
  exists d, (d = self \/ exists k, _targets G !! k = Some d) /\ c = rm_args d.
Proof.
  induction fuel as [|fuel IH]; intros self c; cbn [clean_commands];
    [intros []|].
  intros [<- | Hin].
  - exists self. auto.
  - apply in_flat_map in Hin as (dep_name & _ & Hin).
    destruct (_targets G !! dep_name) as [dep|] eqn:E; [|contradiction].
    destruct (IH dep c Hin) as (d & [-> | Hd] & ->); eauto 6.
Qed.

Lemma clean_external_irrelevant exts fuel : forall self fs,
  clean spawn (with_external_dependencies G exts) fuel self fs
  = clean spawn G fuel self fs.
Proof.
  induction fuel as [|fuel IH]; intros self fs; [reflexivity|].
  cbn [clean]. apply bind_ext. intros _ fs1. apply bind_ext. intros _ fs2.
  apply bind_ext. intros _ fs3. clear fs fs1 fs2. revert fs3.
  induction (Target.deps self) as [|n names IHn]; intros fs; [reflexivity|].
  cbn [clean_dependencies with_external_dependencies _targets].
  unfold bind. destruct (_targets G !! n) as [dep|].
  - rewrite IH. destruct (clean spawn G fuel dep fs); try reflexivity;
      rewrite IHn; reflexivity.
  - destruct (ret tt fs); try reflexivity; rewrite IHn; reflexivity.
Qed.

End Clean.

(** C9. Cleaning a target whose dependency graph is at most [fuel] deep
    returns, having issued first the one command
    [rm -f <output> <object of each source>] of the target and then, for
    each dependency name in order that is a registered target, the commands
    of cleaning it; every removal command is the one of some target, and the
    registry of external dependencies has no influence on the run. *)
Theorem C9_clean spawn G fuel self fs :
  depth_within G fuel self = true ->
  exists fs' tr,
    clean spawn G fuel self fs = Done tt fs' tr
    /\ commands tr = clean_commands G fuel self
    /\ commands tr =
         (["rm"; "-f"; get_out_path self]
            ++ map (fun s => _change_extension s _object_ext) (Target.sources self))
         :: flat_map (fun dep_name =>
                        match _targets G !! dep_name with
                        | Some dep => clean_commands G (pred fuel) dep
                        | None => []
                        end) (Target.deps self)
    /\ (forall c, In c (commands tr) ->
          exists d, (d = self \/ exists k, _targets G !! k = Some d)
                    /\ c = ["rm"; "-f"; get_out_path d]
                             ++ map (fun s => _change_extension s _object_ext)
                                  (Target.sources d))
    /\ (forall exts,
          clean spawn (with_external_dependencies G exts) fuel self fs
          = Done tt fs' tr).
Proof.
  intros Hdepth.
  destruct (clean_run spawn G fuel self fs Hdepth) as (fs' & tr & Hrun & Htr).
  exists fs', tr. split; [exact Hrun|]. split; [exact Htr|]. split.
  - rewrite Htr. destruct fuel; [discriminate|]. reflexivity.
  - split.
    + intros c Hc. rewrite Htr in Hc. apply (clean_commands_owned G fuel self c Hc).
    + intros exts. rewrite clean_external_irrelevant. exact Hrun.
Qed.

Lemma C9_clean_witness :
  exists fs' tr,
    clean ideal_spawn Examples.project 2 Examples.app
      (Examples.fresh_checkout ["main.c"; "util.c"; "main.o"; "app"]) = Done tt fs' tr
    /\ commands tr = [["rm"; "-f"; "app"; "main.o"]; ["rm"; "-f"; "util.a"; "util.o"]].
Proof.
  destruct (C9_clean ideal_spawn Examples.project 2 Examples.app
              (Examples.fresh_checkout ["main.c"; "util.c"; "main.o"; "app"])
              eq_refl) as (fs' & tr & H1 & H2 & _).
  exists fs', tr. split; [exact H1 | exact H2].
Defined.

(** ** Commands are the only way a run changes the file system *)

Create HintDb traced.

Section Traced.

Variable spawn : list string -> FS -> FS.
Variable G : Globals.

Lemma replay_app tr1 tr2 fs :
  replay spawn (tr1 ++ tr2) fs = replay spawn tr2 (replay spawn tr1 fs).
Proof. unfold replay. rewrite commands_app, fold_left_app. reflexivity. Qed.

Lemma replay_quiet tr fs : commands tr = [] -> replay spawn tr fs = fs.
Proof. unfold replay. intros ->. reflexivity. Qed.

Lemma traced_ret {A} (a : A) : traced spawn (ret a).
Proof. intros fs. reflexivity. Qed.

Lemma traced_error {A} : traced spawn (@_error A).
Proof. intros fs. reflexivity. Qed.

Lemma traced_out_of_fuel {A} : traced spawn (@out_of_fuel A).
Proof. intros fs. reflexivity. Qed.

Lemma traced_print line : traced spawn (print line).
Proof. intros fs. reflexivity. Qed.

Lemma traced_subprocess_run args : traced spawn (subprocess_run spawn args).
Proof. intros fs. reflexivity. Qed.

Lemma traced_os_path_exists path : traced spawn (os_path_exists path).
Proof. intros fs. reflexivity. Qed.

Lemma traced__get_opt_mod_time path : traced spawn (_get_opt_mod_time path).
Proof. intros fs. reflexivity. Qed.

Lemma traced__print_commands indent args :
  traced spawn (_print_commands G indent args).
Proof. intros fs. rewrite _print_commands_run. unfold replay. rewrite commands_echo. reflexivity. Qed.

Lemma traced_bind {A B} (m : M A) (k : A -> M B) :
  traced spawn m -> (forall a, traced spawn (k a)) -> traced spawn (bind m k).
Proof.
  intros Hm Hk fs. unfold bind. specialize (Hm fs).
  destruct (m fs) as [a fs1 tr1| |]; [|exact Hm|exact Hm].
  specialize (Hk a fs1). destruct (k a fs1) as [b fs2 tr2| |]; cbn [after];
    rewrite replay_app, <- Hm; exact Hk.
Qed.

#[local] Hint Resolve traced_ret traced_error traced_out_of_fuel traced_print
  traced_subprocess_run traced_os_path_exists traced__get_opt_mod_time
  traced__print_commands : traced.

Ltac traced_steps :=
  repeat (first [ apply traced_bind; [|intros ?] | solve [auto with traced] ]).

Lemma traced_update_object_file self force T indent source rebuild :
  traced spawn (update_object_file spawn G self force T indent source rebuild).
Proof.
  unfold update_object_file. traced_steps.
  - destruct (negb _); auto with traced.
  - destruct (_ || _ || _); traced_steps.
Qed.

Lemma traced_update_object_files self force T indent srcs : forall rebuild,
  traced spawn (update_object_files spawn G self force T indent srcs rebuild).
Proof.
  induction srcs as [|s srcs IH]; intros rebuild; cbn [update_object_files].
  - apply traced_ret.
  - apply traced_bind; [apply traced_update_object_file | intros r; apply IH].
Qed.

Lemma traced_build_target self indent :
  traced spawn (build_target spawn G self indent).
Proof.
  unfold build_target. apply traced_bind; [apply traced_print | intros _].
  destruct (link_dependencies G (Target.deps self) (own_objects self, []))
    as [[objs links]|]; traced_steps.
Qed.

Lemma traced_finish self force indent rebuild :
  traced spawn (finish spawn G self force indent rebuild).
Proof.
  unfold finish. apply traced_bind; [|intros _; apply traced_ret].
  destruct (rebuild || force); [apply traced_build_target | apply traced_print].
Qed.

Lemma traced_update_dependencies rec force T indent names :
  (forall dep force T indent, traced spawn (rec dep force T indent)) ->
  forall rebuild,
    traced spawn (update_dependencies G rec force T indent names rebuild).
Proof.
  intros Hrec. induction names as [|n names IH]; intros rebuild;
    cbn [update_dependencies].
  - apply traced_ret.
  - apply traced_bind; [|intros r; apply IH].
    destruct (_targets G !! n) as [dep|].
    + traced_steps; apply Hrec.
    + destruct (_external_dependencies G !! n); auto with traced.
Qed.

Lemma traced__opt_build fuel : forall self force timestamp indent,
  traced spawn (_opt_build spawn G fuel self force timestamp indent).
Proof.
  induction fuel as [|fuel IH]; intros self force timestamp indent;
    cbn [_opt_build].
  - apply traced_out_of_fuel.
  - apply traced_bind; [apply traced__get_opt_mod_time | intros T].
    apply traced_bind; [apply traced_update_dependencies; exact IH | intros r1].
    apply traced_bind; [apply traced_update_object_files | intros r2].
    apply traced_finish.
Qed.

Lemma _opt_build_replay fuel self force timestamp indent fs r fs' tr :
  _opt_build spawn G fuel self force timestamp indent fs = Done r fs' tr ->
  fs' = replay spawn tr fs.
Proof.
  intros H. pose proof (traced__opt_build fuel self force timestamp indent fs) as Ht.
  rewrite H in Ht. exact Ht.
Qed.

End Traced.

(** ** The walk *)

Section Walk.

Variable spawn : list string -> FS -> FS.
Variable G : Globals.

Lemma _opt_build_unfold fuel self force timestamp indent fs :
  _opt_build spawn G (S fuel) self force timestamp indent fs =
  (rebuild <- update_dependencies G (_opt_build spawn G fuel) force
                (opt_mod_time fs (get_out_path self)) indent (Target.deps self)
                (opt_mod_time fs (get_out_path self) <? 0) ;;
   rebuild <- update_object_files spawn G self force
                (opt_mod_time fs (get_out_path self)) indent
                (Target.sources self) rebuild ;;
   finish spawn G self force indent rebuild) fs.
Proof.
  cbn [_opt_build]. unfold bind at 1. unfold _get_opt_mod_time.
  rewrite after_nil. reflexivity.
Qed.

(** The parameter [timestamp] is never read. *)
Lemma _opt_build_timestamp fuel self force timestamp timestamp' indent fs :
  _opt_build spawn G fuel self force timestamp indent fs
  = _opt_build spawn G fuel self force timestamp' indent fs.
Proof. destruct fuel; reflexivity. Qed.

Lemma update_dependencies_target rec force T indent dep_name dep rest rebuild fs :
  _targets G !! dep_name = Some dep ->
  update_dependencies G rec force T indent (dep_name :: rest) rebuild fs =
  (print (_output_str ("Checking dependency " +:+ dep_name +:+ "...")
            indent Color.reset) ;;;
   dep_rebuild <- rec dep force T (S indent) ;;
   update_dependencies G rec force T indent rest (rebuild || dep_rebuild)) fs.
Proof.
  intros Hdep. cbn [update_dependencies]. rewrite Hdep.
  rewrite bind_assoc. apply bind_ext. intros _ fs1.
  rewrite bind_assoc. apply bind_ext. intros r fs2.
  unfold bind at 1, ret. rewrite after_nil. reflexivity.
Qed.

Lemma update_dependencies_external rec force T indent dep_name dep rest rebuild fs :
  _targets G !! dep_name = None ->
  _external_dependencies G !! dep_name = Some dep ->
  update_dependencies G rec force T indent (dep_name :: rest) rebuild fs =
  update_dependencies G rec force T indent rest rebuild fs.
Proof.
  intros Hdep Hext. cbn [update_dependencies]. rewrite Hdep, Hext.
  unfold bind at 1, ret. rewrite after_nil. reflexivity.
Qed.

Lemma update_dependencies_unknown rec force T indent dep_name rest rebuild fs :
  _targets G !! dep_name = None ->
  _external_dependencies G !! dep_name = None ->
  update_dependencies G rec force T indent (dep_name :: rest) rebuild fs =
  Fatal fs [].
Proof.
  intros Hdep Hext. cbn [update_dependencies]. rewrite Hdep, Hext. reflexivity.
Qed.

(** The flag after the loop over the dependencies: the flag before it, or
    some dependency returned [true]. *)
Lemma update_dependencies_flag rec force T indent names :
  forall rebuild fs r fs' tr,
    update_dependencies G rec force T indent names rebuild fs = Done r fs' tr ->
    (r = true <->
     rebuild = true
     \/ dep_rebuilt G (fun dep => rec dep force T (S indent)) names fs).
Proof.
  induction names as [|n names IH]; intros rebuild fs r fs' tr Hrun.
  - cbn in Hrun. injection Hrun as <- _ _. split; [auto|].
    intros [H|H]; [exact H | inversion H].
  - destruct (_targets G !! n) as [dep|] eqn:Hdep.
    + rewrite (update_dependencies_target _ _ _ _ _ _ _ _ _ Hdep) in Hrun.
      apply bind_Done in Hrun as ([] & fs0 & tr0 & tr1 & Hp & Hrun & ->).
      injection Hp as <- _.
      apply bind_Done in Hrun as (r1 & fs1 & tr1' & tr2 & Hrec & Hrun & ->).
      apply IH in Hrun. rewrite Hrun, orb_true_iff. split.
      * intros [[H|H]|H]; [auto | subst r1; right; eapply dep_rebuilt_here; eauto
                          | right; eapply dep_rebuilt_after_target; eauto].
      * intros [H|H]; [auto|].
        inversion H as [? ? dep' ? fs2 tr3 Hd Hr | ? ? dep' ? r3 fs3 tr3 Hd Hr Hrest
                       | ? ? ? Hd Hrest]; subst.
        -- rewrite Hdep in Hd. injection Hd as <-. rewrite Hrec in Hr.
           injection Hr as -> _ _. auto.
        -- rewrite Hdep in Hd. injection Hd as <-. rewrite Hrec in Hr.
           injection Hr as -> -> _. auto.
        -- congruence.
    + destruct (_external_dependencies G !! n) as [ext|] eqn:Hext.
      * rewrite (update_dependencies_external _ _ _ _ _ _ _ _ _ Hdep Hext) in Hrun.
        apply IH in Hrun. rewrite Hrun. split.
        -- intros [H|H]; [auto | right; apply dep_rebuilt_after_other; assumption].
        -- intros [H|H]; [auto|]. inversion H; subst; try congruence. auto.
      * rewrite (update_dependencies_unknown _ _ _ _ _ _ _ _ Hdep Hext) in Hrun.
        discriminate.
Qed.

Lemma update_object_files_cons self force T indent source rest rebuild fs :
  update_object_files spawn G self force T indent (source :: rest) rebuild fs =
  (rebuild' <- update_object_file spawn G self force T indent source rebuild ;;
   update_object_files spawn G self force T indent rest rebuild') fs.
Proof. reflexivity. Qed.

(** The loop over the sources issues compile commands of its own sources
    only, and its flag is the flag before it or "something was compiled". *)
Lemma update_object_files_flag self force T indent srcs :
  forall rebuild fs r fs' tr,
    update_object_files spawn G self force T indent srcs rebuild fs = Done r fs' tr ->
    (forall c, In c (commands tr) -> exists s, In s srcs /\ c = compile_args G self s)
    /\ (r = true <-> rebuild = true \/ commands tr <> []).
Proof.
  induction srcs as [|s srcs IH]; intros rebuild fs r fs' tr Hrun.
  - cbn in Hrun. injection Hrun as <- _ <-. split; [intros c []|].
    split; [auto | intros [H|H]; [exact H | contradiction]].
  - rewrite update_object_files_cons in Hrun.
    apply bind_Done in Hrun as (r1 & fs1 & tr1 & tr2 & Hone & Hrun & ->).
    apply IH in Hrun as [Hcmds Hflag].
    rewrite update_object_file_run in Hone.
    destruct (negb (path_exists fs s)); [discriminate|].
    destruct (_cmp_timestamp (opt_mod_time fs s) T
              || negb (path_exists fs (_change_extension s _object_ext)) || force).
    + injection Hone as <- <- <-. split.
      * intros c. rewrite commands_app. cbn [commands].
        rewrite commands_app, commands_echo. cbn [commands app].
        intros [<- | Hc]; [exists s; split; [left|]; reflexivity|].
        destruct (Hcmds c Hc) as (s' & Hs' & ->). exists s'. split; [right|]; auto.
      * rewrite Hflag. split; [intros _; right | auto].
        rewrite commands_app. cbn [commands].
        rewrite commands_app, commands_echo. discriminate.
    + injection Hone as <- <- <-. cbn [app commands]. split.
      * intros c Hc. destruct (Hcmds c Hc) as (s' & Hs' & ->).
        exists s'. split; [right|]; auto.
      * exact Hflag.
Qed.

Lemma update_object_files_recompiled self force T indent srcs rebuild fs r fs' tr :
  update_object_files spawn G self force T indent srcs rebuild fs = Done r fs' tr ->
  (r = true <-> rebuild = true \/ source_recompiled G self srcs tr).
Proof.
  intros Hrun. apply update_object_files_flag in Hrun as [Hcmds Hflag].
  rewrite Hflag. unfold source_recompiled. split; (intros [H|H]; [auto|right]).
  - destruct (commands tr) as [|c cs] eqn:E; [contradiction|].
    destruct (Hcmds c (or_introl eq_refl)) as (s & Hs & ->).
    exists s. split; [exact Hs|]. apply in_commands. rewrite E. left. reflexivity.
  - destruct H as (s & _ & Hin). apply in_commands in Hin.
    intros E. rewrite E in Hin. exact Hin.
Qed.

Lemma finish_run self force indent rebuild fs :
  finish spawn G self force indent rebuild fs =
  if rebuild || force
  then (build_target spawn G self indent ;;; ret rebuild) fs
  else Done rebuild fs [up_to_date_line self indent].
Proof.
  unfold finish. destruct (rebuild || force); reflexivity.
Qed.

End Walk.

(** ** The rebuild flag *)

Section Flag.

Variable spawn : list string -> FS -> FS.
Variable G : Globals.

(** Without [force], a build that returns [false] has issued no command. *)
Lemma _opt_build_quiet fuel : forall self timestamp indent fs fs' tr,
  _opt_build spawn G fuel self false timestamp indent fs = Done false fs' tr ->
  commands tr = [].
Proof.
  induction fuel as [|fuel IH]; intros self timestamp indent fs fs' tr Hrun;
    [discriminate|].
  rewrite _opt_build_unfold in Hrun.
  apply bind_Done in Hrun as (r1 & fs1 & tr1 & tr' & Hdeps & Hrun & ->).
  apply bind_Done in Hrun as (r2 & fs2 & tr2 & tr3 & Hsrcs & Hfin & ->).
  rewrite finish_run in Hfin.
  assert (Hr2 : r2 = false).
  { destruct r2; [|reflexivity]. cbn [orb] in Hfin.
    apply bind_Done in Hfin as (? & ? & ? & ? & _ & Hret & _). discriminate. }
  subst r2. cbn [orb] in Hfin. injection Hfin as _ <-.
  pose proof (update_object_files_flag _ _ _ _ _ _ _ _ _ _ _ _ Hsrcs) as [_ Hflag].
  assert (Hr1 : r1 = false) by (destruct r1; [destruct Hflag as [_ Hf]; symmetry; auto | reflexivity]).
  assert (Htr2 : commands tr2 = []).
  { destruct (commands tr2); [reflexivity|].
    destruct Hflag as [_ Hf]. discriminate Hf. right. discriminate. }
  subst r1. rewrite !commands_app, Htr2. cbn [commands app]. rewrite app_nil_r.
  clear Hsrcs Hflag Htr2 tr2 fs2.
  revert Hdeps. generalize (opt_mod_time fs (get_out_path self) <? 0).
  generalize (opt_mod_time fs (get_out_path self)). intros T.
  revert fs tr1. induction (Target.deps self) as [|n names IHn];
    intros fs tr1 rebuild Hdeps.
  - cbn in Hdeps. injection Hdeps as _ _ <-. reflexivity.
  - destruct (_targets G !! n) as [dep|] eqn:Hdep.
    + rewrite (update_dependencies_target _ _ _ _ _ _ _ _ _ _ Hdep) in Hdeps.
      apply bind_Done in Hdeps as ([] & fs0 & tr0 & tr' & Hp & Hdeps & ->).
      injection Hp as <- <-.
      apply bind_Done in Hdeps as (r & fs2 & tr2 & tr3 & Hrec & Hdeps & ->).
      pose proof (update_dependencies_flag _ _ _ _ _ _ _ _ _ _ _ Hdeps) as [_ Hf].
      assert (Hr : r = false).
      { destruct r; [|reflexivity]. symmetry. apply Hf. left.
        apply orb_true_r. }
      subst r. cbn [app commands]. rewrite commands_app.
      rewrite (IH _ _ _ _ _ _ Hrec), (IHn _ _ _ Hdeps). reflexivity.
    + destruct (_external_dependencies G !! n) as [ext|] eqn:Hext.
      * rewrite (update_dependencies_external _ _ _ _ _ _ _ _ _ _ Hdep Hext) in Hdeps.
        apply (IHn _ _ _ Hdeps).
      * rewrite (update_dependencies_unknown _ _ _ _ _ _ _ _ _ Hdep Hext) in Hdeps.
        discriminate.
Qed.

(** The flag a build returns. *)
Lemma _opt_build_flag fuel self force timestamp indent fs r fs' tr :
  _opt_build spawn G (S fuel) self force timestamp indent fs = Done r fs' tr ->
  exists r1 fs1 tr1 fs2 tr2 tr3,
    update_dependencies G (_opt_build spawn G fuel) force
      (opt_mod_time fs (get_out_path self)) indent (Target.deps self)
      (opt_mod_time fs (get_out_path self) <? 0) fs = Done r1 fs1 tr1
    /\ update_object_files spawn G self force
         (opt_mod_time fs (get_out_path self)) indent (Target.sources self)
         r1 fs1 = Done r fs2 tr2
    /\ tr = tr1 ++ tr2 ++ tr3
    /\ (r = true <->
         opt_mod_time fs (get_out_path self) < 0
         \/ dep_rebuilt G
              (fun dep => _opt_build spawn G fuel dep force
                            (opt_mod_time fs (get_out_path self)) (S indent))
              (Target.deps self) fs
         \/ source_recompiled G self (Target.sources self) tr2).
Proof.
  intros Hrun. rewrite _opt_build_unfold in Hrun.
  apply bind_Done in Hrun as (r1 & fs1 & tr1 & tr' & Hdeps & Hrun & ->).
  apply bind_Done in Hrun as (r2 & fs2 & tr2 & tr3 & Hsrcs & Hfin & ->).
  assert (r = r2).
  { unfold finish in Hfin.
    apply bind_Done in Hfin as (? & ? & ? & ? & _ & Hret & _).
    injection Hret as <- _ _. reflexivity. }
  subst r2. exists r1, fs1, tr1, fs2, tr2, tr3.
  split; [exact Hdeps|]. split; [exact Hsrcs|]. split; [reflexivity|].
  rewrite (update_object_files_recompiled _ _ _ _ _ _ _ _ _ _ _ _ Hsrcs).
  rewrite (update_dependencies_flag _ _ _ _ _ _ _ _ _ _ _ Hdeps).
  rewrite Z.ltb_lt. tauto.
Qed.

End Flag.

(** C6. Once the loops over the dependencies and over the sources of a
    target have completed, the archive/link step runs exactly when some
    dependency returned that it rebuilt, some source was recompiled, the
    output of the target is missing, or [force] is set.  When it runs, the
    command is issued unless a dependency cannot be linked against, which is
    fatal; when it does not run, the target is reported up to date and the
    whole build has issued no command. *)
Theorem C6_rebuild_decision spawn G fuel self force timestamp indent fs
    r1 fs1 tr1 r2 fs2 tr2 :
  (forall t, files fs !! get_out_path self = Some t -> 0 <= t) ->
  update_dependencies G (_opt_build spawn G fuel) force
    (opt_mod_time fs (get_out_path self)) indent (Target.deps self)
    (opt_mod_time fs (get_out_path self) <? 0) fs = Done r1 fs1 tr1 ->
  update_object_files spawn G self force
    (opt_mod_time fs (get_out_path self)) indent (Target.sources self)
    r1 fs1 = Done r2 fs2 tr2 ->
  let decision :=
    dep_rebuilt G
      (fun dep => _opt_build spawn G fuel dep force
                    (opt_mod_time fs (get_out_path self)) (S indent))
      (Target.deps self) fs
    \/ source_recompiled G self (Target.sources self) tr2
    \/ files fs !! get_out_path self = None
    \/ force = true in
  (decision ->
   _opt_build spawn G (S fuel) self force timestamp indent fs
     = after (tr1 ++ tr2) ((build_target spawn G self indent ;;; ret r2) fs2)
   /\ (link_dependencies G (Target.deps self) (own_objects self, []) = None ->
       _opt_build spawn G (S fuel) self force timestamp indent fs
         = Fatal fs2 (tr1 ++ tr2 ++ [building_line self indent]))
   /\ (forall objs links,
         link_dependencies G (Target.deps self) (own_objects self, [])
           = Some (objs, links) ->
         _opt_build spawn G (S fuel) self force timestamp indent fs
           = Done r2 (spawn (link_args G self objs links) fs2)
               (tr1 ++ tr2 ++ building_line self indent
                  :: echo G indent (link_args G self objs links)
                  ++ [Run (link_args G self objs links); completed_line indent])))
  /\ (~ decision ->
      _opt_build spawn G (S fuel) self force timestamp indent fs
        = Done false fs (tr1 ++ tr2 ++ [up_to_date_line self indent])
      /\ commands (tr1 ++ tr2 ++ [up_to_date_line self indent]) = []).
Proof.
  intros Hpos Hdeps Hsrcs decision.
  assert (Hrun : _opt_build spawn G (S fuel) self force timestamp indent fs
                 = after (tr1 ++ tr2) (finish spawn G self force indent r2 fs2)).
  { rewrite _opt_build_unfold. unfold bind at 1. rewrite Hdeps.
    unfold bind at 1. rewrite Hsrcs. apply after_after. }
  assert (Hdec : r2 || force = true <-> decision).
  { unfold decision. rewrite orb_true_iff.
    rewrite (update_object_files_recompiled _ _ _ _ _ _ _ _ _ _ _ _ Hsrcs).
    rewrite (update_dependencies_flag _ _ _ _ _ _ _ _ _ _ _ Hdeps).
    rewrite Z.ltb_lt.
    assert (Hmiss : opt_mod_time fs (get_out_path self) < 0
                    <-> files fs !! get_out_path self = None).
    { destruct (files fs !! get_out_path self) as [t|] eqn:E.
      - rewrite (opt_mod_time_Some _ _ _ E). specialize (Hpos t eq_refl).
        split; [lia | discriminate].
      - rewrite (opt_mod_time_None _ _ E). split; [reflexivity | lia]. }
    rewrite Hmiss. tauto. }
  rewrite finish_run in Hrun. split.
  - intros Hyes. apply Hdec in Hyes. rewrite Hyes in Hrun.
    split; [exact Hrun|]. split.
    + intros Hlink. rewrite Hrun. unfold bind. rewrite build_target_run, Hlink.
      cbn [after]. rewrite <- app_assoc. reflexivity.
    + intros objs links Hlink. rewrite Hrun. unfold bind.
      rewrite build_target_run, Hlink. cbn [after ret].
      rewrite app_nil_r, <- app_assoc. reflexivity.
  - intros Hno. assert (Hoff : r2 || force = false).
    { destruct (r2 || force); [exfalso; apply Hno, Hdec; reflexivity | reflexivity]. }
    rewrite Hoff in Hrun. cbn [after] in Hrun.
    apply orb_false_iff in Hoff as [-> ->].
    rewrite <- app_assoc in Hrun.
    pose proof (_opt_build_quiet _ _ _ _ _ _ _ _ _ Hrun) as Hquiet.
    pose proof (_opt_build_replay _ _ _ _ _ _ _ _ _ _ _ Hrun) as Hfs.
    rewrite (replay_quiet _ _ _ Hquiet) in Hfs. subst fs2.
    split; [exact Hrun | exact Hquiet].
Qed.

Lemma C6_rebuild_decision_witness :
  commands (events (_opt_build ideal_spawn Examples.project 2 Examples.app false
                      0 0 (Examples.fresh_checkout ["main.c"; "util.c"]))) =
    [["gcc"; "-c"; "util.c"; "-o"; "util.o"];
     ["ar"; "rcs"; "util.a"; "util.o"];
     ["gcc"; "-c"; "main.c"; "-O2"; "-Iinc"; "-o"; "main.o"];
     ["gcc"; "-O2"; "main.o"; "util.a"; "-o"; "app"; "-lm"]].
Proof.
  edestruct (C6_rebuild_decision ideal_spawn Examples.project 1 Examples.app
               false 0 0%nat (Examples.fresh_checkout ["main.c"; "util.c"]))
    as [Hyes _].
  - intros t H. vm_compute in H. discriminate H.
  - reflexivity.
  - reflexivity.
  - destruct Hyes as (_ & _ & Hyes).
    + right. right. left. reflexivity.
    + rewrite (Hyes _ _ eq_refl). reflexivity.
Defined.

(** C10. A target with no sources whose output exists and whose loop over
    the dependencies, run with [force], returns [false], is relinked by the
    forced build, and that build returns [false]; a parent that visits the
    target as a dependency keeps its own flag unchanged.  In general a
    returned [true] comes from a missing output, a dependency that returned
    [true], or a recompiled source. *)
Theorem C10_forced_relink_returns_false spawn G fuel self timestamp indent fs
    t_out fs1 tr1 objs links :
  Target.sources self = [] ->
  files fs !! get_out_path self = Some t_out ->
  0 <= t_out ->
  update_dependencies G (_opt_build spawn G fuel) true t_out indent
    (Target.deps self) false fs = Done false fs1 tr1 ->
  link_dependencies G (Target.deps self) (own_objects self, []) = Some (objs, links) ->
  _opt_build spawn G (S fuel) self true timestamp indent fs
    = Done false (spawn (link_args G self objs links) fs1)
        (tr1 ++ building_line self indent
           :: echo G indent (link_args G self objs links)
           ++ [Run (link_args G self objs links); completed_line indent])
  /\ (forall dep_name parent_rebuild T indent0,
        _targets G !! dep_name = Some self ->
        indent = S indent0 ->
        update_dependencies G (_opt_build spawn G (S fuel)) true T indent0
          [dep_name] parent_rebuild fs
        = Done parent_rebuild (spawn (link_args G self objs links) fs1)
            (checking_line dep_name indent0
               :: tr1 ++ building_line self indent
               :: echo G indent (link_args G self objs links)
               ++ [Run (link_args G self objs links); completed_line indent]))
  /\ (forall force' timestamp' indent' fs0 fs' tr,
        _opt_build spawn G (S fuel) self force' timestamp' indent' fs0
          = Done true fs' tr ->
        files fs0 !! get_out_path self = None
        \/ (exists t, files fs0 !! get_out_path self = Some t /\ t < 0)
        \/ dep_rebuilt G
             (fun dep => _opt_build spawn G fuel dep force'
                           (opt_mod_time fs0 (get_out_path self)) (S indent'))
             (Target.deps self) fs0
        \/ exists s, In s (Target.sources self)
                     /\ In (Run (compile_args G self s)) tr).
Proof.
  intros Hsrc Hout Hpos Hdeps Hlink.
  assert (Hrun : _opt_build spawn G (S fuel) self true timestamp indent fs
    = Done false (spawn (link_args G self objs links) fs1)
        (tr1 ++ building_line self indent
           :: echo G indent (link_args G self objs links)
           ++ [Run (link_args G self objs links); completed_line indent])).
  { rewrite _opt_build_unfold, (opt_mod_time_Some _ _ _ Hout).
    assert (Hlt : (t_out <? 0) = false) by (apply Z.ltb_ge; exact Hpos).
    rewrite Hlt. unfold bind at 1. rewrite Hdeps, Hsrc.
    cbn [update_object_files]. unfold bind at 1, ret at 1. cbn [after app].
    rewrite finish_run. cbn [orb]. unfold bind.
    rewrite build_target_run, Hlink. cbn [after ret].
    rewrite app_nil_r. reflexivity. }
  split; [exact Hrun|]. split.
  - intros dep_name parent_rebuild T indent0 Hself ->.
    rewrite (update_dependencies_target _ _ _ _ _ _ _ _ _ _ Hself).
    unfold bind at 1, print at 1. cbn [after]. unfold bind at 1.
    rewrite (_opt_build_timestamp _ _ _ _ _ T timestamp), Hrun.
    cbn [update_dependencies after ret app]. rewrite orb_false_r, app_nil_r.
    reflexivity.
  - intros force' timestamp' indent' fs0 fs' tr Hrun'.
    apply _opt_build_flag in Hrun'
      as (r1 & fs1' & tr1' & fs2 & tr2 & tr3 & _ & _ & -> & Hflag).
    destruct Hflag as [Hflag _]. destruct (Hflag eq_refl) as [H|[H|H]].
    + destruct (files fs0 !! get_out_path self) as [t|] eqn:E; [|left; reflexivity].
      right. left. exists t. rewrite (opt_mod_time_Some _ _ _ E) in H. auto.
    + right. right. left. exact H.
    + right. right. right. destruct H as (s & Hs & Hin). exists s.
      split; [exact Hs|]. apply in_or_app. right. apply in_or_app. left. exact Hin.
Qed.

Lemma C10_forced_relink_returns_false_witness :
  _opt_build ideal_spawn Examples.bundle_project 1 Examples.bundle true 0 0
    Examples.bundle_built
  = Done false (touch "bundle.a" Examples.bundle_built)
      [building_line Examples.bundle 0;
       Run ["ar"; "rcs"; "bundle.a"]; completed_line 0].
Proof.
  destruct (C10_forced_relink_returns_false ideal_spawn Examples.bundle_project
              0 Examples.bundle 0 0 Examples.bundle_built 7
              Examples.bundle_built [] [] ["-lm"] eq_refl eq_refl
              ltac:(lia) eq_refl eq_refl) as [H _].
  exact H.
Defined.

(** C2. A dependency name that resolves to a registered target has that
    target built with the same [force] flag and with the timestamp of the
    parent's output as argument, and the flag it returns is or-ed into the
    parent's flag.  The timestamp passed down is not read: the build of the
    dependency is the same for every value of it, and each source of the
    dependency is compiled exactly when it is stale relative to the
    dependency's OWN output timestamp, its object is missing, or [force] is
    set. *)
Theorem C2_dependency_build spawn G fuel force T indent dep_name dep rest
    rebuild fs :
  _targets G !! dep_name = Some dep ->
  update_dependencies G (_opt_build spawn G fuel) force T indent
    (dep_name :: rest) rebuild fs
  = (print (_output_str ("Checking dependency " +:+ dep_name +:+ "...")
              indent Color.reset) ;;;
     dep_rebuild <- _opt_build spawn G fuel dep force T (S indent) ;;
     update_dependencies G (_opt_build spawn G fuel) force T indent rest
       (rebuild || dep_rebuild)) fs
  /\ (forall r fs' tr,
        update_dependencies G (_opt_build spawn G fuel) force T indent
          (dep_name :: rest) rebuild fs = Done r fs' tr ->
        (r = true <->
         rebuild = true
         \/ dep_rebuilt G
              (fun d => _opt_build spawn G fuel d force T (S indent))
              (dep_name :: rest) fs))
  /\ (forall T' fs0,
        _opt_build spawn G fuel dep force T' (S indent) fs0
        = _opt_build spawn G fuel dep force T (S indent) fs0)
  /\ (forall n T' indent' fs0,
        _opt_build spawn G (S n) dep force T' indent' fs0
        = (r <- update_dependencies G (_opt_build spawn G n) force
                  (opt_mod_time fs0 (get_out_path dep)) indent'
                  (Target.deps dep)
                  (opt_mod_time fs0 (get_out_path dep) <? 0) ;;
           r <- update_object_files spawn G dep force
                  (opt_mod_time fs0 (get_out_path dep)) indent'
                  (Target.sources dep) r ;;
           finish spawn G dep force indent' r) fs0)
  /\ (forall reference indent' source r fs0,
        path_exists fs0 source = true ->
        commands (events (update_object_file spawn G dep force reference
                            indent' source r fs0))
        = if _cmp_timestamp (opt_mod_time fs0 source) reference
             || negb (path_exists fs0 (_change_extension source _object_ext))
             || force
          then [compile_args G dep source] else []).
Proof.
  intros Hdep. split; [apply update_dependencies_target; exact Hdep|].
  split; [intros r fs' tr; apply update_dependencies_flag|].
  split; [intros T' fs0; apply _opt_build_timestamp|].
  split; [intros n T' indent' fs0; apply _opt_build_unfold|].
  intros reference indent' source r fs0 Hex.
  rewrite update_object_file_run, Hex. cbn [negb].
  destruct (_cmp_timestamp (opt_mod_time fs0 source) reference
            || negb (path_exists fs0 (_change_extension source _object_ext))
            || force); [|reflexivity].
  cbn [events]. change (compiling_line source indent' :: ?l)
    with ([compiling_line source indent'] ++ l).
  rewrite !commands_app, commands_echo. reflexivity.
Qed.

Lemma C2_dependency_build_witness :
  update_dependencies Examples.front_project
    (_opt_build ideal_spawn Examples.front_project 1) false (-1) 0
    ["util"] true Examples.util_built
  = Done true Examples.util_built
      [checking_line "util" 0;
       source_up_to_date_line "util.c" 1;
       up_to_date_line Examples.util 1].
Proof.
  destruct (C2_dependency_build ideal_spawn Examples.front_project 1 false (-1)
              0 "util" Examples.util [] true Examples.util_built eq_refl)
    as (Hstep & _).
  rewrite Hstep. reflexivity.
Defined.

(** C2, as stated, fails: [util.c] is newer than the timestamp the parent
    passes down (the parent's output is missing), its object exists and
    [force] is off; the claim has it recompiled, the build leaves it alone
    because it is older than [util.a]. *)
Lemma C2_counterexample :
  _targets Examples.front_project !! "util" = Some Examples.util
  /\ opt_mod_time Examples.util_built (get_out_path Examples.front) = -1
  /\ _cmp_timestamp (opt_mod_time Examples.util_built "util.c") (-1) = true
  /\ path_exists Examples.util_built "util.o" = true
  /\ commands (events (_opt_build ideal_spawn Examples.front_project 1
                         Examples.util false (-1) 1 Examples.util_built)) = []
  /\ commands (events (_opt_build ideal_spawn Examples.front_project 2
                         Examples.front false (-1) 0 Examples.util_built))
     = [["gcc"; "util.a"; "-o"; "front"]].
Proof. repeat split; vm_compute; reflexivity. Qed.

(** ** Missing sources *)

Lemma events_bind_l {A B} (m : M A) (k : A -> M B) fs e :
  In e (events (m fs)) -> In e (events (bind m k fs)).
Proof.
  unfold bind. destruct (m fs) as [a fs1 tr1| |]; cbn [events]; auto.
  rewrite events_after. intros H. apply in_or_app. left. exact H.
Qed.

Lemma events_bind_r {A B} (m : M A) (k : A -> M B) fs a fs1 tr1 e :
  m fs = Done a fs1 tr1 ->
  In e (events (k a fs1)) -> In e (events (bind m k fs)).
Proof.
  unfold bind. intros ->. rewrite events_after. intros H.
  apply in_or_app. right. exact H.
Qed.

Lemma bind_error_not_Done {A B} (m : M A) fs (b : B) fs' tr :
  bind m (fun _ => _error) fs <> Done b fs' tr.
Proof.
  unfold bind. destruct (m fs); cbn; discriminate.
Qed.

Lemma bind_error_bind {A B C} (m : M A) (k : B -> M C) fs :
  bind (bind m (fun _ => _error)) k fs = bind m (fun _ => _error) fs.
Proof.
  rewrite bind_assoc. apply bind_ext. intros a fs1. reflexivity.
Qed.

Lemma fueled_after {A} tr (r : result A) : fueled r -> fueled (after tr r).
Proof. destruct r; auto. Qed.

Lemma fueled_bind {A B} (m : M A) (k : A -> M B) fs :
  fueled (m fs) -> (forall a fs1, fueled (k a fs1)) -> fueled (bind m k fs).
Proof.
  unfold bind. intros Hm Hk. destruct (m fs) as [a fs1 tr1| |]; auto.
  apply fueled_after, Hk.
Qed.

Section Missing.

Variable spawn : list string -> FS -> FS.
Variable G : Globals.
Variable s : string.

Lemma replay_keeps_missing tr : forall fs,
  (forall args, In (Run args) tr -> keeps_missing spawn s args) ->
  path_exists fs s = false ->
  path_exists (replay spawn tr fs) s = false.
Proof.
  unfold replay.
  induction tr as [|[line|args] tr IH]; intros fs Hkeep Hmiss; cbn.
  - exact Hmiss.
  - apply IH; [|exact Hmiss]. intros a Ha. apply Hkeep. right. exact Ha.
  - apply IH.
    + intros a Ha. apply Hkeep. right. exact Ha.
    + apply (Hkeep args); [left; reflexivity | exact Hmiss].
Qed.

Lemma update_object_files_fueled self force T indent srcs : forall rebuild fs,
  fueled (update_object_files spawn G self force T indent srcs rebuild fs).
Proof.
  induction srcs as [|x srcs IH]; intros rebuild fs; [exact I|].
  rewrite update_object_files_cons. apply fueled_bind; [|intros; apply IH].
  rewrite update_object_file_run.
  destruct (negb _); [exact I|]. destruct (_ || _ || _); exact I.
Qed.

Lemma finish_fueled self force indent rebuild fs :
  fueled (finish spawn G self force indent rebuild fs).
Proof.
  rewrite finish_run. destruct (rebuild || force); [|exact I].
  apply fueled_bind; [|intros; exact I]. rewrite build_target_run.
  destruct (link_dependencies _ _ _) as [[? ?]|]; exact I.
Qed.

Lemma update_dependencies_fueled rec force T indent names :
  (forall dep_name dep fs,
      In dep_name names -> _targets G !! dep_name = Some dep ->
      fueled (rec dep force T (S indent) fs)) ->
  forall rebuild fs,
    fueled (update_dependencies G rec force T indent names rebuild fs).
Proof.
  induction names as [|n names IH]; intros Hrec rebuild fs; [exact I|].
  cbn [update_dependencies]. apply fueled_bind.
  - destruct (_targets G !! n) as [dep|] eqn:E.
    + apply fueled_bind; [exact I | intros _ fs1].
      apply fueled_bind; [|intros; exact I].
      apply (Hrec n); [left; reflexivity | exact E].
    + destruct (_external_dependencies G !! n); exact I.
  - intros r fs1. apply IH. intros m dep fs0 Hin. apply Hrec. right. exact Hin.
Qed.

(** Enough fuel: a build of a graph at most [fuel] deep does not exhaust
    the stack. *)
Lemma _opt_build_fueled fuel : forall self force timestamp indent fs,
  depth_within G fuel self = true ->
  fueled (_opt_build spawn G fuel self force timestamp indent fs).
Proof.
  induction fuel as [|fuel IH]; intros self force timestamp indent fs Hdepth;
    [discriminate|].
  rewrite _opt_build_unfold. cbn [depth_within] in Hdepth.
  rewrite forallb_forall in Hdepth.
  apply fueled_bind.
  - apply update_dependencies_fueled. intros dep_name dep fs0 Hin Hdep.
    apply IH. specialize (Hdepth dep_name Hin). rewrite Hdep in Hdepth.
    exact Hdepth.
  - intros r1 fs1. apply fueled_bind; [apply update_object_files_fueled|].
    intros r2 fs2. apply finish_fueled.
Qed.

(** The loop over the sources stops at a source that is missing. *)
Lemma update_object_files_missing self force T indent later before :
  forall rebuild fs,
    path_exists fs s = false ->
    (forall args,
        In (Run args)
          (events (update_object_files spawn G self force T indent
                     (before ++ s :: later) rebuild fs)) ->
        keeps_missing spawn s args) ->
    update_object_files spawn G self force T indent (before ++ s :: later)
      rebuild fs
    = (update_object_files spawn G self force T indent before rebuild ;;;
       _error) fs.
Proof.
  induction before as [|b before IH]; intros rebuild fs Hmiss Hkeep.
  - cbn [app]. rewrite update_object_files_cons. unfold bind.
    rewrite update_object_file_run, Hmiss. reflexivity.
  - cbn [app update_object_files] in *. rewrite bind_assoc.
    apply bind_ext_run. intros r fs1 tr1 Hone.
    pose proof (traced_update_object_file spawn G self force T indent b rebuild fs)
      as Htr. rewrite Hone in Htr.
    apply IH.
    + subst fs1. apply replay_keeps_missing; [|exact Hmiss].
      intros args Hin. apply Hkeep. apply events_bind_l. rewrite Hone. exact Hin.
    + intros args Hin. apply Hkeep. eapply events_bind_r; [exact Hone | exact Hin].
Qed.

(** The loop over the dependencies does not complete when one of them
    cannot be built. *)
Lemma update_dependencies_blocked rec force T indent names :
  (forall dep force T indent, traced spawn (rec dep force T indent)) ->
  (forall dep fs,
      needs G s dep -> path_exists fs s = false ->
      (forall args, In (Run args) (events (rec dep force T (S indent) fs)) ->
                    keeps_missing spawn s args) ->
      forall r fs' tr, rec dep force T (S indent) fs <> Done r fs' tr) ->
  (exists dep_name dep,
      In dep_name names /\ _targets G !! dep_name = Some dep /\ needs G s dep) ->
  forall rebuild fs,
    path_exists fs s = false ->
    (forall args,
        In (Run args)
          (events (update_dependencies G rec force T indent names rebuild fs)) ->
        keeps_missing spawn s args) ->
    forall r fs' tr,
      update_dependencies G rec force T indent names rebuild fs <> Done r fs' tr.
Proof.
  intros Htraced Hrec. induction names as [|n names IH];
    intros (dep_name & dep & Hin & Hdep & Hneeds) rebuild fs Hmiss Hkeep r fs' tr Hrun;
    [destruct Hin|].
  destruct (_targets G !! n) as [d|] eqn:Hn.
  - rewrite (update_dependencies_target G _ _ _ _ _ _ _ _ _ Hn) in Hrun, Hkeep.
    destruct (bind_Done _ _ _ _ _ _ Hrun) as ([] & fs0 & tr0 & tr' & Hp & Hrun' & ->).
    injection Hp as <- <-.
    destruct (bind_Done _ _ _ _ _ _ Hrun') as (r1 & fs1 & tr1 & tr2 & Hd & Hrest & ->).
    assert (Hkeep1 : forall args, In (Run args) tr1 -> keeps_missing spawn s args).
    { intros args Ha. apply Hkeep. rewrite Hrun. cbn [events app].
      right. apply in_or_app. left. exact Ha. }
    destruct Hin as [-> | Hin].
    + rewrite Hn in Hdep. injection Hdep as ->.
      apply (Hrec dep fs Hneeds Hmiss) in Hd; [exact Hd|].
      rewrite Hd. exact Hkeep1.
    + apply (IH (ex_intro _ dep_name (ex_intro _ dep (conj Hin (conj Hdep Hneeds))))
               (rebuild || r1) fs1) in Hrest; [exact Hrest| |].
      * pose proof (Htraced d force T (S indent) fs) as Ht. rewrite Hd in Ht.
        subst fs1. apply replay_keeps_missing; assumption.
      * intros args Ha. apply Hkeep. rewrite Hrun. cbn [events app].
        right. apply in_or_app. right. rewrite Hrest in Ha. exact Ha.
  - destruct Hin as [-> | Hin]; [congruence|].
    destruct (_external_dependencies G !! n) as [ext|] eqn:Hext.
    + rewrite (update_dependencies_external G _ _ _ _ _ _ _ _ _ Hn Hext) in Hrun, Hkeep.
      apply (IH (ex_intro _ dep_name (ex_intro _ dep (conj Hin (conj Hdep Hneeds))))
               rebuild fs Hmiss Hkeep) in Hrun. exact Hrun.
    + rewrite (update_dependencies_unknown G _ _ _ _ _ _ _ _ Hn Hext) in Hrun.
      discriminate.
Qed.

Lemma _opt_build_missing_own fuel self force timestamp indent fs before later :
  Target.sources self = before ++ s :: later ->
  path_exists fs s = false ->
  (forall args,
      In (Run args)
        (events (_opt_build spawn G (S fuel) self force timestamp indent fs)) ->
      keeps_missing spawn s args) ->
  _opt_build spawn G (S fuel) self force timestamp indent fs
  = (rebuild <- update_dependencies G (_opt_build spawn G fuel) force
                  (opt_mod_time fs (get_out_path self)) indent
                  (Target.deps self)
                  (opt_mod_time fs (get_out_path self) <? 0) ;;
     update_object_files spawn G self force
       (opt_mod_time fs (get_out_path self)) indent before rebuild ;;;
     _error) fs.
Proof.
  intros Hsrc Hmiss Hkeep. rewrite _opt_build_unfold in *. rewrite Hsrc in *.
  apply bind_ext_run. intros r1 fs1 tr1 Hdeps.
  pose proof (traced_update_dependencies spawn G (_opt_build spawn G fuel) force
                (opt_mod_time fs (get_out_path self)) indent (Target.deps self)
                (fun d f T i => traced__opt_build spawn G fuel d f T i)
                (opt_mod_time fs (get_out_path self) <? 0) fs) as Htr.
  rewrite Hdeps in Htr.
  unfold bind at 1. rewrite update_object_files_missing.
  - apply bind_error_bind with (k := finish spawn G self force indent).
  - subst fs1. apply replay_keeps_missing; [|exact Hmiss].
    intros args Ha. apply Hkeep. apply events_bind_l. rewrite Hdeps. exact Ha.
  - intros args Ha. apply Hkeep. eapply events_bind_r; [exact Hdeps|].
    apply events_bind_l. exact Ha.
Qed.

Lemma _opt_build_blocked fuel : forall self force timestamp indent fs,
  needs G s self ->
  path_exists fs s = false ->
  (forall args,
      In (Run args)
        (events (_opt_build spawn G fuel self force timestamp indent fs)) ->
      keeps_missing spawn s args) ->
  forall r fs' tr,
    _opt_build spawn G fuel self force timestamp indent fs <> Done r fs' tr.
Proof.
  induction fuel as [|fuel IH]; intros self force timestamp indent fs Hneeds
    Hmiss Hkeep r fs' tr; [discriminate|].
  destruct Hneeds as [self Hown | self dep_name dep Hin Hdep Hneeds].
  - apply in_split in Hown as (before & later & Hsrc).
    rewrite (_opt_build_missing_own _ _ _ _ _ _ _ _ Hsrc Hmiss Hkeep).
    intros Hrun. apply bind_Done in Hrun as (r1 & fs1 & tr1 & tr2 & _ & Hrun & _).
    exact (bind_error_not_Done _ _ _ _ _ Hrun).
  - intros Hrun. rewrite _opt_build_unfold in Hrun, Hkeep.
    destruct (bind_Done _ _ _ _ _ _ Hrun) as (r1 & fs1 & tr1 & tr2 & Hdeps & _ & _).
    revert Hdeps. apply update_dependencies_blocked.
    + intros d f T i. apply traced__opt_build.
    + intros d fs0 Hd Hm Hk. apply IH; assumption.
    + exists dep_name, dep. auto.
    + exact Hmiss.
    + intros args Ha. apply Hkeep. apply events_bind_l. exact Ha.
Qed.

Lemma _opt_build_missing_below fuel self force timestamp indent fs :
  (exists dep_name dep,
      In dep_name (Target.deps self) /\ _targets G !! dep_name = Some dep
      /\ needs G s dep) ->
  path_exists fs s = false ->
  (forall args,
      In (Run args)
        (events (_opt_build spawn G (S fuel) self force timestamp indent fs)) ->
      keeps_missing spawn s args) ->
  _opt_build spawn G (S fuel) self force timestamp indent fs
  = (update_dependencies G (_opt_build spawn G fuel) force
       (opt_mod_time fs (get_out_path self)) indent (Target.deps self)
       (opt_mod_time fs (get_out_path self) <? 0) ;;;
     _error) fs.
Proof.
  intros Hbelow Hmiss Hkeep. rewrite _opt_build_unfold in *.
  apply bind_ext_run. intros r1 fs1 tr1 Hdeps.
  exfalso. revert Hdeps. apply update_dependencies_blocked.
  - intros d f T i. apply traced__opt_build.
  - intros d fs0 Hd Hm Hk. apply _opt_build_blocked; assumption.
  - exact Hbelow.
  - exact Hmiss.
  - intros args Ha. apply Hkeep. apply events_bind_l. exact Ha.
Qed.

End Missing.

Lemma files_touch p q fs :
  files (touch p fs) !! q = if decide (p = q) then Some (now fs) else files fs !! q.
Proof. unfold touch. cbn [files]. apply lookup_insert. Qed.

Lemma path_exists_touch_ne p q fs :
  p <> q -> path_exists (touch p fs) q = path_exists fs q.
Proof.
  intros Hne. unfold path_exists. rewrite files_touch.
  destruct (decide (p = q)); [contradiction | reflexivity].
Qed.

Lemma path_exists_touch_eq p fs : path_exists (touch p fs) p = true.
Proof.
  unfold path_exists. rewrite files_touch.
  destruct (decide (p = p)); [|contradiction].
  apply bool_decide_eq_true_2. eauto.
Qed.

(** C3. Let [s] be a source that is not on disk and that no issued command
    creates, declared by [root] or by a target [root] transitively depends
    on.  Then the build of [root] does not return; on a graph the stack is
    deep enough for, it ends in the fatal error.  If [root] declares [s],
    the build consists of the loop over the dependencies and of the rounds
    for the sources declared before [s], then the error: nothing is issued
    for [s], for the sources after it, or to link [root].  If a dependency
    of [root] needs [s], the build ends inside the loop over the
    dependencies: [root] compiles and links nothing of its own. *)
Theorem C3_missing_source spawn G fuel root force timestamp indent fs s :
  needs G s root ->
  path_exists fs s = false ->
  (forall args,
      In (Run args)
        (events (_opt_build spawn G (S fuel) root force timestamp indent fs)) ->
      keeps_missing spawn s args) ->
  (forall r fs' tr,
      _opt_build spawn G (S fuel) root force timestamp indent fs <> Done r fs' tr)
  /\ (depth_within G (S fuel) root = true ->
      exists fs' tr,
        _opt_build spawn G (S fuel) root force timestamp indent fs = Fatal fs' tr)
  /\ (forall before later,
        Target.sources root = before ++ s :: later ->
        _opt_build spawn G (S fuel) root force timestamp indent fs
        = (rebuild <- update_dependencies G (_opt_build spawn G fuel) force
                        (opt_mod_time fs (get_out_path root)) indent
                        (Target.deps root)
                        (opt_mod_time fs (get_out_path root) <? 0) ;;
           update_object_files spawn G root force
             (opt_mod_time fs (get_out_path root)) indent before rebuild ;;;
           _error) fs)
  /\ ((exists dep_name dep,
         In dep_name (Target.deps root) /\ _targets G !! dep_name = Some dep
         /\ needs G s dep) ->
      _opt_build spawn G (S fuel) root force timestamp indent fs
      = (update_dependencies G (_opt_build spawn G fuel) force
           (opt_mod_time fs (get_out_path root)) indent (Target.deps root)
           (opt_mod_time fs (get_out_path root) <? 0) ;;;
         _error) fs).
Proof.
  intros Hneeds Hmiss Hkeep.
  assert (Hnot : forall r fs' tr,
             _opt_build spawn G (S fuel) root force timestamp indent fs
             <> Done r fs' tr)
    by (apply (_opt_build_blocked spawn G s); assumption).
  split; [exact Hnot|]. split.
  - intros Hdepth.
    pose proof (_opt_build_fueled spawn G (S fuel) root force timestamp indent fs
                  Hdepth) as Hfuel.
    destruct (_opt_build spawn G (S fuel) root force timestamp indent fs)
      as [r fs' tr|fs' tr|fs' tr].
    + exfalso. exact (Hnot r fs' tr eq_refl).
    + eauto.
    + destruct Hfuel.
  - split.
    + intros before later Hsrc.
      apply (_opt_build_missing_own spawn G s) with (later := later); assumption.
    + intros Hbelow. apply (_opt_build_missing_below spawn G s); assumption.
Qed.

Lemma C3_missing_source_witness :
  exists fs' tr,
    _opt_build ideal_spawn Examples.pair_project 1 Examples.pair false 0 0
      (Examples.fresh_checkout ["a.c"]) = Fatal fs' tr.
Proof.
  refine (proj1 (proj2 (C3_missing_source ideal_spawn Examples.pair_project 0
            Examples.pair false 0 0%nat (Examples.fresh_checkout ["a.c"]) "b.c"
            _ _ _)) eq_refl).
  - apply needs_own. right. left. reflexivity.
  - reflexivity.
  - intros args Hin. vm_compute in Hin. destruct Hin as [Hin|[Hin|[]]];
      [discriminate Hin|]. injection Hin as <-.
    intros fs0 Hfs0. change (path_exists (touch "a.o" fs0) "b.c" = false).
    rewrite path_exists_touch_ne; [exact Hfs0 | discriminate].
Defined.

(** C3, as stated, fails: [b.c] is declared and missing, yet the compile
    command of [a.c], declared before it, is issued before the build
    aborts. *)
Lemma C3_counterexample :
  In "b.c" (Target.sources Examples.pair)
  /\ path_exists (Examples.fresh_checkout ["a.c"]) "b.c" = false
  /\ _opt_build ideal_spawn Examples.pair_project 1 Examples.pair false 0 0
       (Examples.fresh_checkout ["a.c"])
     = Fatal (touch "a.o" (Examples.fresh_checkout ["a.c"]))
         [compiling_line "a.c" 0; Run ["gcc"; "-c"; "a.c"; "-o"; "a.o"]]
  /\ compile_args Examples.pair_project Examples.pair "a.c"
     = ["gcc"; "-c"; "a.c"; "-o"; "a.o"].
Proof.
  split; [right; left; reflexivity|]. repeat split; reflexivity.
Qed.

(** ** Idempotence *)

Lemma commands_up_to_date_report G fuel : forall self indent,
  commands (up_to_date_report G fuel self indent) = [].
Proof.
  induction fuel as [|fuel IH]; intros self indent; [reflexivity|].
  cbn [up_to_date_report]. rewrite !commands_app.
  assert (H1 : commands (map (fun s => source_up_to_date_line s indent)
                           (Target.sources self)) = []).
  { induction (Target.sources self) as [|x l IHl]; [reflexivity | exact IHl]. }
  rewrite H1. cbn [commands app]. rewrite app_nil_r.
  induction (Target.deps self) as [|n names IHn]; [reflexivity|].
  cbn [flat_map]. rewrite commands_app, IHn, app_nil_r.
  destruct (_targets G !! n); [apply IH | reflexivity].
Qed.

Lemma sane_touch p fs : sane fs -> sane (touch p fs).
Proof.
  intros [Hnow Hs]. split; [unfold touch; cbn [now]; lia|].
  intros q t. rewrite files_touch. unfold touch; cbn [now].
  destruct (decide (p = q)).
  - intros [= <-]. lia.
  - intros H. specialize (Hs q t H). lia.
Qed.

Lemma build_run spawn G fuel self force fs :
  build spawn G fuel self force fs
  = _opt_build spawn G fuel self force (opt_mod_time fs (get_out_path self)) 0 fs.
Proof.
  unfold build, bind, _get_opt_mod_time. apply after_nil.
Qed.

Section Grows.

Variable protected : string -> Prop.

Lemma grows_refl fs : grows protected fs fs.
Proof. split; [intros p t H; exists t; split; [exact H | lia] | reflexivity]. Qed.

Lemma grows_trans fs1 fs2 fs3 :
  grows protected fs1 fs2 -> grows protected fs2 fs3 -> grows protected fs1 fs3.
Proof.
  intros [H1 H1'] [H2 H2']. split.
  - intros p t H. destruct (H1 p t H) as (t' & Ht' & Hle).
    destruct (H2 p t' Ht') as (t'' & Ht'' & Hle'). exists t''. split; [exact Ht''|lia].
  - intros p Hp. rewrite (H2' p Hp). apply H1'. exact Hp.
Qed.

Lemma grows_touch p fs :
  sane fs -> ~ protected p -> grows protected fs (touch p fs).
Proof.
  intros Hs Hp. split.
  - intros q t H. rewrite files_touch. destruct (decide (p = q)) as [<-|].
    + exists (now fs). split; [reflexivity | apply (proj2 Hs p t H)].
    + exists t. split; [exact H | lia].
  - intros q Hq. rewrite files_touch. destruct (decide (p = q)) as [<-|];
      [contradiction | reflexivity].
Qed.

Lemma grows_exists fs fs' p :
  grows protected fs fs' -> path_exists fs p = true -> path_exists fs' p = true.
Proof.
  intros [H _] Hp. unfold path_exists in *.
  apply bool_decide_eq_true_1 in Hp as [t Ht].
  destruct (H p t Ht) as (t' & Ht' & _). apply bool_decide_eq_true_2. eauto.
Qed.

End Grows.

Section Idempotence.

Variable spawn : list string -> FS -> FS.
Variable G : Globals.
Variable root : Target.t.

Hypothesis toolchain : forall d, in_graph G root d -> toolchain_ok spawn G d.
Hypothesis apart : sources_apart G root.

Abbreviation source := (is_source G root).

Lemma in_graph_registered k d : _targets G !! k = Some d -> in_graph G root d.
Proof. intros H. right. eauto. Qed.

Lemma written_not_source d p :
  in_graph G root d -> In p (written d) -> ~ source p.
Proof. intros Hd Hp. exact (apart d p Hd Hp). Qed.

Lemma settled_grows n : forall d fs fs',
  in_graph G root d -> settled G n d fs -> grows source fs fs' ->
  settled G n d fs'.
Proof.
  induction n as [|n IH]; intros d fs fs' Hd Hset Hgrow; [exact Hset|].
  cbn [settled] in *. destruct Hset as [(t_out & Hout & Hsrcs) Hdeps]. split.
  - destruct (proj1 Hgrow _ _ Hout) as (t' & Hout' & Hle). exists t'.
    split; [exact Hout'|]. intros s Hs.
    destruct (Hsrcs s Hs) as (ts & Hts & Hle' & Hobj). exists ts.
    split; [|split; [lia | exact (grows_exists _ _ _ _ Hgrow Hobj)]].
    rewrite (proj2 Hgrow s); [exact Hts|]. exists d. auto.
  - intros dep_name Hin. specialize (Hdeps dep_name Hin).
    destruct (_targets G !! dep_name) as [dep|] eqn:E; [|exact Hdeps].
    apply (IH dep fs fs'); [exact (in_graph_registered _ _ E) | exact Hdeps | exact Hgrow].
Qed.

(** *** A settled target has nothing to do *)

Lemma update_dependencies_settled n force_free T indent fs names :
  (forall dep timestamp indent',
      settled G n dep fs ->
      _opt_build spawn G n dep false timestamp indent' fs
      = Done false fs (up_to_date_report G n dep indent')) ->
  force_free = false ->
  (forall dep_name, In dep_name names ->
        match _targets G !! dep_name with
        | Some dep => settled G n dep fs
        | None => is_Some (_external_dependencies G !! dep_name)
        end) ->
  forall rebuild,
    update_dependencies G (_opt_build spawn G n) force_free T indent names
      rebuild fs
    = Done rebuild fs
        (flat_map (fun dep_name =>
                     match _targets G !! dep_name with
                     | Some dep =>
                         checking_line dep_name indent
                           :: up_to_date_report G n dep (S indent)
                     | None => []
                     end) names).
Proof.
  intros Hrec ->. induction names as [|x names IH]; intros Hall rebuild;
    [reflexivity|].
  pose proof (Hall x (or_introl eq_refl)) as Hx.
  assert (Hrest : forall dep_name, In dep_name names ->
            match _targets G !! dep_name with
            | Some dep => settled G n dep fs
            | None => is_Some (_external_dependencies G !! dep_name)
            end) by (intros m Hm; apply Hall; right; exact Hm).
  cbn [flat_map]. destruct (_targets G !! x) as [dep|] eqn:E.
  - rewrite (update_dependencies_target G _ _ _ _ _ _ _ _ _ E).
    unfold bind at 1, print at 1. cbn [after]. unfold bind at 1.
    rewrite (Hrec dep T (S indent) Hx). cbn [after].
    rewrite orb_false_r, (IH Hrest). reflexivity.
  - destruct Hx as [ext Hext].
    rewrite (update_dependencies_external G _ _ _ _ _ _ _ _ _ E Hext).
    apply (IH Hrest).
Qed.

Lemma update_object_files_settled self T indent fs srcs :
  sane fs ->
  (forall s, In s srcs ->
     exists ts, files fs !! s = Some ts /\ ts <= T
                /\ path_exists fs (_change_extension s _object_ext) = true) ->
  forall rebuild,
    update_object_files spawn G self false T indent srcs rebuild fs
    = Done rebuild fs (map (fun s => source_up_to_date_line s indent) srcs).
Proof.
  intros Hsane. induction srcs as [|s srcs IH]; intros Hall rebuild;
    [reflexivity|].
  rewrite update_object_files_cons. unfold bind.
  destruct (Hall s (or_introl eq_refl)) as (ts & Hts & Hle & Hobj).
  rewrite update_object_file_run.
  rewrite (path_exists_Some _ _ _ Hts), (opt_mod_time_Some _ _ _ Hts), Hobj.
  assert (Hcmp : _cmp_timestamp ts T = false).
  { unfold _cmp_timestamp. apply orb_false_iff. split.
    - apply Z.ltb_ge. apply (proj2 Hsane s ts Hts).
    - rewrite Z.gtb_ltb. apply Z.ltb_ge. exact Hle. }
  rewrite Hcmp. cbn [negb orb after].
  rewrite IH; [reflexivity|]. intros s' Hs'. apply Hall. right. exact Hs'.
Qed.

Lemma settled_quiet n : forall d timestamp indent fs,
  sane fs -> settled G n d fs ->
  _opt_build spawn G n d false timestamp indent fs
  = Done false fs (up_to_date_report G n d indent).
Proof.
  induction n as [|n IH]; intros d timestamp indent fs Hsane Hset;
    [destruct Hset|].
  cbn [settled] in Hset. destruct Hset as [(t_out & Hout & Hsrcs) Hdeps].
  rewrite _opt_build_unfold, (opt_mod_time_Some _ _ _ Hout).
  assert (Hlt : (t_out <? 0) = false)
    by (apply Z.ltb_ge; apply (proj2 Hsane _ _ Hout)).
  rewrite Hlt. unfold bind at 1.
  rewrite (update_dependencies_settled n false t_out indent fs (Target.deps d));
    [|intros dep ts i Hd; apply IH; assumption | reflexivity | exact Hdeps].
  cbn [after]. unfold bind at 1.
  rewrite (update_object_files_settled d t_out indent fs (Target.sources d) Hsane Hsrcs).
  cbn [after]. rewrite finish_run. cbn [orb after up_to_date_report].
  reflexivity.
Qed.

(** *** A completed build leaves its target settled *)

Lemma update_dependencies_settles n force T indent names :
  (forall dep timestamp indent' fs r fs' tr,
      in_graph G root dep -> sane fs ->
      _opt_build spawn G n dep force timestamp indent' fs = Done r fs' tr ->
      sane fs' /\ grows source fs fs' /\ settled G n dep fs') ->
  forall rebuild fs r fs' tr,
    sane fs ->
    update_dependencies G (_opt_build spawn G n) force T indent names rebuild fs
      = Done r fs' tr ->
    sane fs' /\ grows source fs fs'
    /\ forall dep_name, In dep_name names ->
          match _targets G !! dep_name with
          | Some dep => settled G n dep fs'
          | None => is_Some (_external_dependencies G !! dep_name)
          end.
Proof.
  intros Hrec. induction names as [|x names IH];
    intros rebuild fs r fs' tr Hsane Hrun.
  - cbn in Hrun. injection Hrun as _ <- _.
    split; [exact Hsane|]. split; [apply grows_refl | intros m []].
  - destruct (_targets G !! x) as [dep|] eqn:E.
    + rewrite (update_dependencies_target G _ _ _ _ _ _ _ _ _ E) in Hrun.
      apply bind_Done in Hrun as ([] & fs0 & tr0 & tr' & Hp & Hrun & _).
      injection Hp as <- _.
      apply bind_Done in Hrun as (r1 & fs1 & tr1 & tr2 & Hd & Hrest & _).
      destruct (Hrec _ _ _ _ _ _ _ (in_graph_registered _ _ E) Hsane Hd)
        as (Hsane1 & Hgrow1 & Hset1).
      destruct (IH _ _ _ _ _ Hsane1 Hrest) as (Hsane' & Hgrow' & Hall).
      split; [exact Hsane'|]. split; [exact (grows_trans _ _ _ _ Hgrow1 Hgrow')|].
      intros m [<- | Hm]; [|apply Hall; exact Hm].
      rewrite E. apply (settled_grows n dep fs1 fs');
        [exact (in_graph_registered _ _ E) | exact Hset1 | exact Hgrow'].
    + destruct (_external_dependencies G !! x) as [ext|] eqn:Hext.
      * rewrite (update_dependencies_external G _ _ _ _ _ _ _ _ _ E Hext) in Hrun.
        destruct (IH _ _ _ _ _ Hsane Hrun) as (Hsane' & Hgrow' & Hall).
        split; [exact Hsane'|]. split; [exact Hgrow'|].
        intros m [<- | Hm]; [|apply Hall; exact Hm].
        rewrite E, Hext. eauto.
      * rewrite (update_dependencies_unknown G _ _ _ _ _ _ _ _ E Hext) in Hrun.
        discriminate.
Qed.

Lemma update_object_files_settles self force T indent srcs :
  in_graph G root self ->
  (forall s, In s srcs -> In s (Target.sources self)) ->
  forall rebuild fs r fs' tr,
    sane fs ->
    update_object_files spawn G self force T indent srcs rebuild fs
      = Done r fs' tr ->
    sane fs' /\ grows source fs fs'
    /\ (rebuild = true -> r = true)
    /\ forall s, In s srcs ->
          exists ts, files fs' !! s = Some ts
                     /\ path_exists fs' (_change_extension s _object_ext) = true
                     /\ (r = true \/ ts <= T).
Proof.
  intros Hself. induction srcs as [|s srcs IH];
    intros Hsub rebuild fs r fs' tr Hsane Hrun.
  - cbn in Hrun. injection Hrun as <- <- _.
    split; [exact Hsane|]. split; [apply grows_refl|]. split; [auto | intros x []].
  - rewrite update_object_files_cons in Hrun.
    apply bind_Done in Hrun as (r1 & fs1 & tr1 & tr2 & Hone & Hrest & _).
    assert (Hs : In s (Target.sources self)) by (apply Hsub; left; reflexivity).
    assert (Hsrc : source s) by (exists self; auto).
    assert (Hsub' : forall x, In x srcs -> In x (Target.sources self))
      by (intros x Hx; apply Hsub; right; exact Hx).
    rewrite update_object_file_run in Hone.
    destruct (path_exists fs s) eqn:Hex; [|discriminate]. cbn [negb] in Hone.
    apply bool_decide_eq_true_1 in Hex as [ts Hts].
    rewrite (opt_mod_time_Some _ _ _ Hts) in Hone.
    destruct (_cmp_timestamp ts T
              || negb (path_exists fs (_change_extension s _object_ext))
              || force) eqn:Hstale.
    + injection Hone as <- <- _.
      rewrite (proj1 (toolchain self Hself) s fs Hs) in Hrest.
      assert (Hobj : ~ source (_change_extension s _object_ext)).
      { apply (written_not_source self); [exact Hself|]. right.
        apply (in_map (fun x => _change_extension x _object_ext)). exact Hs. }
      pose proof (grows_touch source _ fs Hsane Hobj) as Hgrow1.
      destruct (IH Hsub' _ _ _ _ _ (sane_touch _ _ Hsane) Hrest)
        as (Hsane' & Hgrow' & Hmono & Hall).
      pose proof (grows_trans _ _ _ _ Hgrow1 Hgrow') as Hgrow.
      split; [exact Hsane'|]. split; [exact Hgrow|]. split; [auto|].
      intros x [<- | Hx]; [|apply Hall; exact Hx].
      exists ts. split; [rewrite (proj2 Hgrow s Hsrc); exact Hts|].
      split; [|left; auto].
      apply (grows_exists _ _ _ _ Hgrow'). apply path_exists_touch_eq.
    + injection Hone as <- <- _.
      destruct (IH Hsub' _ _ _ _ _ Hsane Hrest) as (Hsane' & Hgrow' & Hmono & Hall).
      split; [exact Hsane'|]. split; [exact Hgrow'|]. split; [exact Hmono|].
      intros x [<- | Hx]; [|apply Hall; exact Hx].
      apply orb_false_iff in Hstale as [Hstale _].
      apply orb_false_iff in Hstale as [Hcmp Hobj].
      apply negb_false_iff in Hobj.
      exists ts. split; [rewrite (proj2 Hgrow' s Hsrc); exact Hts|].
      split; [exact (grows_exists _ _ _ _ Hgrow' Hobj)|].
      right. unfold _cmp_timestamp in Hcmp. apply orb_false_iff in Hcmp as [_ Hgt].
      rewrite Z.gtb_ltb in Hgt. apply Z.ltb_ge in Hgt. exact Hgt.
Qed.

Lemma _opt_build_settles n : forall d force timestamp indent fs r fs' tr,
  in_graph G root d -> sane fs ->
  _opt_build spawn G n d force timestamp indent fs = Done r fs' tr ->
  sane fs' /\ grows source fs fs' /\ settled G n d fs'.
Proof.
  induction n as [|n IH]; intros d force timestamp indent fs r fs' tr Hd Hsane
    Hrun; [discriminate|].
  rewrite _opt_build_unfold in Hrun.
  apply bind_Done in Hrun as (r1 & fs1 & tr1 & tr' & Hdeps & Hrun & _).
  apply bind_Done in Hrun as (r2 & fs2 & tr2 & tr3 & Hsrcs & Hfin & _).
  pose proof (update_dependencies_flag _ _ _ _ _ _ _ _ _ _ _ Hdeps) as Hflag1.
  destruct (update_dependencies_settles n force _ indent (Target.deps d)
              (fun dep ts i => IH dep force ts i) _ _ _ _ _ Hsane Hdeps)
    as (Hsane1 & Hgrow1 & Hdeps1).
  destruct (update_object_files_settles d force _ indent (Target.sources d) Hd
              (fun s Hs => Hs) _ _ _ _ _ Hsane1 Hsrcs)
    as (Hsane2 & Hgrow2 & Hmono & Hsrcs2).
  pose proof (grows_trans _ _ _ _ Hgrow1 Hgrow2) as Hgrow12.
  rewrite finish_run in Hfin.
  destruct (r2 || force) eqn:Hgo.
  - apply bind_Done in Hfin as ([] & fs3 & tr4 & tr5 & Hlink & Hret & _).
    injection Hret as _ <- _.
    rewrite build_target_run in Hlink.
    destruct (link_dependencies G (Target.deps d) (own_objects d, []))
      as [[objs links]|] eqn:Elink; [|discriminate].
    injection Hlink as <- _.
    rewrite (proj2 (toolchain d Hd) objs links fs2 Elink).
    assert (Hout : ~ source (get_out_path d))
      by (apply (written_not_source d); [exact Hd | left; reflexivity]).
    pose proof (grows_touch source _ fs2 Hsane2 Hout) as Hgrow3.
    split; [apply sane_touch; exact Hsane2|].
    split; [exact (grows_trans _ _ _ _ Hgrow12 Hgrow3)|].
    cbn [settled]. split.
    + exists (now fs2). split.
      * rewrite files_touch. destruct (decide (get_out_path d = get_out_path d));
          [reflexivity | contradiction].
      * intros s Hs. destruct (Hsrcs2 s Hs) as (ts & Hts & Hobj & _).
        exists ts. split; [|split].
        -- rewrite (proj2 Hgrow3 s); [exact Hts | exists d; auto].
        -- apply (proj2 Hsane2 s ts Hts).
        -- exact (grows_exists _ _ _ _ Hgrow3 Hobj).
    + intros dep_name Hin. specialize (Hdeps1 dep_name Hin).
      destruct (_targets G !! dep_name) as [dep|] eqn:E; [|exact Hdeps1].
      apply (settled_grows n dep fs1);
        [exact (in_graph_registered _ _ E) | exact Hdeps1
        | exact (grows_trans _ _ _ _ Hgrow2 Hgrow3)].
  - injection Hfin as _ <- _.
    apply orb_false_iff in Hgo as [-> ->].
    assert (Hr1 : r1 = false) by (destruct r1; [symmetry; auto | reflexivity]).
    subst r1.
    assert (Hts : (opt_mod_time fs (get_out_path d) <? 0) = false).
    { destruct (opt_mod_time fs (get_out_path d) <? 0); [|reflexivity].
      symmetry. apply Hflag1. left. reflexivity. }
    apply Z.ltb_ge in Hts.
    split; [exact Hsane2|]. split; [exact Hgrow12|].
    cbn [settled]. split.
    + destruct (files fs !! get_out_path d) as [t_out|] eqn:Eout.
      * rewrite (opt_mod_time_Some _ _ _ Eout) in *.
        destruct (proj1 Hgrow12 _ _ Eout) as (t' & Hout' & Hle).
        exists t'. split; [exact Hout'|].
        intros s Hs. destruct (Hsrcs2 s Hs) as (ts & Hts' & Hobj & [Habs|Hle']);
          [discriminate Habs|].
        exists ts. split; [exact Hts'|]. split; [lia | exact Hobj].
      * rewrite (opt_mod_time_None _ _ Eout) in Hts. lia.
    + intros dep_name Hin. specialize (Hdeps1 dep_name Hin).
      destruct (_targets G !! dep_name) as [dep|] eqn:E; [|exact Hdeps1].
      apply (settled_grows n dep fs1);
        [exact (in_graph_registered _ _ E) | exact Hdeps1 | exact Hgrow2].
Qed.

End Idempotence.

Lemma up_to_date_report_visited G fuel self indent d i :
  visited G fuel self indent d i ->
  In (up_to_date_line d i) (up_to_date_report G fuel self indent).
Proof.
  induction 1 as [fuel self indent
                 | fuel self indent dep_name dep d i Hin Hdep Hvis IH];
    cbn [up_to_date_report].
  - apply in_or_app. right. apply in_or_app. right. left. reflexivity.
  - apply in_or_app. left. apply in_flat_map. exists dep_name.
    split; [exact Hin|]. rewrite Hdep. right. exact IH.
Qed.

(** C4. Let the toolchain do its job on the commands of the graph (a
    compile command writes the object, an archive/link command writes the
    output of its target), let no source of the graph be an object or an
    output of the graph, and let no modification time lie before the epoch
    or ahead of the clock.  Then, after a build of [root] that returned, a
    second build without [force] returns [false], leaves the file system as
    it is, issues no command and prints the up-to-date report, which has
    the up-to-date line of every node the walk visits. *)
Theorem C4_idempotence spawn G fuel root force fs r fs' tr :
  (forall d, in_graph G root d -> toolchain_ok spawn G d) ->
  sources_apart G root ->
  sane fs ->
  build spawn G fuel root force fs = Done r fs' tr ->
  build spawn G fuel root false fs'
    = Done false fs' (up_to_date_report G fuel root 0)
  /\ commands (events (build spawn G fuel root false fs')) = []
  /\ forall d i,
       visited G fuel root 0 d i ->
       In (up_to_date_line d i) (events (build spawn G fuel root false fs')).
Proof.
  intros Htool Hapart Hsane Hrun. rewrite build_run in Hrun.
  destruct (_opt_build_settles spawn G root Htool Hapart fuel root force _ _ _
              _ _ _ (or_introl eq_refl) Hsane Hrun) as (Hsane' & _ & Hset).
  assert (Hsecond : build spawn G fuel root false fs'
                    = Done false fs' (up_to_date_report G fuel root 0)).
  { rewrite build_run.
    apply (settled_quiet spawn G fuel root _ 0%nat fs' Hsane' Hset). }
  split; [exact Hsecond|]. rewrite Hsecond. cbn [events].
  split; [apply commands_up_to_date_report|].
  intros d i. apply up_to_date_report_visited.
Qed.

Lemma project_in_graph d :
  in_graph Examples.project Examples.app d ->
  d = Examples.app \/ d = Examples.util.
Proof.
  intros [-> | [k Hk]]; [auto|].
  unfold Examples.project, Examples.gcc_globals in Hk. cbn [_targets] in Hk.
  apply lookup_insert_Some in Hk as [[_ <-] | [_ Hk]]; [auto|].
  apply lookup_insert_Some in Hk as [[_ <-] | [_ Hk]]; [auto|].
  rewrite lookup_empty in Hk. discriminate Hk.
Qed.

Lemma project_toolchain d :
  in_graph Examples.project Examples.app d ->
  toolchain_ok ideal_spawn Examples.project d.
Proof.
  intros Hd. destruct (project_in_graph d Hd) as [-> | ->]; split.
  - intros s fs [<- | []]. reflexivity.
  - intros objs links fs H. injection H as <- <-. reflexivity.
  - intros s fs [<- | []]. reflexivity.
  - intros objs links fs H. injection H as <- <-. reflexivity.
Qed.

Lemma project_sources_apart : sources_apart Examples.project Examples.app.
Proof.
  intros d p Hd Hp (d' & Hd' & Hsrc).
  destruct (project_in_graph d Hd) as [-> | ->];
    destruct (project_in_graph d' Hd') as [-> | ->];
    cbn in Hp, Hsrc;
    repeat match goal with
           | H : _ \/ _ |- _ => destruct H
           | H : False |- _ => destruct H
           end; subst; discriminate.
Qed.

Lemma fresh_checkout_sane paths : sane (Examples.fresh_checkout paths).
Proof.
  split; [cbn; lia|]. intros p t. cbn [Examples.fresh_checkout files now].
  induction paths as [|q paths IH]; cbn [map].
  - rewrite list_to_map_nil, lookup_empty. discriminate.
  - rewrite list_to_map_cons. intros H.
    apply lookup_insert_Some in H as [[_ <-] | [_ H]]; [lia | auto].
Qed.

Lemma C4_idempotence_witness :
  exists fs',
    build ideal_spawn Examples.project 2 Examples.app false
      (Examples.fresh_checkout ["main.c"; "util.c"])
    = Done true fs'
        [checking_line "util" 0;
         compiling_line "util.c" 1;
         Run ["gcc"; "-c"; "util.c"; "-o"; "util.o"];
         building_line Examples.util 1;
         Run ["ar"; "rcs"; "util.a"; "util.o"];
         completed_line 1;
         compiling_line "main.c" 0;
         Run ["gcc"; "-c"; "main.c"; "-O2"; "-Iinc"; "-o"; "main.o"];
         building_line Examples.app 0;
         Run ["gcc"; "-O2"; "main.o"; "util.a"; "-o"; "app"; "-lm"];
         completed_line 0]
    /\ build ideal_spawn Examples.project 2 Examples.app false fs'
       = Done false fs'
           [checking_line "util" 0;
            source_up_to_date_line "util.c" 1;
            up_to_date_line Examples.util 1;
            source_up_to_date_line "main.c" 0;
            up_to_date_line Examples.app 0].
Proof.
  eexists. split; [reflexivity|].
  refine (proj1 (C4_idempotence ideal_spawn Examples.project 2 Examples.app false
            (Examples.fresh_checkout ["main.c"; "util.c"]) _ _ _
            project_toolchain project_sources_apart
            (fresh_checkout_sane _) eq_refl)).
Defined.

(** C4, as stated, fails on a file system state: [main.c] is dated ahead of
    the clock, so it is still newer than the output the first build has
    just written, and the second build compiles and links again. *)
Lemma C4_counterexample :
  exists fs',
    build ideal_spawn Examples.tool_project 1 Examples.tool false
      Examples.future_source
    = Done true fs'
        [compiling_line "main.c" 0;
         Run ["gcc"; "-c"; "main.c"; "-o"; "main.o"];
         building_line Examples.tool 0;
         Run ["gcc"; "main.o"; "-o"; "tool"];
         completed_line 0]
    /\ commands (events (build ideal_spawn Examples.tool_project 1
                           Examples.tool false fs'))
       = [["gcc"; "-c"; "main.c"; "-o"; "main.o"];
          ["gcc"; "main.o"; "-o"; "tool"]].
Proof. eexists. split; reflexivity. Qed.

(** The link line of a dynamic library names [-fPIC] as its output, so the
    library itself never appears and every build starts over. *)
Example dynamic_lib_is_rebuilt_every_time :
  exists fs',
    build ideal_spawn Examples.plugin_project 1 Examples.plugin false
      (Examples.fresh_checkout ["plugin.c"]) = Done true fs'
        [compiling_line "plugin.c" 0;
         Run ["gcc"; "-fPIC"; "-c"; "plugin.c"; "-o"; "plugin.o"];
         building_line Examples.plugin 0;
         Run ["gcc"; "plugin.o"; "-shared"; "-o"; "-fPIC"; "plugin.so"];
         completed_line 0]
    /\ path_exists fs' "plugin.so" = false
    /\ commands (events (build ideal_spawn Examples.plugin_project 1
                           Examples.plugin false fs'))
       = [["gcc"; "-fPIC"; "-c"; "plugin.c"; "-o"; "plugin.o"];
          ["gcc"; "plugin.o"; "-shared"; "-o"; "-fPIC"; "plugin.so"]].
Proof. eexists. repeat split; reflexivity. Qed.

(** * Further properties *)

(** ** Extensions *)

Lemma split_nonempty sep s : split sep s <> [].
Proof.
  destruct s as [|c s]; cbn [split]; [discriminate|].
  destruct (Ascii.eqb c sep); [discriminate|].
  destruct (split sep s); discriminate.
Qed.

Lemma _strip_extension_cons c s :
  _strip_extension (String c s)
  = if Ascii.eqb c dot then EmptyString else String c (_strip_extension s).
Proof.
  unfold _strip_extension. cbn [split].
  destruct (Ascii.eqb c dot); [reflexivity|].
  pose proof (split_nonempty dot s) as Hne.
  destruct (split dot s); [contradiction | reflexivity].
Qed.

Lemma split_dotless s : has_dot s = false -> split dot s = [s].
Proof.
  induction s as [|c s IH]; cbn [has_dot split]; [reflexivity|].
  intros H. apply orb_false_iff in H as [Hc Hs]. rewrite Hc, (IH Hs). reflexivity.
Qed.

Lemma split_dotted s :
  has_dot s = true -> exists w x ws, split dot s = w :: x :: ws.
Proof.
  induction s as [|c s IH]; cbn [has_dot split]; [discriminate|].
  destruct (Ascii.eqb c dot) eqn:Hc; cbn [orb].
  - intros _. pose proof (split_nonempty dot s) as Hne.
    destruct (split dot s) as [|x ws]; [contradiction|]. eauto.
  - intros Hs. destruct (IH Hs) as (w & x & ws & ->). eauto.
Qed.

Lemma _get_extension_cons c s :
  _get_extension (String c s)
  = if Ascii.eqb c dot || has_dot s then _get_extension s else String c s.
Proof.
  unfold _get_extension. cbn [split]. destruct (Ascii.eqb c dot) eqn:Hc; cbn [orb].
  - pose proof (split_nonempty dot s) as Hne.
    destruct (split dot s) as [|x ws]; [contradiction | reflexivity].
  - destruct (has_dot s) eqn:Hs.
    + destruct (split_dotted s Hs) as (w & x & ws & ->). reflexivity.
    + rewrite (split_dotless s Hs). reflexivity.
Qed.

Lemma append_cons c x y : String c x +:+ y = String c (x +:+ y).
Proof. reflexivity. Qed.

Lemma append_nil y : EmptyString +:+ y = y.
Proof. reflexivity. Qed.

Lemma ascii_eqb_dot c : Ascii.eqb c dot = true -> c = dot.
Proof. apply Ascii.eqb_eq. Qed.

(** X1. [_strip_extension] returns the part of the path before its first
    dot: the result has no dot, a path without a dot is returned whole, and
    otherwise the path is the result, a dot, and a remainder. *)
Theorem X1_strip_extension_first_dot path :
  has_dot (_strip_extension path) = false
  /\ (has_dot path = false -> _strip_extension path = path)
  /\ (has_dot path = true ->
      exists rest, path = _strip_extension path +:+ "." +:+ rest).
Proof.
  induction path as [|c s (IH1 & IH2 & IH3)].
  - repeat split; [discriminate].
  - rewrite _strip_extension_cons. cbn [has_dot].
    destruct (Ascii.eqb c dot) eqn:Hc; cbn [orb].
    + split; [reflexivity|]. split; [discriminate|]. intros _.
      exists s. rewrite (ascii_eqb_dot c Hc). reflexivity.
    + cbn [has_dot]. rewrite Hc, IH1. split; [reflexivity|]. split.
      * intros Hs. rewrite (IH2 Hs). reflexivity.
      * intros Hs. destruct (IH3 Hs) as [rest Hrest]. exists rest.
        rewrite append_cons. f_equal. exact Hrest.
Qed.

Lemma X1_strip_extension_first_dot_witness :
  exists rest, "src/lib.tar.gz" = _strip_extension "src/lib.tar.gz" +:+ "." +:+ rest.
Proof.
  exact (proj2 (proj2 (X1_strip_extension_first_dot "src/lib.tar.gz")) eq_refl).
Defined.

(** X2. [_get_extension] returns the part of the path after its last dot:
    the result has no dot and the path ends with a dot and the result.  A
    path without a dot is returned whole, not as an empty extension. *)
Theorem X2_get_extension_last_dot path :
  has_dot (_get_extension path) = false
  /\ (has_dot path = false -> _get_extension path = path)
  /\ (has_dot path = true ->
      exists stem, path = stem +:+ "." +:+ _get_extension path).
Proof.
  induction path as [|c s (IH1 & IH2 & IH3)].
  - repeat split; [discriminate].
  - rewrite _get_extension_cons. cbn [has_dot].
    destruct (Ascii.eqb c dot) eqn:Hc; cbn [orb].
    + split; [exact IH1|]. split; [discriminate|]. intros _.
      rewrite (ascii_eqb_dot c Hc). destruct (has_dot s) eqn:Hs.
      * destruct (IH3 eq_refl) as [stem Hstem]. exists (String dot stem).
        rewrite append_cons. f_equal. exact Hstem.
      * exists EmptyString. rewrite (IH2 eq_refl). reflexivity.
    + destruct (has_dot s) eqn:Hs.
      * split; [exact IH1|]. split; [discriminate|]. intros _.
        destruct (IH3 eq_refl) as [stem Hstem]. exists (String c stem).
        rewrite append_cons. f_equal. exact Hstem.
      * cbn [has_dot]. rewrite Hc, Hs. split; [reflexivity|].
        split; [reflexivity | discriminate].
Qed.

Lemma X2_get_extension_last_dot_witness : _get_extension "Makefile" = "Makefile".
Proof. exact (proj1 (proj2 (X2_get_extension_last_dot "Makefile")) eq_refl). Defined.

Lemma _get_extension_dotless x : has_dot x = false -> _get_extension x = x.
Proof. intros H. unfold _get_extension. rewrite (split_dotless x H). reflexivity. Qed.

Lemma _strip_extension_has_no_dot path : has_dot (_strip_extension path) = false.
Proof.
  induction path as [|c s IH]; [reflexivity|].
  rewrite _strip_extension_cons. destruct (Ascii.eqb c dot) eqn:Hc; [reflexivity|].
  cbn [has_dot]. rewrite Hc, IH. reflexivity.
Qed.

Lemma _strip_extension_app_dot w x :
  has_dot w = false -> _strip_extension (w +:+ "." +:+ x) = w.
Proof.
  induction w as [|c w IH]; cbn [has_dot]; intros H.
  - reflexivity.
  - apply orb_false_iff in H as [Hc Hw].
    rewrite append_cons, _strip_extension_cons, Hc, (IH Hw). reflexivity.
Qed.

Lemma has_dot_app_dot w x : has_dot (w +:+ "." +:+ x) = true.
Proof.
  induction w as [|c w IH]; [reflexivity|].
  rewrite append_cons. cbn [has_dot]. rewrite IH. apply orb_true_r.
Qed.

Lemma _get_extension_app_dot w x :
  has_dot x = false -> _get_extension (w +:+ "." +:+ x) = x.
Proof.
  intros Hx. induction w as [|c w IH].
  - rewrite append_nil, append_cons, append_nil, _get_extension_cons.
    change (Ascii.eqb "."%char dot) with true. cbn [orb].
    apply _get_extension_dotless. exact Hx.
  - rewrite append_cons, _get_extension_cons, has_dot_app_dot, orb_true_r.
    exact IH.
Qed.

(** X3. Changing the extension to a dotted one can be read back and is
    idempotent: the new path has the new extension, the same stem as the
    old path, and changing it again to the same extension leaves it as it
    is (the object path of an object path is itself). *)
Theorem X3_change_extension_round_trip path e :
  has_dot e = false ->
  _get_extension (_change_extension path ("." +:+ e)) = e
  /\ _strip_extension (_change_extension path ("." +:+ e)) = _strip_extension path
  /\ _change_extension (_change_extension path ("." +:+ e)) ("." +:+ e)
     = _change_extension path ("." +:+ e).
Proof.
  intros He. pose proof (_strip_extension_has_no_dot path) as Hstem.
  unfold _change_extension at 1 2 3 5.
  split; [apply _get_extension_app_dot; exact He|].
  assert (H : _strip_extension (_strip_extension path +:+ "." +:+ e)
              = _strip_extension path)
    by (apply _strip_extension_app_dot; exact Hstem).
  split; [exact H|]. unfold _change_extension. rewrite H. reflexivity.
Qed.

Lemma X3_change_extension_round_trip_witness :
  _get_extension (_change_extension "main.c" _object_ext) = "o"
  /\ _change_extension (_change_extension "main.c" _object_ext) _object_ext
     = _change_extension "main.c" _object_ext.
Proof.
  destruct (X3_change_extension_round_trip "main.c" "o" eq_refl) as (H1 & _ & H3).
  split; [exact H1 | exact H3].
Defined.

(** ** Timestamps *)

(** X4. A file is NOT stale relative to a reference time exactly when its
    time lies between the epoch and the reference.  So a missing file,
    whose time reads as -1, is stale relative to everything, and every file
    is stale relative to a missing reference. *)
Theorem X4_staleness :
  (forall t1 t2, _cmp_timestamp t1 t2 = false <-> 0 <= t1 <= t2)
  /\ (forall fs path T,
        files fs !! path = None ->
        _cmp_timestamp (opt_mod_time fs path) T = true)
  /\ (forall fs path reference,
        files fs !! reference = None ->
        _cmp_timestamp (opt_mod_time fs path) (opt_mod_time fs reference) = true).
Proof.
  assert (H : forall t1 t2, _cmp_timestamp t1 t2 = false <-> 0 <= t1 <= t2).
  { intros t1 t2. unfold _cmp_timestamp. rewrite orb_false_iff, Z.gtb_ltb.
    rewrite !Z.ltb_ge. tauto. }
  split; [exact H|]. split.
  - intros fs path T Hnone. rewrite (opt_mod_time_None _ _ Hnone).
    destruct (_cmp_timestamp (-1) T) eqn:E; [reflexivity|]. apply H in E. lia.
  - intros fs path reference Hnone. rewrite (opt_mod_time_None _ _ Hnone).
    destruct (_cmp_timestamp (opt_mod_time fs path) (-1)) eqn:E; [reflexivity|].
    apply H in E. lia.
Qed.

Lemma X4_staleness_witness :
  _cmp_timestamp (opt_mod_time Examples.util_built "util.c")
    (opt_mod_time Examples.util_built "front") = true.
Proof.
  exact (proj2 (proj2 X4_staleness) Examples.util_built "util.c" "front" eq_refl).
Defined.

Lemma bind_congr {A B} (m m' : M A) (k k' : A -> M B) fs :
  m fs = m' fs -> (forall a fs1, k a fs1 = k' a fs1) ->
  bind m k fs = bind m' k' fs.
Proof.
  intros Hm Hk. unfold bind. rewrite Hm.
  destruct (m' fs); try reflexivity. rewrite Hk. reflexivity.
Qed.

(** ** The link walk *)

Lemma link_dependency_linkable G dep_name objs links :
  link_dependency G dep_name (objs, links)
  = if linkable G dep_name
    then Some (objs ++ dep_objects G dep_name, links ++ dep_links G dep_name)
    else None.
Proof.
  unfold link_dependency, linkable, dep_objects, dep_links.
  destruct (_targets G !! dep_name) as [dep|].
  - destruct (Target.type dep); rewrite ?app_nil_r; reflexivity.
  - destruct (_external_dependencies G !! dep_name) as [dep|]; [|reflexivity].
    destruct (ExtDep.type dep); rewrite ?app_nil_r; reflexivity.
Qed.

Lemma link_dependencies_linkable G names : forall objs links,
  link_dependencies G names (objs, links)
  = if forallb (linkable G) names
    then Some (objs ++ flat_map (dep_objects G) names,
               links ++ flat_map (dep_links G) names)
    else None.
Proof.
  induction names as [|n names IH]; intros objs links;
    cbn [link_dependencies forallb flat_map].
  - rewrite !app_nil_r. reflexivity.
  - rewrite link_dependency_linkable. destruct (linkable G n); [|reflexivity].
    cbn [andb]. rewrite IH. rewrite <- !app_assoc. reflexivity.
Qed.

(** X5. The walk that folds the dependencies into the link line succeeds
    exactly when every name is linkable (a registered StaticLib target, or
    an external StaticLib or SystemLib no target shadows); it then appends
    to the objects and to the link flags what each name contributes, in
    declared order.  One Executable or DynamicLib target, one external
    DynamicLib or one unknown name makes the whole walk fail. *)
Theorem X5_link_walk G names objs links :
  link_dependencies G names (objs, links)
  = if forallb (linkable G) names
    then Some (objs ++ flat_map (dep_objects G) names,
               links ++ flat_map (dep_links G) names)
    else None.
Proof. apply link_dependencies_linkable. Qed.

Section Shadowing.

Variable spawn : list string -> FS -> FS.
Variable G : Globals.
Variables exts exts' : gmap string ExtDep.t.
Hypothesis agree : agree_off_targets G exts exts'.

Lemma link_dependencies_shadowed names : forall acc,
  link_dependencies (with_external_dependencies G exts) names acc
  = link_dependencies (with_external_dependencies G exts') names acc.
Proof.
  induction names as [|n names IH]; intros acc; [reflexivity|].
  cbn [link_dependencies].
  assert (H : link_dependency (with_external_dependencies G exts) n acc
              = link_dependency (with_external_dependencies G exts') n acc).
  { unfold link_dependency. destruct acc as [objs links].
    cbn [with_external_dependencies _targets _external_dependencies].
    destruct (_targets G !! n) as [dep|] eqn:E; [reflexivity|].
    rewrite (agree n E). reflexivity. }
  rewrite H. clear H.
  destruct (link_dependency (with_external_dependencies G exts') n acc);
    [apply IH | reflexivity].
Qed.

Lemma update_dependencies_shadowed rec rec' force T indent names :
  (forall dep indent' fs, rec dep force T indent' fs = rec' dep force T indent' fs) ->
  forall rebuild fs,
    update_dependencies (with_external_dependencies G exts) rec force T indent
      names rebuild fs
    = update_dependencies (with_external_dependencies G exts') rec' force T
        indent names rebuild fs.
Proof.
  intros Hrec. induction names as [|n names IH]; intros rebuild fs;
    [reflexivity|].
  cbn [update_dependencies with_external_dependencies _targets
       _external_dependencies].
  apply bind_congr; [|intros r fs1; apply IH].
  destruct (_targets G !! n) as [dep|] eqn:E.
  - apply bind_ext. intros _ fs1. apply bind_congr; [apply Hrec | reflexivity].
  - rewrite (agree n E). reflexivity.
Qed.

Lemma _opt_build_shadowed fuel : forall self force timestamp indent fs,
  _opt_build spawn (with_external_dependencies G exts) fuel self force
    timestamp indent fs
  = _opt_build spawn (with_external_dependencies G exts') fuel self force
      timestamp indent fs.
Proof.
  induction fuel as [|fuel IH]; intros self force timestamp indent fs;
    [reflexivity|].
  rewrite !_opt_build_unfold.
  apply bind_congr.
  - apply update_dependencies_shadowed. intros dep i fs0. apply IH.
  - intros r1 fs1. apply bind_ext. intros r2 fs2. rewrite !finish_run.
    destruct (r2 || force); [|reflexivity].
    unfold bind. rewrite !build_target_run, link_dependencies_shadowed.
    reflexivity.
Qed.

End Shadowing.

(** X6. A name registered both as a target and as an external dependency
    is a target to the build: two registries of external dependencies that
    differ only at names of registered targets give the same build. *)
Theorem X6_target_shadows_external spawn G exts exts' fuel self force
    timestamp indent fs :
  agree_off_targets G exts exts' ->
  _opt_build spawn (with_external_dependencies G exts) fuel self force
    timestamp indent fs
  = _opt_build spawn (with_external_dependencies G exts') fuel self force
      timestamp indent fs.
Proof. intros H. apply _opt_build_shadowed. exact H. Qed.

Lemma shadowed_agree :
  agree_off_targets Examples.project MoreExamples.shadowed_exts
    MoreExamples.plain_exts.
Proof.
  intros n Hn. unfold MoreExamples.shadowed_exts.
  destruct (decide ("util" = n)) as [<- | Hne].
  - vm_compute in Hn. discriminate Hn.
  - apply lookup_insert_ne. exact Hne.
Qed.

Lemma X6_target_shadows_external_witness :
  _opt_build ideal_spawn
    (with_external_dependencies Examples.project MoreExamples.shadowed_exts)
    2 Examples.app false 0 0 (Examples.fresh_checkout ["main.c"; "util.c"])
  = _opt_build ideal_spawn
      (with_external_dependencies Examples.project MoreExamples.plain_exts)
      2 Examples.app false 0 0 (Examples.fresh_checkout ["main.c"; "util.c"]).
Proof.
  exact (X6_target_shadows_external ideal_spawn Examples.project
           MoreExamples.shadowed_exts MoreExamples.plain_exts 2 Examples.app
           false 0 0%nat (Examples.fresh_checkout ["main.c"; "util.c"])
           shadowed_agree).
Defined.

(** ** Dependencies that cannot be used *)

Section BadDependencies.

Variable spawn : list string -> FS -> FS.
Variable G : Globals.

Lemma update_dependencies_stops rec force T indent n later before :
  _targets G !! n = None ->
  _external_dependencies G !! n = None ->
  forall rebuild fs,
    update_dependencies G rec force T indent (before ++ n :: later) rebuild fs
    = (update_dependencies G rec force T indent before rebuild ;;; _error) fs.
Proof.
  intros Hn Hext. induction before as [|b before IH]; intros rebuild fs.
  - cbn [app]. rewrite (update_dependencies_unknown G _ _ _ _ _ _ _ _ Hn Hext).
    reflexivity.
  - cbn [app update_dependencies]. rewrite bind_assoc.
    apply bind_ext. intros r fs1. apply IH.
Qed.

Lemma _opt_build_unknown_dependency fuel self force timestamp indent fs
    before n later :
  Target.deps self = before ++ n :: later ->
  _targets G !! n = None ->
  _external_dependencies G !! n = None ->
  _opt_build spawn G (S fuel) self force timestamp indent fs
  = (update_dependencies G (_opt_build spawn G fuel) force
       (opt_mod_time fs (get_out_path self)) indent before
       (opt_mod_time fs (get_out_path self) <? 0) ;;;
     _error) fs.
Proof.
  intros Hdeps Hn Hext. rewrite _opt_build_unfold, Hdeps.
  unfold bind at 1.
  rewrite (update_dependencies_stops _ _ _ _ _ _ _ Hn Hext).
  fold (bind (update_dependencies G (_opt_build spawn G fuel) force
                (opt_mod_time fs (get_out_path self)) indent before
                (opt_mod_time fs (get_out_path self) <? 0) ;;; _error)
          (fun rebuild =>
             rebuild0 <- update_object_files spawn G self force
                           (opt_mod_time fs (get_out_path self)) indent
                           (Target.sources self) rebuild ;;
             finish spawn G self force indent rebuild0) fs).
  apply bind_error_bind.
Qed.

Lemma _opt_build_unlinkable fuel self force timestamp indent fs r fs' tr :
  forallb (linkable G) (Target.deps self) = false ->
  _opt_build spawn G fuel self force timestamp indent fs = Done r fs' tr ->
  force = false /\ r = false /\ commands tr = [] /\ fs' = fs.
Proof.
  intros Hbad Hrun. destruct fuel as [|fuel]; [discriminate|].
  pose proof Hrun as Hrun0. rewrite _opt_build_unfold in Hrun.
  apply bind_Done in Hrun as (r1 & fs1 & tr1 & tr' & _ & Hrun & _).
  apply bind_Done in Hrun as (r2 & fs2 & tr2 & tr3 & _ & Hfin & _).
  rewrite finish_run in Hfin. destruct (r2 || force) eqn:Hgo.
  - apply bind_Done in Hfin as ([] & ? & ? & ? & Hlink & _ & _).
    rewrite build_target_run, link_dependencies_linkable, Hbad in Hlink.
    discriminate.
  - injection Hfin as <- _ _. apply orb_false_iff in Hgo as [-> ->].
    pose proof (_opt_build_quiet _ _ _ _ _ _ _ _ _ Hrun0) as Hq.
    pose proof (_opt_build_replay _ _ _ _ _ _ _ _ _ _ _ Hrun0) as Hfs.
    rewrite (replay_quiet _ _ _ Hq) in Hfs. auto.
Qed.

Lemma _opt_build_returns fuel self timestamp indent fs r fs' tr :
  _opt_build spawn G fuel self false timestamp indent fs = Done r fs' tr ->
  (r = false -> commands tr = [] /\ fs' = fs)
  /\ (r = true ->
      exists objs links before,
        link_dependencies G (Target.deps self) (own_objects self, [])
          = Some (objs, links)
        /\ commands tr = before ++ [link_args G self objs links]).
Proof.
  intros Hrun. split.
  - intros ->. pose proof (_opt_build_quiet _ _ _ _ _ _ _ _ _ Hrun) as Hq.
    pose proof (_opt_build_replay _ _ _ _ _ _ _ _ _ _ _ Hrun) as Hfs.
    rewrite (replay_quiet _ _ _ Hq) in Hfs. auto.
  - intros ->. destruct fuel as [|fuel]; [discriminate|].
    rewrite _opt_build_unfold in Hrun.
    apply bind_Done in Hrun as (r1 & fs1 & tr1 & tr' & _ & Hrun & ->).
    apply bind_Done in Hrun as (r2 & fs2 & tr2 & tr3 & _ & Hfin & ->).
    rewrite finish_run in Hfin.
    destruct r2.
    + cbn [orb] in Hfin.
      apply bind_Done in Hfin as ([] & fs3 & tr4 & tr5 & Hlink & Hret & ->).
      injection Hret as _ <-. rewrite build_target_run in Hlink.
      destruct (link_dependencies G (Target.deps self) (own_objects self, []))
        as [[objs links]|]; [|discriminate].
      injection Hlink as _ <-. exists objs, links, (commands tr1 ++ commands tr2).
      split; [reflexivity|]. rewrite !commands_app. cbn [commands].
      rewrite commands_app, commands_echo. cbn [commands app].
      rewrite app_nil_r, app_assoc. reflexivity.
    + cbn [orb] in Hfin. discriminate Hfin.
Qed.

End BadDependencies.

(** X7. A dependency name that is registered nowhere is fatal: the build
    consists of the loop over the dependencies declared before it, then the
    error; the target compiles and links nothing, and never returns. *)
Theorem X7_unknown_dependency spawn G fuel self force timestamp indent fs
    before n later :
  Target.deps self = before ++ n :: later ->
  _targets G !! n = None ->
  _external_dependencies G !! n = None ->
  _opt_build spawn G (S fuel) self force timestamp indent fs
  = (update_dependencies G (_opt_build spawn G fuel) force
       (opt_mod_time fs (get_out_path self)) indent before
       (opt_mod_time fs (get_out_path self) <? 0) ;;;
     _error) fs
  /\ forall r fs' tr,
       _opt_build spawn G (S fuel) self force timestamp indent fs
       <> Done r fs' tr.
Proof.
  intros Hdeps Hn Hext.
  pose proof (_opt_build_unknown_dependency spawn G fuel self force timestamp
                indent fs before n later Hdeps Hn Hext) as Heq.
  split; [exact Heq|]. intros r fs' tr. rewrite Heq. apply bind_error_not_Done.
Qed.

Lemma X7_unknown_dependency_witness :
  exists fs',
    _opt_build ideal_spawn Examples.project 2 MoreExamples.orphan false 0 0
      (Examples.fresh_checkout ["orphan.c"; "util.c"])
    = Fatal fs'
        [checking_line "util" 0;
         compiling_line "util.c" 1;
         Run ["gcc"; "-c"; "util.c"; "-o"; "util.o"];
         building_line Examples.util 1;
         Run ["ar"; "rcs"; "util.a"; "util.o"];
         completed_line 1].
Proof.
  eexists.
  rewrite (proj1 (X7_unknown_dependency ideal_spawn Examples.project 1
             MoreExamples.orphan false 0 0%nat
             (Examples.fresh_checkout ["orphan.c"; "util.c"])
             ["util"] "nowhere" ["m"] eq_refl eq_refl eq_refl)).
  reflexivity.
Defined.

(** X8. A target with a dependency the link walk does not accept (an
    Executable or DynamicLib target, an external DynamicLib, an unknown
    name) returns from a build only when there was nothing to do: the
    build was not forced, it returns [false], it issued no command and left
    the file system as it was.  The bad declaration goes unnoticed until
    the target needs a relink. *)
Theorem X8_unlinkable_dependency spawn G fuel self force timestamp indent fs
    r fs' tr :
  forallb (linkable G) (Target.deps self) = false ->
  _opt_build spawn G fuel self force timestamp indent fs = Done r fs' tr ->
  force = false /\ r = false /\ commands tr = [] /\ fs' = fs.
Proof. apply _opt_build_unlinkable. Qed.

Lemma X8_unlinkable_dependency_witness :
  _opt_build ideal_spawn Examples.project 3 MoreExamples.runner false 0 0
    MoreExamples.all_built
  = Done false MoreExamples.all_built
      [checking_line "app" 0;
       checking_line "util" 1;
       source_up_to_date_line "util.c" 2;
       up_to_date_line Examples.util 2;
       source_up_to_date_line "main.c" 1;
       up_to_date_line Examples.app 1;
       source_up_to_date_line "runner.c" 0;
       up_to_date_line MoreExamples.runner 0]
  /\ commands
       [checking_line "app" 0;
        checking_line "util" 1;
        source_up_to_date_line "util.c" 2;
        up_to_date_line Examples.util 2;
        source_up_to_date_line "main.c" 1;
        up_to_date_line Examples.app 1;
        source_up_to_date_line "runner.c" 0;
        up_to_date_line MoreExamples.runner 0] = [].
Proof.
  split; [reflexivity|].
  exact (proj1 (proj2 (proj2 (X8_unlinkable_dependency ideal_spawn
           Examples.project 3 MoreExamples.runner false 0 0%nat
           MoreExamples.all_built _ _ _ eq_refl eq_refl)))).
Defined.

(** X9. Without [force] the comment of [_opt_build], "returns True if
    rebuilt", holds: a build that returns [false] has issued no command and
    changed nothing, and a build that returns [true] has issued the
    archive/link command of the target as its last command. *)
Theorem X9_returns_true_if_rebuilt spawn G fuel self timestamp indent fs
    r fs' tr :
  _opt_build spawn G fuel self false timestamp indent fs = Done r fs' tr ->
  (r = false -> commands tr = [] /\ fs' = fs)
  /\ (r = true ->
      exists objs links before,
        link_dependencies G (Target.deps self) (own_objects self, [])
          = Some (objs, links)
        /\ commands tr = before ++ [link_args G self objs links]).
Proof. apply _opt_build_returns. Qed.

Lemma X9_returns_true_if_rebuilt_witness :
  exists before,
    commands (events (_opt_build ideal_spawn Examples.project 2 Examples.app
                        false 0 0 (Examples.fresh_checkout ["main.c"; "util.c"])))
    = before ++ [["gcc"; "-O2"; "main.o"; "util.a"; "-o"; "app"; "-lm"]].
Proof.
  destruct (proj2 (X9_returns_true_if_rebuilt ideal_spawn Examples.project 2
              Examples.app 0 0%nat (Examples.fresh_checkout ["main.c"; "util.c"])
              _ _ _ eq_refl) eq_refl) as (objs & links & before & Hlink & Hcmds).
  injection Hlink as <- <-. exists before. exact Hcmds.
Defined.

(** ** What a build recompiles *)

Lemma _cmp_timestamp_negative_reference t T : T < 0 -> _cmp_timestamp t T = true.
Proof.
  intros HT. unfold _cmp_timestamp. apply orb_true_iff.
  destruct (Z.ltb_spec t 0); [left; reflexivity|].
  right. rewrite Z.gtb_ltb. apply Z.ltb_lt. lia.
Qed.

Section Recompiles.

Variable spawn : list string -> FS -> FS.
Variable G : Globals.

Lemma update_object_files_all self force T indent srcs :
  force = true \/ T < 0 ->
  forall rebuild fs r fs' tr,
    update_object_files spawn G self force T indent srcs rebuild fs
      = Done r fs' tr ->
    commands tr = map (compile_args G self) srcs.
Proof.
  intros Hall. induction srcs as [|s srcs IH]; intros rebuild fs r fs' tr Hrun.
  - cbn in Hrun. injection Hrun as _ _ <-. reflexivity.
  - rewrite update_object_files_cons in Hrun.
    apply bind_Done in Hrun as (r1 & fs1 & tr1 & tr2 & Hone & Hrest & ->).
    rewrite update_object_file_run in Hone.
    destruct (negb (path_exists fs s)); [discriminate|].
    assert (Hstale : _cmp_timestamp (opt_mod_time fs s) T
                     || negb (path_exists fs (_change_extension s _object_ext))
                     || force = true).
    { destruct Hall as [-> | HT]; [apply orb_true_r|].
      rewrite (_cmp_timestamp_negative_reference _ _ HT). reflexivity. }
    rewrite Hstale in Hone. injection Hone as _ _ <-.
    rewrite commands_app. cbn [commands map].
    rewrite commands_app, commands_echo. cbn [commands app].
    rewrite (IH _ _ _ _ _ Hrest). reflexivity.
Qed.

Lemma update_dependencies_commands rec force T indent
    (cmds : Target.t -> list (list string)) names :
  (forall dep fs r fs' tr,
      rec dep force T (S indent) fs = Done r fs' tr -> commands tr = cmds dep) ->
  forall rebuild fs r fs' tr,
    update_dependencies G rec force T indent names rebuild fs = Done r fs' tr ->
    commands tr
    = flat_map (fun dep_name =>
                  match _targets G !! dep_name with
                  | Some dep => cmds dep
                  | None => []
                  end) names.
Proof.
  intros Hrec. induction names as [|n names IH]; intros rebuild fs r fs' tr Hrun.
  - cbn in Hrun. injection Hrun as _ _ <-. reflexivity.
  - cbn [flat_map]. destruct (_targets G !! n) as [dep|] eqn:E.
    + rewrite (update_dependencies_target G _ _ _ _ _ _ _ _ _ E) in Hrun.
      apply bind_Done in Hrun as ([] & fs0 & tr0 & tr' & Hp & Hrun & ->).
      injection Hp as <- <-.
      apply bind_Done in Hrun as (r1 & fs1 & tr1 & tr2 & Hd & Hrest & ->).
      cbn [app commands]. rewrite commands_app, (Hrec _ _ _ _ _ Hd),
        (IH _ _ _ _ _ Hrest). reflexivity.
    + destruct (_external_dependencies G !! n) as [ext|] eqn:Hext.
      * rewrite (update_dependencies_external G _ _ _ _ _ _ _ _ _ E Hext) in Hrun.
        apply (IH _ _ _ _ _ Hrun).
      * rewrite (update_dependencies_unknown G _ _ _ _ _ _ _ _ E Hext) in Hrun.
        discriminate.
Qed.

Lemma finish_commands self force indent rebuild fs r fs' tr :
  finish spawn G self force indent rebuild fs = Done r fs' tr ->
  r = rebuild
  /\ if rebuild || force
     then exists objs links,
            link_dependencies G (Target.deps self) (own_objects self, [])
              = Some (objs, links)
            /\ commands tr = [link_args G self objs links]
     else commands tr = [].
Proof.
  rewrite finish_run. destruct (rebuild || force).
  - intros Hfin.
    apply bind_Done in Hfin as ([] & fs3 & tr4 & tr5 & Hlink & Hret & ->).
    injection Hret as <- _ <-. split; [reflexivity|].
    rewrite build_target_run in Hlink.
    destruct (link_dependencies G (Target.deps self) (own_objects self, []))
      as [[objs links]|]; [|discriminate].
    injection Hlink as _ <-. exists objs, links. split; [reflexivity|].
    rewrite app_nil_r. cbn [commands].
    rewrite commands_app, commands_echo. reflexivity.
  - intros [= <- _ <-]. split; reflexivity.
Qed.

Lemma _opt_build_forced fuel : forall self timestamp indent fs r fs' tr,
  _opt_build spawn G fuel self true timestamp indent fs = Done r fs' tr ->
  commands tr = forced_commands G fuel self.
Proof.
  induction fuel as [|fuel IH]; intros self timestamp indent fs r fs' tr Hrun;
    [discriminate|].
  rewrite _opt_build_unfold in Hrun.
  apply bind_Done in Hrun as (r1 & fs1 & tr1 & tr' & Hdeps & Hrun & ->).
  apply bind_Done in Hrun as (r2 & fs2 & tr2 & tr3 & Hsrcs & Hfin & ->).
  cbn [forced_commands]. rewrite !commands_app.
  rewrite (update_dependencies_commands _ _ _ _ (forced_commands G fuel) _
             (fun dep fs0 r0 fs0' tr0 H => IH dep _ _ _ _ _ _ H)
             _ _ _ _ _ Hdeps).
  rewrite (update_object_files_all _ _ _ _ _ (or_introl eq_refl) _ _ _ _ _ Hsrcs).
  apply finish_commands in Hfin as [_ Hfin]. rewrite orb_true_r in Hfin.
  destruct Hfin as (objs & links & -> & ->). reflexivity.
Qed.

Lemma _opt_build_missing_output fuel self force timestamp indent fs r fs' tr :
  files fs !! get_out_path self = None ->
  _opt_build spawn G (S fuel) self force timestamp indent fs = Done r fs' tr ->
  r = true
  /\ exists r1 fs1 tr1 objs links,
      update_dependencies G (_opt_build spawn G fuel) force (-1) indent
        (Target.deps self) true fs = Done r1 fs1 tr1
      /\ link_dependencies G (Target.deps self) (own_objects self, [])
         = Some (objs, links)
      /\ commands tr
         = commands tr1 ++ map (compile_args G self) (Target.sources self)
           ++ [link_args G self objs links].
Proof.
  intros Hnone Hrun. rewrite _opt_build_unfold in Hrun.
  rewrite (opt_mod_time_None _ _ Hnone) in Hrun.
  change (-1 <? 0) with true in Hrun.
  apply bind_Done in Hrun as (r1 & fs1 & tr1 & tr' & Hdeps & Hrun & ->).
  apply bind_Done in Hrun as (r2 & fs2 & tr2 & tr3 & Hsrcs & Hfin & ->).
  pose proof (update_dependencies_flag _ _ _ _ _ _ _ _ _ _ _ Hdeps) as Hf1.
  assert (r1 = true) by (apply Hf1; left; reflexivity). subst r1.
  pose proof (update_object_files_flag _ _ _ _ _ _ _ _ _ _ _ _ Hsrcs) as [_ Hf2].
  assert (r2 = true) by (apply Hf2; left; reflexivity). subst r2.
  apply finish_commands in Hfin as [-> Hfin]. cbn [orb] in Hfin.
  destruct Hfin as (objs & links & Hlink & Hcmd).
  split; [reflexivity|]. exists true, fs1, tr1, objs, links.
  split; [exact Hdeps|]. split; [exact Hlink|].
  rewrite !commands_app, Hcmd.
  assert (Hneg : -1 < 0) by lia.
  rewrite (update_object_files_all _ _ _ _ _ (or_intror Hneg) _ _ _ _ _ Hsrcs).
  reflexivity.
Qed.

End Recompiles.

(** X10. The commands of a forced build that returns do not depend on the
    file system: they are the commands of a forced build of every
    dependency that is a registered target, in declared order, then the
    compile command of every source in declared order, then the
    archive/link command.  A target that several dependants share is
    rebuilt once for each of them. *)
Theorem X10_forced_build spawn G fuel self timestamp indent fs r fs' tr :
  _opt_build spawn G fuel self true timestamp indent fs = Done r fs' tr ->
  commands tr = forced_commands G fuel self.
Proof. apply _opt_build_forced. Qed.

Lemma X10_forced_build_witness :
  forced_commands Examples.project 2 Examples.app
  = [["gcc"; "-c"; "util.c"; "-o"; "util.o"];
     ["ar"; "rcs"; "util.a"; "util.o"];
     ["gcc"; "-c"; "main.c"; "-O2"; "-Iinc"; "-o"; "main.o"];
     ["gcc"; "-O2"; "main.o"; "util.a"; "-o"; "app"; "-lm"]].
Proof.
  rewrite <- (X10_forced_build ideal_spawn Examples.project 2 Examples.app 0
                0%nat MoreExamples.all_built _ _ _ eq_refl).
  reflexivity.
Defined.

(** X11. When the output of a target is missing, a build that returns has
    recompiled EVERY source of the target, whether or not its object was
    current, and then relinked: the reference time is then -1, and every
    source is newer than that. *)
Theorem X11_missing_output_recompiles_all spawn G fuel self force timestamp
    indent fs r fs' tr :
  files fs !! get_out_path self = None ->
  _opt_build spawn G (S fuel) self force timestamp indent fs = Done r fs' tr ->
  r = true
  /\ exists r1 fs1 tr1 objs links,
      update_dependencies G (_opt_build spawn G fuel) force (-1) indent
        (Target.deps self) true fs = Done r1 fs1 tr1
      /\ link_dependencies G (Target.deps self) (own_objects self, [])
         = Some (objs, links)
      /\ commands tr
         = commands tr1 ++ map (compile_args G self) (Target.sources self)
           ++ [link_args G self objs links].
Proof. apply _opt_build_missing_output. Qed.

Lemma X11_missing_output_recompiles_all_witness :
  commands (events (_opt_build ideal_spawn Examples.project 2 Examples.app
                      false 0 0 MoreExamples.output_deleted))
  = [["gcc"; "-c"; "main.c"; "-O2"; "-Iinc"; "-o"; "main.o"];
     ["gcc"; "-O2"; "main.o"; "util.a"; "-o"; "app"; "-lm"]]
  /\ stale_source MoreExamples.output_deleted 3 "main.c" = false.
Proof.
  split; [|reflexivity].
  destruct (X11_missing_output_recompiles_all ideal_spawn Examples.project 1
              Examples.app false 0 0%nat MoreExamples.output_deleted _ _ _
              eq_refl eq_refl)
    as (_ & r1 & fs1 & tr1 & objs & links & Hdeps & Hlink & Hcmds).
  injection Hlink as <- <-. injection Hdeps as _ _ <-.
  exact Hcmds.
Defined.

(** ** Only what is stale is recompiled *)

Lemma opt_mod_time_touch_ne p q fs :
  p <> q -> opt_mod_time (touch p fs) q = opt_mod_time fs q.
Proof.
  intros Hne. unfold opt_mod_time, getmtime.
  rewrite (path_exists_touch_ne _ _ _ Hne), files_touch.
  destruct (decide (p = q)); [contradiction | reflexivity].
Qed.

Lemma stale_source_touch p s T fs :
  p <> s -> p <> _change_extension s _object_ext ->
  stale_source (touch p fs) T s = stale_source fs T s.
Proof.
  intros H1 H2. unfold stale_source.
  rewrite (opt_mod_time_touch_ne _ _ _ H1), (path_exists_touch_ne _ _ _ H2).
  reflexivity.
Qed.

Section Minimal.

Variable spawn : list string -> FS -> FS.
Variable G : Globals.
Variable self : Target.t.

Hypothesis compiles : forall s fs,
  In s (Target.sources self) ->
  spawn (compile_args G self s) fs = touch (_change_extension s _object_ext) fs.
Hypothesis separate : forall s s0,
  In s (Target.sources self) -> In s0 (Target.sources self) ->
  _change_extension s0 _object_ext <> s.

Lemma update_object_files_stale T indent srcs :
  (forall s, In s srcs -> In s (Target.sources self)) ->
  NoDup (map (fun s => _change_extension s _object_ext) srcs) ->
  forall rebuild fs r fs' tr,
    update_object_files spawn G self false T indent srcs rebuild fs
      = Done r fs' tr ->
    commands tr
      = map (compile_args G self) (List.filter (stale_source fs T) srcs)
    /\ r = rebuild || existsb (stale_source fs T) srcs.
Proof.
  induction srcs as [|s srcs IH]; intros Hsub Hnodup rebuild fs r fs' tr Hrun.
  - cbn in Hrun. injection Hrun as <- _ <-. rewrite orb_false_r. auto.
  - rewrite update_object_files_cons in Hrun.
    apply bind_Done in Hrun as (r1 & fs1 & tr1 & tr2 & Hone & Hrest & ->).
    assert (Hs : In s (Target.sources self)) by (apply Hsub; left; reflexivity).
    assert (Hsub' : forall x, In x srcs -> In x (Target.sources self))
      by (intros x Hx; apply Hsub; right; exact Hx).
    cbn [map] in Hnodup. apply NoDup_cons in Hnodup as [Hfresh Hnodup].
    rewrite update_object_file_run in Hone.
    destruct (negb (path_exists fs s)); [discriminate|].
    rewrite orb_false_r in Hone. fold (stale_source fs T s) in Hone.
    cbn [List.filter existsb].
    destruct (stale_source fs T s) eqn:Hstale.
    + injection Hone as <- <- <-. rewrite (compiles s fs Hs) in Hrest.
      destruct (IH Hsub' Hnodup _ _ _ _ _ Hrest) as [Hcmds Hr].
      assert (Hsame : forall x, In x srcs ->
                stale_source (touch (_change_extension s _object_ext) fs) T x
                = stale_source fs T x).
      { intros x Hx. apply stale_source_touch.
        - apply separate; [apply Hsub'; exact Hx | exact Hs].
        - intros Heq. apply Hfresh. rewrite Heq. apply list_elem_of_In.
          apply (in_map (fun y => _change_extension y _object_ext)). exact Hx. }
      split.
      * rewrite commands_app. cbn [commands map].
        rewrite commands_app, commands_echo. cbn [commands app].
        rewrite Hcmds. f_equal. f_equal. apply filter_ext_in. exact Hsame.
      * rewrite Hr. cbn [orb]. rewrite orb_true_r. reflexivity.
    + injection Hone as <- <- <-. cbn [app commands orb].
      apply (IH Hsub' Hnodup _ _ _ _ _ Hrest).
Qed.

Lemma _opt_build_minimal fuel timestamp indent fs r fs' tr :
  NoDup (map (fun s => _change_extension s _object_ext) (Target.sources self)) ->
  _opt_build spawn G (S fuel) self false timestamp indent fs = Done r fs' tr ->
  exists r1 fs1 tr1 tail,
    update_dependencies G (_opt_build spawn G fuel) false
      (opt_mod_time fs (get_out_path self)) indent (Target.deps self)
      (opt_mod_time fs (get_out_path self) <? 0) fs = Done r1 fs1 tr1
    /\ r = r1 || existsb (stale_source fs1 (opt_mod_time fs (get_out_path self)))
                   (Target.sources self)
    /\ commands tr
       = commands tr1
         ++ map (compile_args G self)
              (List.filter (stale_source fs1 (opt_mod_time fs (get_out_path self)))
                 (Target.sources self))
         ++ tail
    /\ if r
       then exists objs links,
              link_dependencies G (Target.deps self) (own_objects self, [])
                = Some (objs, links)
              /\ tail = [link_args G self objs links]
       else tail = [].
Proof.
  intros Hnodup Hrun. rewrite _opt_build_unfold in Hrun.
  apply bind_Done in Hrun as (r1 & fs1 & tr1 & tr' & Hdeps & Hrun & ->).
  apply bind_Done in Hrun as (r2 & fs2 & tr2 & tr3 & Hsrcs & Hfin & ->).
  destruct (update_object_files_stale _ indent (Target.sources self)
              (fun s Hs => Hs) Hnodup _ _ _ _ _ Hsrcs) as [Hcmds Hr2].
  apply finish_commands in Hfin as [-> Hfin]. rewrite orb_false_r in Hfin.
  exists r1, fs1, tr1, (commands tr3).
  split; [exact Hdeps|]. split; [exact Hr2|].
  split; [rewrite !commands_app, Hcmds; reflexivity|].
  destruct r2.
  - destruct Hfin as (objs & links & Hlink & Hcmd). eauto.
  - exact Hfin.
Qed.

End Minimal.

(** X12. Let the compile commands of a target write their objects, let no
    object of the target be one of its sources, and let its sources have
    distinct objects.  Then an unforced build that returns has compiled
    exactly the sources that were stale once the dependencies were done
    (newer than the output as it was when the build started, or without an
    object), in declared order, and no other source of the target; it has
    relinked exactly when it returns [true], that is when a dependency
    returned [true], the output was missing or some source was stale. *)
Theorem X12_only_stale_sources_recompiled spawn G self fuel timestamp indent
    fs r fs' tr :
  (forall s fs0,
      In s (Target.sources self) ->
      spawn (compile_args G self s) fs0
      = touch (_change_extension s _object_ext) fs0) ->
  (forall s s0,
      In s (Target.sources self) -> In s0 (Target.sources self) ->
      _change_extension s0 _object_ext <> s) ->
  NoDup (map (fun s => _change_extension s _object_ext) (Target.sources self)) ->
  _opt_build spawn G (S fuel) self false timestamp indent fs = Done r fs' tr ->
  exists r1 fs1 tr1 tail,
    update_dependencies G (_opt_build spawn G fuel) false
      (opt_mod_time fs (get_out_path self)) indent (Target.deps self)
      (opt_mod_time fs (get_out_path self) <? 0) fs = Done r1 fs1 tr1
    /\ r = r1 || existsb (stale_source fs1 (opt_mod_time fs (get_out_path self)))
                   (Target.sources self)
    /\ commands tr
       = commands tr1
         ++ map (compile_args G self)
              (List.filter (stale_source fs1 (opt_mod_time fs (get_out_path self)))
                 (Target.sources self))
         ++ tail
    /\ if r
       then exists objs links,
              link_dependencies G (Target.deps self) (own_objects self, [])
                = Some (objs, links)
              /\ tail = [link_args G self objs links]
       else tail = [].
Proof.
  intros Hcompiles Hseparate Hnodup Hrun.
  exact (_opt_build_minimal spawn G self Hcompiles Hseparate fuel timestamp
           indent fs r fs' tr Hnodup Hrun).
Qed.

Lemma X12_only_stale_sources_recompiled_witness :
  commands (events (_opt_build ideal_spawn MoreExamples.trio_project 1
                      MoreExamples.trio false 0 0 MoreExamples.b_edited))
  = [["gcc"; "-c"; "b.c"; "-o"; "b.o"];
     ["gcc"; "a.o"; "b.o"; "c.o"; "-o"; "trio"]].
Proof.
  edestruct (X12_only_stale_sources_recompiled ideal_spawn
              MoreExamples.trio_project MoreExamples.trio 0 0 0%nat
              MoreExamples.b_edited)
    as (r1 & fs1 & tr1 & tail & Hdeps & _ & Hcmds & Htail).
  - intros s fs0 [<- | [<- | [<- | []]]]; reflexivity.
  - intros s s0 [<- | [<- | [<- | []]]] [<- | [<- | [<- | []]]]; discriminate.
  - repeat constructor; rewrite list_elem_of_In; cbn;
      intros H; repeat (destruct H as [H|H]; [discriminate H|]); exact H.
  - reflexivity.
  - injection Hdeps as _ <- <-.
    destruct Htail as (objs & links & Hlink & ->). injection Hlink as <- <-.
    exact Hcmds.
Defined.

(** ** Termination *)

Lemma fueled_after_inv {A} tr (r : result A) : fueled (after tr r) -> fueled r.
Proof. destruct r; auto. Qed.

Lemma fueled_bind_inv {A B} (m : M A) (k : A -> M B) fs :
  fueled (bind m k fs) ->
  fueled (m fs)
  /\ forall a fs1 tr1, m fs = Done a fs1 tr1 -> fueled (k a fs1).
Proof.
  unfold bind. destruct (m fs) as [a fs1 tr1| |]; intros H.
  - split; [exact I|]. intros a' fs' tr' [= <- <- <-].
    exact (fueled_after_inv _ _ H).
  - split; [exact I | discriminate].
  - destruct H.
Qed.

Lemma bind_congr_run {A B} (m m' : M A) (k k' : A -> M B) fs :
  m fs = m' fs ->
  (forall a fs1 tr1, m' fs = Done a fs1 tr1 -> k a fs1 = k' a fs1) ->
  bind m k fs = bind m' k' fs.
Proof.
  intros Hm Hk. unfold bind. rewrite Hm.
  destruct (m' fs) as [a fs1 tr1| |]; try reflexivity.
  rewrite (Hk a fs1 tr1 eq_refl). reflexivity.
Qed.

Section Fuel.

Variable spawn : list string -> FS -> FS.
Variable G : Globals.

Lemma update_dependencies_more_fuel rec rec' force T indent names :
  (forall dep fs,
      fueled (rec dep force T (S indent) fs) ->
      rec' dep force T (S indent) fs = rec dep force T (S indent) fs) ->
  forall rebuild fs,
    fueled (update_dependencies G rec force T indent names rebuild fs) ->
    update_dependencies G rec' force T indent names rebuild fs
    = update_dependencies G rec force T indent names rebuild fs.
Proof.
  intros Hrec. induction names as [|n names IH]; intros rebuild fs Hfuel;
    [reflexivity|].
  cbn [update_dependencies] in *.
  apply fueled_bind_inv in Hfuel as [Hhead Htail].
  apply bind_congr_run.
  - destruct (_targets G !! n) as [dep|]; [|reflexivity].
    apply bind_ext_run. intros [] fs1 tr1 Hp. injection Hp as <- _.
    apply bind_congr; [|reflexivity].
    apply Hrec. unfold bind at 1, print in Hhead. cbn [after] in Hhead.
    apply fueled_after_inv in Hhead.
    apply fueled_bind_inv in Hhead as [Hhead _]. exact Hhead.
  - intros r fs1 tr1 Hdone. apply IH. exact (Htail r fs1 tr1 Hdone).
Qed.

Lemma _opt_build_more_fuel fuel : forall self force timestamp indent fs,
  fueled (_opt_build spawn G fuel self force timestamp indent fs) ->
  _opt_build spawn G (S fuel) self force timestamp indent fs
  = _opt_build spawn G fuel self force timestamp indent fs.
Proof.
  induction fuel as [|fuel IH]; intros self force timestamp indent fs Hfuel;
    [destruct Hfuel|].
  rewrite (_opt_build_unfold spawn G (S fuel)).
  rewrite _opt_build_unfold in Hfuel. rewrite (_opt_build_unfold spawn G fuel).
  apply fueled_bind_inv in Hfuel as [Hdeps _].
  apply bind_congr; [|reflexivity].
  apply update_dependencies_more_fuel; [|exact Hdeps].
  intros dep fs0. apply IH.
Qed.

Lemma _opt_build_any_fuel fuel extra self force timestamp indent fs :
  fueled (_opt_build spawn G fuel self force timestamp indent fs) ->
  _opt_build spawn G (extra + fuel) self force timestamp indent fs
  = _opt_build spawn G fuel self force timestamp indent fs.
Proof.
  intros Hfuel. induction extra as [|extra IH]; [reflexivity|].
  cbn [Nat.add]. rewrite _opt_build_more_fuel; rewrite IH; [reflexivity | exact Hfuel].
Qed.

End Fuel.

(** X13. On a dependency graph at most [fuel] targets deep the build
    terminates: it returns or ends in a fatal error, it does not exhaust a
    call stack of depth [fuel], and a deeper stack gives the same outcome,
    file system and trace. *)
Theorem X13_build_terminates spawn G fuel extra self force timestamp indent fs :
  depth_within G fuel self = true ->
  fueled (_opt_build spawn G fuel self force timestamp indent fs)
  /\ _opt_build spawn G (extra + fuel) self force timestamp indent fs
     = _opt_build spawn G fuel self force timestamp indent fs.
Proof.
  intros Hdepth.
  pose proof (_opt_build_fueled spawn G fuel self force timestamp indent fs
                Hdepth) as Hfuel.
  split; [exact Hfuel | apply _opt_build_any_fuel; exact Hfuel].
Qed.

Lemma X13_build_terminates_witness :
  _opt_build ideal_spawn Examples.project (40 + 2) Examples.app false 0 0
    (Examples.fresh_checkout ["main.c"; "util.c"])
  = _opt_build ideal_spawn Examples.project 2 Examples.app false 0 0
      (Examples.fresh_checkout ["main.c"; "util.c"]).
Proof.
  exact (proj2 (X13_build_terminates ideal_spawn Examples.project 2 40
                  Examples.app false 0 0%nat
                  (Examples.fresh_checkout ["main.c"; "util.c"]) eq_refl)).
Defined.

(** ** Cycles *)

Lemma reaches_snoc G a b dep_name c :
  reaches G a b -> In dep_name (Target.deps b) ->
  _targets G !! dep_name = Some c -> reaches G a c.
Proof.
  intros Hab Hin Hc. induction Hab as [a n b Ha Hb | a n b b' Ha Hb Hbb' IH].
  - eapply reaches_trans; [exact Ha | exact Hb |].
    eapply reaches_dep; [exact Hin | exact Hc].
  - eapply reaches_trans; [exact Ha | exact Hb | apply IH; assumption].
Qed.

Section Cycles.

Variable spawn : list string -> FS -> FS.
Variable G : Globals.

Lemma update_dependencies_Done_each rec force T indent names :
  forall rebuild fs r fs' tr,
    update_dependencies G rec force T indent names rebuild fs = Done r fs' tr ->
    forall dep_name dep,
      In dep_name names -> _targets G !! dep_name = Some dep ->
      exists fs1 r1 fs1' tr1,
        rec dep force T (S indent) fs1 = Done r1 fs1' tr1.
Proof.
  induction names as [|n names IH]; intros rebuild fs r fs' tr Hrun dep_name
    dep Hin Hdep; [destruct Hin|].
  destruct (_targets G !! n) as [d|] eqn:E.
  - rewrite (update_dependencies_target G _ _ _ _ _ _ _ _ _ E) in Hrun.
    apply bind_Done in Hrun as ([] & fs0 & tr0 & tr' & Hp & Hrun & _).
    apply bind_Done in Hrun as (r1 & fs1 & tr1 & tr2 & Hd & Hrest & _).
    destruct Hin as [-> | Hin].
    + rewrite E in Hdep. injection Hdep as <-. eauto.
    + exact (IH _ _ _ _ _ Hrest dep_name dep Hin Hdep).
  - destruct Hin as [-> | Hin]; [congruence|].
    destruct (_external_dependencies G !! n) as [ext|] eqn:Hext.
    + rewrite (update_dependencies_external G _ _ _ _ _ _ _ _ _ E Hext) in Hrun.
      exact (IH _ _ _ _ _ Hrun dep_name dep Hin Hdep).
    + rewrite (update_dependencies_unknown G _ _ _ _ _ _ _ _ E Hext) in Hrun.
      discriminate.
Qed.

Lemma _opt_build_cycle fuel : forall self force timestamp indent fs r fs' tr,
  reaches G self self ->
  _opt_build spawn G fuel self force timestamp indent fs <> Done r fs' tr.
Proof.
  induction fuel as [|fuel IH]; intros self force timestamp indent fs r fs' tr
    Hcycle Hrun; [discriminate|].
  rewrite _opt_build_unfold in Hrun.
  apply bind_Done in Hrun as (r1 & fs1 & tr1 & tr' & Hdeps & _ & _).
  assert (Hnext : exists dep_name dep,
             In dep_name (Target.deps self)
             /\ _targets G !! dep_name = Some dep /\ reaches G dep dep).
  { inversion Hcycle as [a n b Hin Hb | a n b c Hin Hb Hbc]; subst.
    - exists n, self. auto.
    - exists n, b. split; [exact Hin|]. split; [exact Hb|].
      exact (reaches_snoc G b self n b Hbc Hin Hb). }
  destruct Hnext as (dep_name & dep & Hin & Hdep & Hdepcycle).
  destruct (update_dependencies_Done_each _ _ _ _ _ _ _ _ _ _ Hdeps dep_name dep
              Hin Hdep) as (fs0 & r0 & fs0' & tr0 & Hd).
  exact (IH _ _ _ _ _ _ _ _ Hdepcycle Hd).
Qed.

Lemma clean_dependencies_Done_each rec names :
  forall fs u fs' tr,
    clean_dependencies G rec names fs = Done u fs' tr ->
    forall dep_name dep,
      In dep_name names -> _targets G !! dep_name = Some dep ->
      exists fs1 u1 fs1' tr1, rec dep fs1 = Done u1 fs1' tr1.
Proof.
  induction names as [|n names IH]; intros fs u fs' tr Hrun dep_name dep Hin
    Hdep; [destruct Hin|].
  cbn [clean_dependencies] in Hrun.
  apply bind_Done in Hrun as (u1 & fs1 & tr1 & tr2 & Hhead & Hrest & _).
  destruct Hin as [-> | Hin].
  - rewrite Hdep in Hhead. eauto.
  - exact (IH _ _ _ _ Hrest dep_name dep Hin Hdep).
Qed.

Lemma clean_cycle fuel : forall self fs u fs' tr,
  reaches G self self -> clean spawn G fuel self fs <> Done u fs' tr.
Proof.
  induction fuel as [|fuel IH]; intros self fs u fs' tr Hcycle Hrun;
    [discriminate|].
  cbn [clean] in Hrun.
  apply bind_Done in Hrun as (? & ? & ? & ? & _ & Hrun & _).
  apply bind_Done in Hrun as (? & ? & ? & ? & _ & Hrun & _).
  apply bind_Done in Hrun as (? & ? & ? & ? & _ & Hrun & _).
  assert (Hnext : exists dep_name dep,
             In dep_name (Target.deps self)
             /\ _targets G !! dep_name = Some dep /\ reaches G dep dep).
  { inversion Hcycle as [a n b Hin Hb | a n b c Hin Hb Hbc]; subst.
    - exists n, self. auto.
    - exists n, b. split; [exact Hin|]. split; [exact Hb|].
      exact (reaches_snoc G b self n b Hbc Hin Hb). }
  destruct Hnext as (dep_name & dep & Hin & Hdep & Hdepcycle).
  destruct (clean_dependencies_Done_each _ _ _ _ _ _ Hrun dep_name dep Hin Hdep)
    as (fs0 & u0 & fs0' & tr0 & Hd).
  exact (IH _ _ _ _ _ Hdepcycle Hd).
Qed.

Lemma clean_dependencies_no_error rec names :
  (forall dep fs fs' tr, rec dep fs <> Fatal fs' tr) ->
  forall fs fs' tr, clean_dependencies G rec names fs <> Fatal fs' tr.
Proof.
  intros Hrec. induction names as [|n names IH]; intros fs fs' tr;
    [discriminate|].
  cbn [clean_dependencies]. unfold bind.
  destruct (_targets G !! n) as [dep|].
  - destruct (rec dep fs) as [u fs1 tr1|fs1 tr1|fs1 tr1] eqn:E.
    + specialize (IH fs1). destruct (clean_dependencies G rec names fs1);
        cbn [after]; try discriminate. intros [= <- <-]. exact (IH _ _ eq_refl).
    + exfalso. exact (Hrec _ _ _ _ E).
    + discriminate.
  - cbn [ret after]. specialize (IH fs).
    destruct (clean_dependencies G rec names fs); cbn [after]; try discriminate.
    intros [= <- <-]. exact (IH _ _ eq_refl).
Qed.

Lemma clean_no_error fuel : forall self fs fs' tr,
  clean spawn G fuel self fs <> Fatal fs' tr.
Proof.
  induction fuel as [|fuel IH]; intros self fs fs' tr; [discriminate|].
  cbn [clean]. unfold bind at 1, print. cbn [after].
  unfold bind at 1. rewrite _print_commands_run. cbn [after].
  unfold bind at 1, subprocess_run. cbn [after].
  pose proof (clean_dependencies_no_error (clean spawn G fuel)
                (Target.deps self) IH (spawn (rm_args self) fs)) as Hdeps.
  destruct (clean_dependencies G (clean spawn G fuel) (Target.deps self)
              (spawn (rm_args self) fs)); cbn [after]; try discriminate.
  intros H. injection H as <- _. exact (Hdeps _ _ eq_refl).
Qed.

Lemma clean_dependencies_unregistered rec names fs :
  Forall (fun n => _targets G !! n = None) names ->
  clean_dependencies G rec names fs = Done tt fs [].
Proof.
  induction 1 as [|n names Hn _ IH]; [reflexivity|].
  cbn [clean_dependencies]. rewrite Hn. unfold bind, ret. cbn [after].
  rewrite IH. reflexivity.
Qed.

End Cycles.

(** X14. There is no cycle detection.  The build of a target that lies on
    a dependency cycle never returns, whatever the depth of the call stack:
    it ends in a fatal error or exhausts the stack.  The clean of such a
    target always exhausts the stack. *)
Theorem X14_cycles_never_return spawn G fuel self force timestamp indent fs :
  reaches G self self ->
  ((exists fs' tr,
       _opt_build spawn G fuel self force timestamp indent fs = Fatal fs' tr)
   \/ (exists fs' tr,
         _opt_build spawn G fuel self force timestamp indent fs
         = OutOfFuel fs' tr))
  /\ exists fs' tr, clean spawn G fuel self fs = OutOfFuel fs' tr.
Proof.
  intros Hcycle. split.
  - destruct (_opt_build spawn G fuel self force timestamp indent fs)
      as [r fs' tr|fs' tr|fs' tr] eqn:E; eauto.
    exfalso. exact (_opt_build_cycle spawn G fuel _ _ _ _ _ _ _ _ Hcycle E).
  - destruct (clean spawn G fuel self fs) as [u fs' tr|fs' tr|fs' tr] eqn:E;
      eauto; exfalso.
    + exact (clean_cycle spawn G fuel _ _ _ _ _ Hcycle E).
    + exact (clean_no_error spawn G fuel _ _ _ _ E).
Qed.

Lemma ping_on_cycle : reaches MoreExamples.ping_pong MoreExamples.ping MoreExamples.ping.
Proof.
  apply (reaches_trans _ MoreExamples.ping "pong" MoreExamples.pong);
    [right; left; reflexivity | reflexivity |].
  apply (reaches_dep _ MoreExamples.pong "ping"); [left; reflexivity | reflexivity].
Qed.

Lemma X14_cycles_never_return_witness :
  exists fs' tr,
    clean ideal_spawn MoreExamples.ping_pong 3 MoreExamples.ping
      (Examples.fresh_checkout []) = OutOfFuel fs' tr.
Proof.
  exact (proj2 (X14_cycles_never_return ideal_spawn MoreExamples.ping_pong 3
                  MoreExamples.ping false 0 0%nat (Examples.fresh_checkout [])
                  ping_on_cycle)).
Defined.

(** X15. [clean] has no error path: it returns or, on a graph deeper than
    the call stack, exhausts the stack.  Dependency names that are not
    registered targets, be they external dependencies or registered
    nowhere, are skipped in silence: with only such names the clean is the
    one removal command of the target. *)
Theorem X15_clean_never_raises spawn G fuel self fs :
  ((exists fs' tr, clean spawn G fuel self fs = Done tt fs' tr)
   \/ (exists fs' tr, clean spawn G fuel self fs = OutOfFuel fs' tr))
  /\ (Forall (fun n => _targets G !! n = None) (Target.deps self) ->
      clean spawn G (S fuel) self fs
      = Done tt (spawn (rm_args self) fs)
          (Print ("Cleaning target " +:+ Target.name self)
             :: echo G 0 (rm_args self) ++ [Run (rm_args self)])).
Proof.
  split.
  - destruct (clean spawn G fuel self fs) as [[] fs' tr|fs' tr|fs' tr] eqn:E;
      eauto. exfalso. exact (clean_no_error spawn G fuel _ _ _ _ E).
  - intros Hnone. cbn [clean]. unfold bind at 1, print. cbn [after].
    unfold bind at 1. rewrite _print_commands_run. cbn [after].
    unfold bind at 1, subprocess_run. cbn [after].
    rewrite (clean_dependencies_unregistered G _ _ _ Hnone). cbn [after].
    rewrite app_nil_r. reflexivity.
Qed.

Lemma X15_clean_never_raises_witness :
  clean ideal_spawn Examples.bundle_project 1
    (Target.mk "kit" TargetType.STATIC_LIB "" ["m"; "nowhere"] ["kit.c"] [] [])
    Examples.bundle_built
  = Done tt
      (ideal_spawn ["rm"; "-f"; "kit.a"; "kit.o"] Examples.bundle_built)
      [Print "Cleaning target kit"; Run ["rm"; "-f"; "kit.a"; "kit.o"]].
Proof.
  refine (proj2 (X15_clean_never_raises ideal_spawn Examples.bundle_project 0
            (Target.mk "kit" TargetType.STATIC_LIB "" ["m"; "nowhere"] ["kit.c"]
               [] []) Examples.bundle_built) _).
  repeat constructor.
Defined.

(** ** A dependency rebuilt on its own *)






(** ** Declaring targets *)

Lemma registered_targets_lookup st k :
  registered_targets st !! k
  = match target_names st !! k with
    | Some h => store st !! h
    | None => None
    end.
Proof.
  unfold registered_targets. rewrite lookup_omap.
  destruct (target_names st !! k); reflexivity.
Qed.

Lemma registered_targets_update f h st k :
  registered_targets (update_target f h st) !! k
  = match target_names st !! k with
    | Some h' => if decide (h = h') then f <$> store st !! h else store st !! h'
    | None => None
    end.
Proof.
  rewrite registered_targets_lookup. cbn [update_target target_names store].
  destruct (target_names st !! k) as [h'|]; [|reflexivity].
  rewrite list_lookup_alter. destruct (decide (h = h')) as [<-|]; reflexivity.
Qed.

Lemma handles_valid_init name type st :
  handles_valid st -> handles_valid (Target_init name type st).2.
Proof.
  intros Hv k h. cbn [Target_init snd target_names store].
  rewrite length_app. cbn [length].
  intros H. apply lookup_insert_Some in H as [[_ <-] | [_ H]]; [lia|].
  specialize (Hv k h H). lia.
Qed.

Lemma handles_valid_update f h st :
  handles_valid st -> handles_valid (update_target f h st).
Proof.
  intros Hv k h'. cbn [update_target target_names store].
  rewrite length_alter. apply Hv.
Qed.

Lemma registered_targets_init name type st :
  handles_valid st ->
  registered_targets (Target_init name type st).2 !! name
    = Some (Target.mk name type "" [] [] [] [])
  /\ forall k, k <> name ->
       registered_targets (Target_init name type st).2 !! k
       = registered_targets st !! k.
Proof.
  intros Hv. split.
  - rewrite registered_targets_lookup. cbn [Target_init snd target_names store].
    rewrite lookup_insert_eq. apply list_lookup_middle. reflexivity.
  - intros k Hk. rewrite !registered_targets_lookup.
    cbn [Target_init snd target_names store].
    rewrite lookup_insert_ne by congruence.
    destruct (target_names st !! k) as [h|] eqn:E; [|reflexivity].
    apply lookup_app_l. exact (Hv k h E).
Qed.

Lemma no_setup_valid : handles_valid no_setup.
Proof.
  intros k h H. unfold no_setup in H. cbn [target_names] in H.
  rewrite lookup_empty in H. discriminate H.
Qed.

(** X17. Constructing a target registers it under its name: the registry
    then resolves the name to the new, empty target, whatever was
    registered under that name before, and resolves every other name as
    before.  Constructing an external dependency does the same in its own
    registry and leaves the targets alone. *)
Theorem X17_registration name type st :
  handles_valid st ->
  (registered_targets (Target_init name type st).2 !! name
     = Some (Target.mk name type "" [] [] [] [])
   /\ (forall k, k <> name ->
         registered_targets (Target_init name type st).2 !! k
         = registered_targets st !! k)
   /\ extdep_names (Target_init name type st).2 = extdep_names st
   /\ handles_valid (Target_init name type st).2)
  /\ (forall etype path,
        extdep_names (ExtDep_init name etype path st).2 !! name
          = Some (ExtDep.mk name etype path)
        /\ (forall k, k <> name ->
              extdep_names (ExtDep_init name etype path st).2 !! k
              = extdep_names st !! k)
        /\ registered_targets (ExtDep_init name etype path st).2
           = registered_targets st).
Proof.
  intros Hv. split.
  - destruct (registered_targets_init name type st Hv) as [H1 H2].
    split; [exact H1|]. split; [exact H2|]. split; [reflexivity|].
    apply handles_valid_init. exact Hv.
  - intros etype path. cbn [ExtDep_init snd extdep_names].
    split; [apply lookup_insert_eq|]. split; [|reflexivity].
    intros k Hk. apply lookup_insert_ne. congruence.
Qed.

Lemma X17_registration_witness :
  registered_targets
    (Target_init "app" TargetType.STATIC_LIB
       (Target_init "app" TargetType.EXECUTABLE no_setup).2).2 !! "app"
  = Some (Target.mk "app" TargetType.STATIC_LIB "" [] [] [] []).
Proof.
  refine (proj1 (proj1 (X17_registration "app" TargetType.STATIC_LIB
            (Target_init "app" TargetType.EXECUTABLE no_setup).2 _))).
  apply handles_valid_init. exact no_setup_valid.
Defined.

(** X18. What is declared through a handle is what the build resolves: after
    constructing a target and appending dependencies, sources and include
    directories through its handle, the registry resolves its name to the
    target with exactly those lists, and every other name as before. *)
Theorem X18_declared_is_resolved name type deps sources dirs st :
  handles_valid st ->
  registered_targets
    (add_include_directories (Target_init name type st).1 dirs
       (add_source_files (Target_init name type st).1 sources
          (add_dependencies (Target_init name type st).1 deps
             (Target_init name type st).2))) !! name
  = Some (Target.mk name type "" deps sources [] dirs)
  /\ forall k, k <> name ->
       registered_targets
         (add_include_directories (Target_init name type st).1 dirs
            (add_source_files (Target_init name type st).1 sources
               (add_dependencies (Target_init name type st).1 deps
                  (Target_init name type st).2))) !! k
       = registered_targets st !! k.
Proof.
  intros Hv. unfold add_include_directories, add_source_files, add_dependencies.
  destruct (registered_targets_init name type st Hv) as [Hnew Hold].
  split.
  - rewrite registered_targets_update. cbn [update_target target_names store].
    cbn [Target_init fst snd target_names].
    rewrite lookup_insert_eq.
    destruct (decide (length (store st) = length (store st))); [|contradiction].
    rewrite !list_lookup_alter_eq.
    cbn [Target_init snd store]. rewrite list_lookup_middle by reflexivity.
    reflexivity.
  - intros k Hk. rewrite <- (Hold k Hk).
    rewrite !registered_targets_update.
    cbn [update_target target_names store].
    destruct (target_names (Target_init name type st).2 !! k) as [h|] eqn:E;
      [|rewrite registered_targets_lookup, E; reflexivity].
    assert (Hne : (Target_init name type st).1 <> h).
    { cbn [Target_init fst snd target_names] in *.
      rewrite lookup_insert_ne in E by congruence.
      specialize (Hv k h E). lia. }
    destruct (decide ((Target_init name type st).1 = h)); [contradiction|].
    rewrite !list_lookup_alter_ne by exact Hne.
    rewrite registered_targets_lookup, E. reflexivity.
Qed.

Lemma X18_declared_is_resolved_witness :
  registered_targets
    (add_include_directories 0 ["inc"]
       (add_source_files 0 ["main.c"]
          (add_dependencies 0 ["util"; "m"]
             (Target_init "app" TargetType.EXECUTABLE no_setup).2))) !! "app"
  = Some (Target.mk "app" TargetType.EXECUTABLE "" ["util"; "m"] ["main.c"] []
            ["inc"]).
Proof.
  refine (proj1 (X18_declared_is_resolved "app" TargetType.EXECUTABLE
            ["util"; "m"] ["main.c"] ["inc"] no_setup no_setup_valid)).
Defined.

Lemma alter_commute {A} (f g : A -> A) (i j : nat) (l : list A) :
  (forall x, f (g x) = g (f x)) ->
  alter f i (alter g j l) = alter g j (alter f i l).
Proof.
  intros Hfg. apply list_eq. intros k.
  destruct (decide (i = k)) as [Hi|Hi]; destruct (decide (j = k)) as [Hj|Hj];
    subst;
    repeat first [ rewrite list_lookup_alter_eq
                 | rewrite list_lookup_alter_ne by congruence ];
    try reflexivity.
  destruct (l !! k); cbn; [rewrite Hfg|]; reflexivity.
Qed.

Lemma alter_twice {A} (f g fg : A -> A) (i : nat) (l : list A) :
  (forall x, f (g x) = fg x) -> alter f i (alter g i l) = alter fg i l.
Proof.
  intros H. apply list_eq. intros k.
  destruct (decide (i = k)) as [<-|Hne].
  - rewrite !list_lookup_alter_eq.
    destruct (l !! i); cbn; [rewrite H|]; reflexivity.
  - rewrite !list_lookup_alter_ne by exact Hne. reflexivity.
Qed.

(** X19. The accessors append, in call order, and do not interfere: two
    calls of the same accessor on a target are one call with the
    concatenated list, and calls of different accessors, on the same target
    or on different ones, can be exchanged. *)
Theorem X19_accessors_compose :
  (forall h a b st,
      add_dependencies h b (add_dependencies h a st)
      = add_dependencies h (a ++ b) st)
  /\ (forall h a b st,
        add_source_files h b (add_source_files h a st)
        = add_source_files h (a ++ b) st)
  /\ (forall h a b st,
        add_include_directories h b (add_include_directories h a st)
        = add_include_directories h (a ++ b) st)
  /\ (forall h h' a b st,
        add_source_files h a (add_dependencies h' b st)
        = add_dependencies h' b (add_source_files h a st))
  /\ (forall h h' a b st,
        add_include_directories h a (add_dependencies h' b st)
        = add_dependencies h' b (add_include_directories h a st))
  /\ (forall h h' a b st,
        add_include_directories h a (add_source_files h' b st)
        = add_source_files h' b (add_include_directories h a st)).
Proof.
  unfold add_dependencies, add_source_files, add_include_directories,
    update_target.
  repeat split; intros; cbn [store target_names extdep_names]; f_equal;
    first [ apply alter_twice; intros [];
            unfold extend_deps, extend_sources, extend_incdirs;
            cbn; rewrite <- app_assoc; reflexivity
          | apply alter_commute; intros []; reflexivity ].
Qed.

(** X20. Registration overwrites without detecting the collision, and the
    overwritten target lives on, detached: after two targets were
    constructed under one name, the registry resolves the name to the
    second; appending through the handle of the first changes the first
    object but nothing the registry resolves. *)
Theorem X20_overwritten_target_is_detached name type1 type2 sources st :
  handles_valid st ->
  registered_targets
    (Target_init name type2 (Target_init name type1 st).2).2 !! name
  = Some (Target.mk name type2 "" [] [] [] [])
  /\ registered_targets
       (add_source_files (Target_init name type1 st).1 sources
          (Target_init name type2 (Target_init name type1 st).2).2)
     = registered_targets
         (Target_init name type2 (Target_init name type1 st).2).2
  /\ store
       (add_source_files (Target_init name type1 st).1 sources
          (Target_init name type2 (Target_init name type1 st).2).2)
       !! (Target_init name type1 st).1
     = Some (Target.mk name type1 "" [] sources [] []).
Proof.
  intros Hv. pose proof (handles_valid_init name type1 st Hv) as Hv1.
  split; [apply registered_targets_init; exact Hv1|]. split.
  - apply map_eq. intros k. unfold add_source_files.
    rewrite registered_targets_update, registered_targets_lookup.
    destruct (target_names
                (Target_init name type2 (Target_init name type1 st).2).2 !! k)
      as [h|] eqn:E; [|reflexivity].
    destruct (decide ((Target_init name type1 st).1 = h)) as [<-|];
      [|reflexivity].
    exfalso. cbn [Target_init fst snd target_names store] in E.
    rewrite length_app in E. cbn [length] in E.
    apply lookup_insert_Some in E as [[_ E] | [Hk E]]; [lia|].
    apply lookup_insert_Some in E as [[Hk' _] | [_ E]]; [congruence|].
    specialize (Hv k _ E). lia.
  - unfold add_source_files.
    cbn [update_target store Target_init fst snd].
    rewrite list_lookup_alter_eq.
    rewrite lookup_app_l by (rewrite length_app; cbn; lia).
    rewrite list_lookup_middle by reflexivity. reflexivity.
Qed.

Lemma X20_overwritten_target_is_detached_witness :
  registered_targets
    (add_source_files 0 ["old.c"]
       (Target_init "app" TargetType.STATIC_LIB
          (Target_init "app" TargetType.EXECUTABLE no_setup).2).2) !! "app"
  = Some (Target.mk "app" TargetType.STATIC_LIB "" [] [] [] []).
Proof.
  destruct (X20_overwritten_target_is_detached "app" TargetType.EXECUTABLE
              TargetType.STATIC_LIB ["old.c"] no_setup no_setup_valid)
    as (H1 & H2 & _).
  change (add_source_files 0) with
    (add_source_files (Target_init "app" TargetType.EXECUTABLE no_setup).1).
  rewrite H2. exact H1.
Defined.
